(** * The Meow service worker: caching strategies, routing and eviction

    A shallow embedding of [service-worker.js]: the pattern tables and the
    [fetch] listener that routes a request to a strategy, the three
    strategies, [manageCacheSize], [handlePrefetchResources] and
    [performPeriodicCleanup], followed by the properties of the written
    specification that concern them.

    Conventions of the model.
    - Strings are sequences of 8-bit code units.  Every string that the
      worker tests against a pattern is a serialised URL or one of its
      components, which is ASCII.
    - The platform ([fetch], [Date], [Date.parse]) is an oracle record
      [Env]; the Cache Storage and the messages posted to the pages are
      the state.  Store operations do not fail: a write is the write
      of a response that the Cache accepts ([storable]), and a
      statement that needs the write to take place assumes so.  A
      response is a value whose body can be read at any time; no
      statement rests on the revalidation reading the body of an entry
      that it has already handed to the page.
    - An [async] function is a computation in the monad [M]: it takes the
      state and gives either a resolved value or a rejection, and the new
      state.  A task that the source starts without awaiting it
      ([updateInBackground], the revalidation of a stale entry) is run to
      completion at the point where it is started.

    The later parts add the [install], [activate] and [message]
    listeners with their handlers, and from [sw-register.js] the page's
    handling of the worker's messages, [refreshContent],
    [getCurrentLanguage] and [clearAllCache], with properties read off
    the code. *)

From stdpp Require Import base option list gmap strings pretty.
From Stdlib Require Import Ascii ZArith Lia.
From Stdlib Require String.

Local Open Scope string_scope.
Local Open Scope Z_scope.
Local Open Scope list_scope.

(** ** Strings *)

Module Str.

Definition chars (s : string) : list ascii := String.list_ascii_of_string s.

(** [String.prototype.toUpperCase] and [toLowerCase] on one ASCII code
    unit. *)
Definition upper (c : ascii) : ascii :=
  let n := nat_of_ascii c in
  if ((97 <=? n) && (n <=? 122))%nat then ascii_of_nat (n - 32) else c.

Definition lower (c : ascii) : ascii :=
  let n := nat_of_ascii c in
  if ((65 <=? n) && (n <=? 90))%nat then ascii_of_nat (n + 32) else c.

Fixpoint map (f : ascii -> ascii) (s : string) : string :=
  match s with
  | EmptyString => EmptyString
  | String c s' => String (f c) (map f s')
  end.

Definition toUpperCase : string -> string := map upper.
Definition toLowerCase : string -> string := map lower.

(** [s.startsWith(p)] *)
Definition startsWith (p s : string) : bool := String.prefix p s.

(** [s.includes(needle)] *)
Fixpoint includes (needle s : string) : bool :=
  String.prefix needle s ||
  match s with
  | EmptyString => false
  | String _ s' => includes needle s'
  end.

(** [s.split(sep)] for a one-character separator: [acc] holds the
    current piece, reversed. *)
Fixpoint split_go (sep : ascii) (acc : list ascii) (s : string) : list string :=
  match s with
  | EmptyString => [String.string_of_list_ascii (rev acc)]
  | String c s' =>
      if Ascii.eqb c sep
      then String.string_of_list_ascii (rev acc) :: split_go sep [] s'
      else split_go sep (c :: acc) s'
  end.

Definition split (sep : ascii) (s : string) : list string := split_go sep [] s.

End Str.

(** ** Regular expressions

    The fragment of the JavaScript pattern language that the worker's
    tables use: literals, [.], alternation, [*], a trailing [$] and the
    [i] flag.  Matching is by derivatives. *)

Module Re.

Inductive regex : Type :=
| Void                      (* matches nothing *)
| Eps                       (* the empty pattern *)
| Chr (c : ascii)           (* one literal code unit *)
| Dot                       (* [.]: anything but a line terminator *)
| Any                       (* any code unit (used by the search) *)
| Alt (r s : regex)         (* [r|s] *)
| Cat (r s : regex)         (* [rs] *)
| Star (r : regex).         (* [r*] *)

(** A literal string. *)
Fixpoint Lit (s : string) : regex :=
  match s with
  | EmptyString => Eps
  | String c s' => Cat (Chr c) (Lit s')
  end.

(** Alternation of a non-empty list of patterns. *)
Fixpoint Alts (rs : list regex) : regex :=
  match rs with
  | [] => Void
  | [r] => r
  | r :: rs' => Alt r (Alts rs')
  end.

Definition line_terminator (c : ascii) : bool :=
  Ascii.eqb c "010"%char || Ascii.eqb c "013"%char.

Section Matcher.

(** The [i] flag: code units are compared after [Canonicalize], which
    on ASCII is [toUpperCase]. *)
Variable ic : bool.

Definition chr_eq (c a : ascii) : bool :=
  if ic then Ascii.eqb (Str.upper c) (Str.upper a) else Ascii.eqb c a.

Fixpoint nullable (r : regex) : bool :=
  match r with
  | Void => false
  | Eps => true
  | Chr _ => false
  | Dot => false
  | Any => false
  | Alt r s => nullable r || nullable s
  | Cat r s => nullable r && nullable s
  | Star _ => true
  end.

Fixpoint deriv (a : ascii) (r : regex) : regex :=
  match r with
  | Void => Void
  | Eps => Void
  | Chr c => if chr_eq c a then Eps else Void
  | Dot => if line_terminator a then Void else Eps
  | Any => Eps
  | Alt r s => Alt (deriv a r) (deriv a s)
  | Cat r s =>
      if nullable r
      then Alt (Cat (deriv a r) s) (deriv a s)
      else Cat (deriv a r) s
  | Star r => Cat (deriv a r) (Star r)
  end.

(** [r] matches the whole of [w]. *)
Fixpoint matches (r : regex) (w : list ascii) : bool :=
  match w with
  | [] => nullable r
  | a :: w' => matches (deriv a r) w'
  end.

(** The words of a pattern. *)
Inductive Lang : regex -> list ascii -> Prop :=
| L_Eps : Lang Eps []
| L_Chr c a : chr_eq c a = true -> Lang (Chr c) [a]
| L_Dot a : line_terminator a = false -> Lang Dot [a]
| L_Any a : Lang Any [a]
| L_AltL r s w : Lang r w -> Lang (Alt r s) w
| L_AltR r s w : Lang s w -> Lang (Alt r s) w
| L_Cat r s u v : Lang r u -> Lang s v -> Lang (Cat r s) (u ++ v)
| L_Star0 r : Lang (Star r) []
| L_StarS r u v : Lang r u -> Lang (Star r) v -> Lang (Star r) (u ++ v).

(** No word of [r] contains a code unit equal to [x]. *)
Fixpoint avoids (x : ascii) (r : regex) : bool :=
  match r with
  | Void | Eps => true
  | Chr c => negb (chr_eq c x)
  | Dot | Any => false
  | Alt r s | Cat r s => avoids x r && avoids x s
  | Star r => avoids x r
  end.

End Matcher.

(** A pattern literal [/body/], [/body$/], [/body/i] or [/body$/i]. *)
Record RegExp : Type := mkRegExp {
  body : regex;
  anchored : bool;      (* a trailing [$] *)
  ignoreCase : bool     (* the [i] flag *)
}.

(** The pattern that [test] runs against the whole input: the match may
    start anywhere, and ends anywhere unless the pattern ends in [$]. *)
Definition search (p : RegExp) : regex :=
  Cat (Star Any) (if anchored p then body p else Cat (body p) (Star Any)).

(** [p.test(s)] *)
Definition test (p : RegExp) (s : string) : bool :=
  matches (ignoreCase p) (search p) (Str.chars s).

(** [patterns.some(pattern => pattern.test(s))] *)
Definition some_test (patterns : list RegExp) (s : string) : bool :=
  existsb (fun pattern => test pattern s) patterns.

End Re.

Import Re.

(** ** The worker's tables *)

Definition CACHE_VERSION : string := "1010250100".

Module CACHE_NAMES.
Definition STATIC : string := "meow-static-" +:+ CACHE_VERSION.
Definition DYNAMIC : string := "meow-dynamic-" +:+ CACHE_VERSION.
Definition IMAGES : string := "meow-images-" +:+ CACHE_VERSION.
Definition JSON : string := "meow-json-" +:+ CACHE_VERSION.
Definition FONTS : string := "meow-fonts-" +:+ CACHE_VERSION.
(** [Object.values(CACHE_NAMES)], in property order. *)
Definition values : list string := [STATIC; DYNAMIC; IMAGES; JSON; FONTS].
End CACHE_NAMES.

Definition DYNAMIC_CACHE_PATTERNS : list RegExp := [
  mkRegExp (Lit ".html") true false;
  mkRegExp (Lit ".css") true false;
  mkRegExp (Lit ".js") true false;
  mkRegExp (Cat (Lit "master_") (Cat (Star Dot) (Lit ".json"))) true false
].

Definition IMAGE_CACHE_PATTERNS : list RegExp := [
  mkRegExp
    (Cat (Chr ".")
       (Alts [Lit "jpg"; Lit "jpeg"; Lit "png"; Lit "gif"; Lit "webp";
              Lit "svg"; Lit "ico"]))
    true true;
  mkRegExp (Lit "share_image_url") false false;
  mkRegExp (Lit "placeholder") false false
].

Definition JSON_CACHE_PATTERNS : list RegExp := [
  mkRegExp (Lit ".json") true false;
  mkRegExp (Lit "master_") false false
].

Definition EXTERNAL_CACHE_PATTERNS : list RegExp := [
  mkRegExp (Lit "fonts.googleapis.com") false false;
  mkRegExp (Lit "fonts.gstatic.com") false false;
  mkRegExp (Lit "cdnjs.cloudflare.com") false false;
  mkRegExp (Lit "cdn.jsdelivr.net") false false
].

Definition NETWORK_FIRST_PATTERNS : list RegExp := [
  mkRegExp (Lit ".m3u8") true false;
  mkRegExp (Lit ".ts") true false;
  mkRegExp (Lit ".mp4") true false;
  mkRegExp (Lit ".webm") true false;
  mkRegExp (Lit "video") false false
].

(** [CACHE_LIMITS], an object used as a map from the upper-case class
    name to the entry limit. *)
Definition CACHE_LIMITS : gmap string nat :=
  {[ "IMAGES" := 5000%nat; "JSON" := 5000%nat; "DYNAMIC" := 50%nat ]}.

(** ** Platform objects *)

Module Headers.
(** A header list as [get] observes it: one pair per name. *)
Definition t : Type := list (string * string).

(** [headers.get(name)]: names compare without regard to case; the
    result is [null] when the header is absent. *)
Fixpoint get (name : string) (h : t) : option string :=
  match h with
  | [] => None
  | (n, v) :: h' =>
      if String.eqb (Str.toLowerCase n) (Str.toLowerCase name)
      then Some v else get name h'
  end.
End Headers.

Module URL.
(** A parsed URL.  [protocol] includes the colon; [query] and
    [fragment] are absent or hold the text after [?] and [#]. *)
Record t : Type := mk {
  protocol : string;
  hostname : string;
  port : string;
  pathname : string;
  query : option string;
  fragment : option string
}.

(** [url.search]: empty when the query is absent or empty. *)
Definition search (u : t) : string :=
  match query u with
  | None | Some "" => ""
  | Some q => "?" +:+ q
  end.

Definition host (u : t) : string :=
  if String.eqb (port u) "" then hostname u else hostname u +:+ ":" +:+ port u.

(** The serialisation without the fragment, which is what the Cache
    compares. *)
Definition href_no_fragment (u : t) : string :=
  protocol u +:+ "//" +:+ host u +:+ pathname u +:+
  match query u with None => "" | Some q => "?" +:+ q end.

(** [url.href], which is also [request.url]. *)
Definition href (u : t) : string :=
  href_no_fragment u +:+
  match fragment u with None => "" | Some f => "#" +:+ f end.
End URL.

Module Request.
Record t : Type := mk {
  method : string;
  parsed : URL.t;           (* [new URL(request.url)] *)
  headers : Headers.t
}.
(** [request.url] *)
Definition url (r : t) : string := URL.href (parsed r).
End Request.

Module Response.
Record t : Type := mk {
  status : Z;
  headers : Headers.t;
  body : string
}.
(** [response.ok] *)
Definition ok (r : t) : bool := (200 <=? status r) && (status r <=? 299).
(** [await response.clone().text()] *)
Definition text (r : t) : string := body r.
(** [new Response(body, { headers })] *)
Definition make (b : string) (h : Headers.t) : t := mk 200 h b.
End Response.

(** The first argument of [fetch], [cache.match] and [cache.put]: a
    request object or a URL string. *)
Inductive RequestInfo : Type :=
| OfRequest (r : Request.t)
| OfString (u : string).

Record Error : Type := mkError { message : string }.

(** What a [fetch] settles to. *)
Inductive Settled : Type :=
| Fulfilled (r : Response.t)
| Failed (e : Error).

(** The platform outside the worker. *)
Record Env : Type := mkEnv {
  net : RequestInfo -> Settled;          (* the network behind [fetch] *)
  now : Z;                               (* [Date.now()], in milliseconds *)
  parseDate : string -> option Z         (* [new Date(s).getTime()]; [None] is [NaN] *)
}.

(** ** The Cache Storage *)

(** One cache: its entries in the order of [cache.keys()], oldest first.
    The key is the request URL without its fragment. *)
Abbreviation Cache := (list (string * Response.t)).

Module CacheOps.
(** The key under which a request is stored.  A URL string is taken
    to be an absolute URL in its serialised form, without fragment: the
    Cache parses the string and stores under the serialisation. *)
Definition key (info : RequestInfo) : string :=
  match info with
  | OfRequest r => URL.href_no_fragment (Request.parsed r)
  | OfString u => u
  end.

Definition keys (c : Cache) : list string := c.*1.

Definition lookup (k : string) (c : Cache) : option Response.t :=
  snd <$> List.find (fun e => String.eqb (fst e) k) c.

Definition delete (k : string) (c : Cache) : Cache :=
  List.filter (fun e => negb (String.eqb (fst e) k)) c.

(** [put] removes the entries that the request matches and appends
    the new one. *)
Definition put (k : string) (v : Response.t) (c : Cache) : Cache :=
  (delete k c ++ [(k, v)])%list.
End CacheOps.

(** A message posted to every client. *)
Record AuxData : Type := mkAux {
  showNotification : bool;
  aux_message : option string
}.

Record Message : Type := mkMessage {
  msg_type : string;
  msg_message : string;
  msg_url : option string;
  msg_data : option AuxData;
  msg_timestamp : Z
}.

Record State : Type := mkState {
  caches : gmap string Cache;    (* the Cache Storage: name to cache *)
  sent : list Message            (* the messages broadcast, oldest first *)
}.

(** The entries of the named cache; none when it was never opened. *)
Definition entries (name : string) (st : State) : Cache :=
  default [] (caches st !! name).

Definition set_entries (name : string) (c : Cache) (st : State) : State :=
  mkState (<[name := c]> (caches st)) (sent st).

(** ** Asynchronous computations *)

Inductive Outcome (A : Type) : Type :=
| Resolved (a : A)
| Rejected (e : Error).
Arguments Resolved {A} a.
Arguments Rejected {A} e.

Definition M (A : Type) : Type := State -> Outcome A * State.

Definition ret {A} (a : A) : M A := fun st => (Resolved a, st).

Definition throw {A} (e : Error) : M A := fun st => (Rejected e, st).

Definition bind {A B} (m : M A) (k : A -> M B) : M B :=
  fun st =>
    match m st with
    | (Resolved a, st') => k a st'
    | (Rejected e, st') => (Rejected e, st')
    end.

(** [try { m } catch (error) { h error }], and [m.catch(h)]. *)
Definition try_catch {A} (m : M A) (h : Error -> M A) : M A :=
  fun st =>
    match m st with
    | (Resolved a, st') => (Resolved a, st')
    | (Rejected e, st') => h e st'
    end.

Notation "'let*' x ':=' m 'in' k" := (bind m (fun x => k))
  (at level 10, x name, m at level 100, k at level 200).
Notation "m '>>' k" := (bind m (fun _ => k))
  (at level 62, right associativity).

(** [for (const x of l) { await f x }] *)
Fixpoint for_each {A} (l : list A) (f : A -> M unit) : M unit :=
  match l with
  | [] => ret tt
  | x :: l' => f x >> for_each l' f
  end.

Definition when (b : bool) (m : M unit) : M unit := if b then m else ret tt.

(** ** The worker *)

(** The strategy that the [fetch] listener answers with. *)
Inductive Strategy : Type :=
| NetworkFirst
| CacheFirst (cacheName : string)
| StaleWhileRevalidate (cacheName : string).

(** The [fetch] listener: [None] when the listener returns without
    calling [event.respondWith]. *)
Definition fetch_listener (request : Request.t) : option Strategy :=
  let url := Request.parsed request in
  if negb (String.eqb (Request.method request) "GET") then None
  else if negb (Str.startsWith "http" (URL.protocol url)) then None
  else if some_test NETWORK_FIRST_PATTERNS (URL.pathname url +:+ URL.search url)
  then Some NetworkFirst
  else if some_test IMAGE_CACHE_PATTERNS (URL.pathname url +:+ URL.search url)
  then Some (CacheFirst CACHE_NAMES.IMAGES)
  else if some_test JSON_CACHE_PATTERNS (URL.pathname url)
  then Some (StaleWhileRevalidate CACHE_NAMES.JSON)
  else if some_test EXTERNAL_CACHE_PATTERNS (URL.hostname url)
  then Some (CacheFirst CACHE_NAMES.FONTS)
  else if some_test DYNAMIC_CACHE_PATTERNS (URL.pathname url)
  then Some (StaleWhileRevalidate CACHE_NAMES.DYNAMIC)
  else Some NetworkFirst.

(** The placeholder image of [cacheFirstStrategy] (the quotes around
    its attribute values written as apostrophes). *)
Definition placeholder_svg : Response.t :=
  Response.make
    "<svg xmlns='http://www.w3.org/2000/svg' width='300' height='400' viewBox='0 0 300 400'><rect width='300' height='400' fill='#1a1a1a'/><text x='150' y='200' text-anchor='middle' fill='#666' font-family='Arial' font-size='16'>Image Unavailable</text></svg>"
    [("Content-Type", "image/svg+xml")].

(** The offline page of [networkFirstStrategy] (its markup shortened). *)
Definition offline_page : Response.t :=
  Response.make
    "<!DOCTYPE html><html><head><title>Offline - Meow</title></head><body><h1>You're Offline</h1><p>Check your connection and try again</p></body></html>"
    [("Content-Type", "text/html")].

(** [CACHE_LIMITS[cacheName.split('-')[1]?.toUpperCase()] || 50] *)
Definition cache_limit (cacheName : string) : nat :=
  let found :=
    match Str.split "-" cacheName !! 1%nat with
    | Some class => CACHE_LIMITS !! Str.toUpperCase class
    | None => None
    end in
  match found with
  | Some (S n) => S n
  | Some O | None => 50%nat
  end.

Section Worker.

Variable E : Env.

(** [await fetch(info)] *)
Definition fetch (info : RequestInfo) : M Response.t :=
  fun st =>
    match net E info with
    | Fulfilled r => (Resolved r, st)
    | Failed e => (Rejected e, st)
    end.

(** [await caches.open(name)]: the cache is created when it does not
    exist; the handle is its name. *)
Definition caches_open (name : string) : M string :=
  fun st =>
    match caches st !! name with
    | Some _ => (Resolved name, st)
    | None => (Resolved name, set_entries name [] st)
    end.

(** [await cache.match(info)]; [None] is [undefined]. *)
Definition cache_match (cache : string) (info : RequestInfo) : M (option Response.t) :=
  fun st => (Resolved (CacheOps.lookup (CacheOps.key info) (entries cache st)), st).

(** [await cache.put(info, response)], for a response that the Cache
    accepts. *)
Definition cache_put (cache : string) (info : RequestInfo) (response : Response.t) : M unit :=
  fun st =>
    (Resolved tt,
     set_entries cache (CacheOps.put (CacheOps.key info) response (entries cache st)) st).

(** [await cache.keys()] *)
Definition cache_keys (cache : string) : M (list string) :=
  fun st => (Resolved (CacheOps.keys (entries cache st)), st).

(** [await cache.delete(key)] *)
Definition cache_delete (cache : string) (k : string) : M unit :=
  fun st => (Resolved tt, set_entries cache (CacheOps.delete k (entries cache st)) st).

Definition broadcastMessage (type msg : string) (url : option string)
    (data : option AuxData) : M unit :=
  fun st =>
    (Resolved tt,
     mkState (caches st) (sent st ++ [mkMessage type msg url data (now E)])%list).

Definition manageCacheSize (cache : string) (cacheName : string) : M unit :=
  let limit := cache_limit cacheName in
  let* keys := cache_keys cache in
  if (limit <? length keys)%nat then
    let deleteCount := (length keys - limit)%nat in
    let keysToDelete := take deleteCount keys in
    for_each keysToDelete (fun key => cache_delete cache key)
  else ret tt.

Definition updateInBackground (request : Request.t) (cache : string) : M unit :=
  try_catch
    (let* networkResponse := fetch (OfRequest request) in
     when (Response.ok networkResponse)
       (cache_put cache (OfRequest request) networkResponse >>
        broadcastMessage "CACHE_UPDATED" "Background update completed"
          (Some (Request.url request)) (Some (mkAux false None))))
    (fun error => ret tt).

Definition cacheFirstStrategy (request : Request.t) (cacheName : string) : M Response.t :=
  try_catch
    (let* cache := caches_open cacheName in
     let* cachedResponse := cache_match cache (OfRequest request) in
     match cachedResponse with
     | Some cached =>
         updateInBackground request cache >>
         ret cached
     | None =>
         let* networkResponse := fetch (OfRequest request) in
         when (Response.ok networkResponse)
           (cache_put cache (OfRequest request) networkResponse >>
            manageCacheSize cache cacheName >>
            broadcastMessage "CACHE_UPDATED" "Resource cached"
              (Some (Request.url request)) None) >>
         ret networkResponse
     end)
    (fun error =>
       broadcastMessage "CACHE_ERROR" (message error) (Some (Request.url request)) None >>
       if some_test IMAGE_CACHE_PATTERNS (Request.url request)
       then ret placeholder_svg
       else throw error).

Definition networkFirstStrategy (request : Request.t) : M Response.t :=
  try_catch
    (let* networkResponse := fetch (OfRequest request) in
     ret networkResponse)
    (fun error =>
       let* cache := caches_open CACHE_NAMES.DYNAMIC in
       let* cachedResponse := cache_match cache (OfRequest request) in
       match cachedResponse with
       | Some cached =>
           broadcastMessage "OFFLINE_FALLBACK" "Serving cached version"
             (Some (Request.url request)) None >>
           ret cached
       | None =>
           match Headers.get "accept" (Request.headers request) with
           | Some accept =>
               if Str.includes "text/html" accept
               then ret offline_page
               else throw error
           | None => throw error
           end
       end).

(** The result is [None] when the promise resolves to [undefined]. *)
Definition staleWhileRevalidateStrategy (request : Request.t) (cacheName : string)
    : M (option Response.t) :=
  let* cache := caches_open cacheName in
  let* cachedResponse := cache_match cache (OfRequest request) in
  let networkPromise : M (option Response.t) :=
    try_catch
      (let* networkResponse := fetch (OfRequest request) in
       when (Response.ok networkResponse)
         (cache_put cache (OfRequest request) networkResponse >>
          manageCacheSize cache cacheName >>
          match cachedResponse with
          | Some cached =>
              let cachedText := Response.text cached in
              let networkText := Response.text networkResponse in
              when (negb (String.eqb cachedText networkText))
                (broadcastMessage "CONTENT_UPDATED" "Content updated"
                   (Some (Request.url request)) None)
          | None =>
              broadcastMessage "CACHE_UPDATED" "New content cached"
                (Some (Request.url request)) None
          end) >>
       ret (Some networkResponse))
      (fun error =>
         broadcastMessage "CACHE_ERROR" (message error) (Some (Request.url request)) None >>
         ret cachedResponse) in
  let* networkResult := networkPromise in
  match cachedResponse with
  | Some cached => ret (Some cached)
  | None => ret networkResult
  end.

Definition handlePrefetchResources (urls : list string) : M unit :=
  try_catch
    (for_each urls (fun url =>
       try_catch
         (let* response := fetch (OfString url) in
          when (Response.ok response)
            (let cacheName :=
               if some_test IMAGE_CACHE_PATTERNS url then CACHE_NAMES.IMAGES
               else if some_test JSON_CACHE_PATTERNS url then CACHE_NAMES.JSON
               else CACHE_NAMES.DYNAMIC in
             let* cache := caches_open cacheName in
             cache_put cache (OfString url) response))
         (fun error => ret tt)) >>
     broadcastMessage "CACHE_UPDATED"
       ("Prefetched " +:+ pretty (length urls) +:+ " resources") None
       (Some (mkAux true
          (Some (pretty (length urls) +:+ " resources cached for offline use")))))
    (fun error => ret tt).

(** [responseDate < sevenDaysAgo] for the date header of a stored
    response: false without the header, with an empty one, and when
    the date does not parse. *)
Definition expired (sevenDaysAgo : Z) (response : Response.t) : bool :=
  match Headers.get "date" (Response.headers response) with
  | Some dateHeader =>
      if String.eqb dateHeader "" then false
      else
        match parseDate E dateHeader with
        | Some responseDate => responseDate <? sevenDaysAgo
        | None => false
        end
  | None => false
  end.

(** The first loop of [performPeriodicCleanup]. *)
Definition cleanup_sizes : M unit :=
  for_each CACHE_NAMES.values (fun cacheName =>
    let* cache := caches_open cacheName in
    manageCacheSize cache cacheName).

(** The second loop of [performPeriodicCleanup]. *)
Definition cleanup_expired : M unit :=
  let sevenDaysAgo := now E - 7 * 24 * 60 * 60 * 1000 in
  for_each CACHE_NAMES.values (fun cacheName =>
    let* cache := caches_open cacheName in
    let* keys := cache_keys cache in
    for_each keys (fun request =>
      let* response := cache_match cache (OfString request) in
      match response with
      | Some r => when (expired sevenDaysAgo r) (cache_delete cache request)
      | None => ret tt
      end)).

Definition performPeriodicCleanup : M unit :=
  try_catch (cleanup_sizes >> cleanup_expired) (fun error => ret tt).

(** [event.respondWith(...)] of the [fetch] listener. *)
Definition respondWith (s : Strategy) (request : Request.t) : M (option Response.t) :=
  match s with
  | NetworkFirst => let* r := networkFirstStrategy request in ret (Some r)
  | CacheFirst cacheName => let* r := cacheFirstStrategy request cacheName in ret (Some r)
  | StaleWhileRevalidate cacheName => staleWhileRevalidateStrategy request cacheName
  end.

End Worker.


(** ** Notions of the specification *)

(** The classes that the classifier of the specification assigns, in
    precedence order, each with the test of its pattern group. *)
Inductive ResourceClass : Type :=
| StreamingMedia
| Image
| StructuredData
| ExternalAsset
| DynamicDocument.

Definition precedence : list ResourceClass :=
  [StreamingMedia; Image; StructuredData; ExternalAsset; DynamicDocument].

Definition group_matches (request : Request.t) (c : ResourceClass) : bool :=
  let url := Request.parsed request in
  match c with
  | StreamingMedia =>
      some_test NETWORK_FIRST_PATTERNS (URL.pathname url +:+ URL.search url)
  | Image =>
      some_test IMAGE_CACHE_PATTERNS (URL.pathname url +:+ URL.search url)
  | StructuredData => some_test JSON_CACHE_PATTERNS (URL.pathname url)
  | ExternalAsset => some_test EXTERNAL_CACHE_PATTERNS (URL.hostname url)
  | DynamicDocument => some_test DYNAMIC_CACHE_PATTERNS (URL.pathname url)
  end.

(** First match in precedence order; [None] when no group matches. *)
Definition classify (request : Request.t) : option ResourceClass :=
  List.find (group_matches request) precedence.

Definition class_strategy (c : option ResourceClass) : Strategy :=
  match c with
  | Some StreamingMedia => NetworkFirst
  | Some Image => CacheFirst CACHE_NAMES.IMAGES
  | Some StructuredData => StaleWhileRevalidate CACHE_NAMES.JSON
  | Some ExternalAsset => CacheFirst CACHE_NAMES.FONTS
  | Some DynamicDocument => StaleWhileRevalidate CACHE_NAMES.DYNAMIC
  | None => NetworkFirst
  end.

(** The requests that the worker intercepts: [GET] over http(s). *)
Definition intercepted (request : Request.t) : Prop :=
  Request.method request = "GET" /\
  Str.startsWith "http" (URL.protocol (Request.parsed request)) = true.

(** The extension pattern of the image group, and its two hints. *)
Definition image_extension : RegExp :=
  mkRegExp
    (Cat (Chr ".")
       (Alts [Lit "jpg"; Lit "jpeg"; Lit "png"; Lit "gif"; Lit "webp";
              Lit "svg"; Lit "ico"]))
    true true.

Definition image_hints : list RegExp :=
  [mkRegExp (Lit "share_image_url") false false;
   mkRegExp (Lit "placeholder") false false].

(** Eviction as the specification words it: drop the oldest entries
    until the count equals the limit. *)
Definition evict_oldest (limit : nat) (c : Cache) : Cache :=
  drop (length c - limit) c.

(** The retention window of the sweep, in milliseconds. *)
Definition retention : Z := 7 * 24 * 60 * 60 * 1000.
Definition day : Z := 24 * 60 * 60 * 1000.

(** The time that the date header of a stored response denotes, when
    it has one that parses. *)
Definition timestamp (E : Env) (response : Response.t) : option Z :=
  match Headers.get "date" (Response.headers response) with
  | Some d => if String.eqb d "" then None else parseDate E d
  | None => None
  end.

(** A cache holds at most one entry per key. *)
Definition cache_wf (c : Cache) : Prop := NoDup (CacheOps.keys c).

Definition wf (st : State) : Prop := forall name, cache_wf (entries name st).

(** [m] resolves, posts nothing and changes at most the cache [name],
    whose entries become [h] of what they were. *)
Definition acts_on (m : M unit) (name : string) (h : Cache -> Cache) (st : State) : Prop :=
  exists st',
    m st = (Resolved tt, st') /\
    sent st' = sent st /\
    entries name st' = h (entries name st) /\
    forall n, n <> name -> entries n st' = entries n st.

(** Two states with the same entries in every cache. *)
Definition same_entries (st st' : State) : Prop :=
  forall n, entries n st' = entries n st.

Definition empty_state : State := mkState ∅ [].

(** ** Sample data *)

Module Sample.

Definition get (host path : string) (q f : option string) (h : Headers.t) : Request.t :=
  Request.mk "GET" (URL.mk "https:" host "" path q f) h.

Definition offline_error : Error := mkError "Failed to fetch".

(** A network that is down. *)
Definition offline : Env :=
  mkEnv (fun _ => Failed offline_error) 1800000000000 (fun _ => None).

(** A network that answers every request with the given response. *)
Definition answering (r : Response.t) (parse : string -> option Z) : Env :=
  mkEnv (fun _ => Fulfilled r) 1800000000000 parse.

(** Dates as the cleanup samples write them: a count of days before
    [now], which [days_ago] turns into the time it denotes. *)
Definition days_ago (s : string) : option Z :=
  if String.eqb s "8 days ago" then Some (1800000000000 - 8 * day)
  else if String.eqb s "6 days ago" then Some (1800000000000 - 6 * day)
  else None.

Definition page (b : string) : Response.t :=
  Response.mk 200 [("content-type", "text/html")] b.

Definition dated (d b : string) : Response.t :=
  Response.mk 200 [("content-type", "text/html"); ("date", d)] b.

(** [n] distinct page URLs, [/p0.html] first. *)
Definition page_url (i : nat) : string :=
  "https://meow.example/p" +:+ pretty i +:+ ".html".

Definition page_urls (n : nat) : list string := page_url <$> seq 0 n.

(** A cache of [n] pages, [/p0.html] the oldest. *)
Definition pages (n : nat) (r : Response.t) : Cache :=
  (fun u => (u, r)) <$> page_urls n.

End Sample.

(** ** HTTP dates

    [Date.parse] on the fixed format of the [Date] header, as in
    [Thu, 07 Jan 2027 08:00:00 GMT]: the milliseconds since the epoch
    that the string denotes.  A string of another shape is not read. *)

Module HttpDate.

Definition digit (c : ascii) : option Z :=
  let n := Z.of_nat (nat_of_ascii c) - 48 in
  if (0 <=? n) && (n <=? 9) then Some n else None.

Fixpoint digits (acc : Z) (s : string) : option Z :=
  match s with
  | EmptyString => Some acc
  | String c s' =>
      match digit c with
      | Some d => digits (10 * acc + d) s'
      | None => None
      end
  end.

Definition number (s : string) : option Z :=
  match s with
  | EmptyString => None
  | _ => digits 0 s
  end.

Fixpoint index_of (s : string) (l : list string) : option Z :=
  match l with
  | [] => None
  | x :: l' => if String.eqb s x then Some 0 else Z.succ <$> index_of s l'
  end.

Definition month (s : string) : option Z :=
  Z.succ <$>
  index_of s ["Jan"; "Feb"; "Mar"; "Apr"; "May"; "Jun";
              "Jul"; "Aug"; "Sep"; "Oct"; "Nov"; "Dec"].

(** The days from 1 January 1970 to a date of the Gregorian calendar. *)
Definition days_from_civil (y m d : Z) : Z :=
  let y' := if m <=? 2 then y - 1 else y in
  let era := y' / 400 in
  let yoe := y' - era * 400 in
  let doy := (153 * ((m + 9) mod 12) + 2) / 5 + d - 1 in
  let doe := yoe * 365 + yoe / 4 - yoe / 100 + doy in
  era * 146097 + doe - 719468.

Definition in_range (lo hi n : Z) : option Z :=
  if (lo <=? n) && (n <=? hi) then Some n else None.

Definition parse (s : string) : option Z :=
  match Str.split " " s with
  | [_; d; mon; y; time; zone] =>
      if String.eqb zone "GMT" then
        match Str.split ":" time with
        | [h; mi; sec] =>
            d ← number d ≫= in_range 1 31;
            m ← month mon;
            y ← number y;
            h ← number h ≫= in_range 0 23;
            mi ← number mi ≫= in_range 0 59;
            sec ← number sec ≫= in_range 0 59;
            Some ((((days_from_civil y m d * 24 + h) * 60 + mi) * 60 + sec) * 1000)
        | _ => None
        end
      else None
  | _ => None
  end.

End HttpDate.

(** The state once [caches.open(name)] has run. *)
Definition opened (name : string) (st : State) : State := snd (caches_open name st).

(** What one step of the sweep does to the entries of its cache. *)
Definition sweep_step (E : Env) (sevenDaysAgo : Z) (k : string) (c : Cache) : Cache :=
  match CacheOps.lookup k c with
  | Some r => if expired E sevenDaysAgo r then CacheOps.delete k c else c
  | None => c
  end.

(** The entries that the sweep keeps. *)
Definition unexpired (E : Env) (c : Cache) : Cache :=
  List.filter (fun e => negb (expired E (now E - retention) (snd e))) c.

(** The position of a class in the precedence order. *)
Definition rank (c : ResourceClass) : nat :=
  match c with
  | StreamingMedia => 0
  | Image => 1
  | StructuredData => 2
  | ExternalAsset => 3
  | DynamicDocument => 4
  end.

(** The [.json] pattern of the structured-data group. *)
Definition json_extension : RegExp := mkRegExp (Lit ".json") true false.

(** [request.headers.get('accept')?.includes('text/html')] is truthy. *)
Definition accepts_html (request : Request.t) : bool :=
  match Headers.get "accept" (Request.headers request) with
  | Some accept => Str.includes "text/html" accept
  | None => false
  end.

(** The state with one more message broadcast. *)
Definition posting (m : Message) (st : State) : State :=
  mkState (caches st) (sent st ++ [m]).

(** The cache once the response to a request has been written. *)
Definition written (request : Request.t) (response : Response.t) (cacheName : string)
    (st : State) : Cache :=
  CacheOps.put (CacheOps.key (OfRequest request)) response (entries cacheName st).

(** Closed decidable goals are settled by evaluation. *)
Ltac decide_by_compute :=
  match goal with
  | |- ?P => apply (@bool_decide_unpack P _); vm_compute; exact I
  end.

(** ** Further notions used by the properties of the worker *)

(** The cache that [handlePrefetchResources] chooses for a URL. *)
Definition prefetch_cache (url : string) : string :=
  if some_test IMAGE_CACHE_PATTERNS url then CACHE_NAMES.IMAGES
  else if some_test JSON_CACHE_PATTERNS url then CACHE_NAMES.JSON
  else CACHE_NAMES.DYNAMIC.

(** What prefetching one URL does to the state. *)
Definition prefetch_step (E : Env) (st : State) (url : string) : State :=
  match net E (OfString url) with
  | Fulfilled response =>
      if Response.ok response
      then set_entries (prefetch_cache url)
             (CacheOps.put url response (entries (prefetch_cache url) st))
             (opened (prefetch_cache url) st)
      else st
  | Failed _ => st
  end.

(** The summary that [handlePrefetchResources] broadcasts. *)
Definition prefetch_summary (E : Env) (urls : list string) : Message :=
  mkMessage "CACHE_UPDATED"
    ("Prefetched " +:+ pretty (length urls) +:+ " resources") None
    (Some (mkAux true
       (Some (pretty (length urls) +:+ " resources cached for offline use"))))
    (now E).

(** The notice of a completed background refresh. *)
Definition background_update (E : Env) (request : Request.t) : Message :=
  mkMessage "CACHE_UPDATED" "Background update completed"
    (Some (Request.url request)) (Some (mkAux false None)) (now E).

Definition cache_error (E : Env) (request : Request.t) (error : Error) : Message :=
  mkMessage "CACHE_ERROR" (message error) (Some (Request.url request)) None (now E).

(** ** What the Cache stores *)

Definition is_blank (c : ascii) : bool := Ascii.eqb c " " || Ascii.eqb c "009".

Fixpoint skip_blanks (cs : list ascii) : list ascii :=
  match cs with
  | [] => []
  | c :: cs' => if is_blank c then skip_blanks cs' else cs
  end.

(** A field value of a header: the text between two commas, without
    the blanks around it. *)
Definition field_value (s : string) : list ascii :=
  rev (skip_blanks (rev (skip_blanks (Str.chars s)))).

(** A [Vary] header one of whose field values is [*]. *)
Definition vary_any (response : Response.t) : bool :=
  match Headers.get "vary" (Response.headers response) with
  | Some v =>
      existsb (fun field => bool_decide (field_value field = ["*"%char])) (Str.split "," v)
  | None => false
  end.

(** The responses that the Cache stores.  [cache.put] and
    [cache.addAll] reject a response of status 206 and one whose [Vary]
    header lists [*]; [cache_put] is the write of a response that is
    stored, under a [GET] request. *)
Definition storable (response : Response.t) : bool :=
  negb (Response.status response =? 206) && negb (vary_any response).

(** ** The lifecycle and the control messages *)

(** [await caches.keys()].  The worker only deletes a subset of the
    names it gets, so the order in which they come is not modelled. *)
Definition caches_keys : M (list string) :=
  fun st => (Resolved (elements (dom (caches st))), st).

(** [await caches.delete(name)]: resolves to whether the cache existed. *)
Definition caches_delete (name : string) : M bool :=
  fun st =>
    (Resolved (bool_decide (is_Some (caches st !! name))),
     mkState (delete name (caches st)) (sent st)).

(** [self.skipWaiting()] and [self.clients.claim()] act on the
    lifecycle of the worker, which is outside the state; they resolve. *)
Definition skipWaiting : M unit := ret tt.
Definition clients_claim : M unit := ret tt.

(** [names.includes(name)] *)
Definition array_includes (name : string) (names : list string) : bool :=
  existsb (String.eqb name) names.

(** The [activate] listener. *)
Definition onactivate (E : Env) : M unit :=
  (let* cacheNames := caches_keys in
   for_each cacheNames (fun cacheName =>
     if Str.startsWith "meow-" cacheName && negb (array_includes cacheName CACHE_NAMES.values)
     then let* deleted := caches_delete cacheName in ret tt
     else ret tt)) >>
  clients_claim >>
  broadcastMessage E "SW_ACTIVATED" "Service Worker is now controlling all pages" None None.

(** The deletion of every cache of the site, shared by
    [handleForceUpdate] and [handleClearCache]. *)
Definition delete_meow_caches : M unit :=
  let* cacheNames := caches_keys in
  for_each (List.filter (fun name => Str.startsWith "meow-" name) cacheNames)
    (fun name => let* deleted := caches_delete name in ret tt).

Definition handleForceUpdate (E : Env) : M unit :=
  try_catch
    (delete_meow_caches >>
     broadcastMessage E "SW_UPDATED" "Service Worker updated, please reload" None None >>
     skipWaiting)
    (fun error => ret tt).

(** [cacheName] is [data?.cacheName]: [None] when it is absent; the
    empty string is falsy. *)
Definition handleClearCache (E : Env) (cacheName : option string) : M unit :=
  try_catch
    (match cacheName with
     | None | Some "" => delete_meow_caches
     | Some name => let* deleted := caches_delete name in ret tt
     end >>
     broadcastMessage E "CACHE_UPDATED" "Cache cleared successfully" None None)
    (fun error => ret tt).

(** [Object.entries(CACHE_NAMES)] *)
Definition CACHE_NAMES_entries : list (string * string) :=
  [("STATIC", CACHE_NAMES.STATIC); ("DYNAMIC", CACHE_NAMES.DYNAMIC);
   ("IMAGES", CACHE_NAMES.IMAGES); ("JSON", CACHE_NAMES.JSON);
   ("FONTS", CACHE_NAMES.FONTS)].

Record CacheInfo : Type := mkInfo {
  info_name : string;
  info_count : nat;
  info_urls : list string
}.

(** What [handleGetCacheInfo] posts on the port of the event. *)
Inductive PortMessage : Type :=
| CACHE_INFO (data : list (string * CacheInfo))
| PORT_CACHE_ERROR (error : string).

(** A loop that collects one result per element. *)
Fixpoint map_M {A B} (f : A -> M B) (l : list A) : M (list B) :=
  match l with
  | [] => ret []
  | x :: l' => let* y := f x in let* ys := map_M f l' in ret (y :: ys)
  end.

(** The result is the message posted on [event.ports[0]].  The sample
    of URLs holds one URL for each of the first five keys; it shows the
    key, which is the URL of the stored request up to the fragment that
    the request may carry. *)
Definition handleGetCacheInfo : M PortMessage :=
  try_catch
    (let* cacheInfo :=
       map_M (fun entry : string * string =>
                let* cache := caches_open (snd entry) in
                let* keys := cache_keys cache in
                ret (fst entry, mkInfo (snd entry) (length keys) (take 5 keys)))
         CACHE_NAMES_entries in
     ret (CACHE_INFO cacheInfo))
    (fun error => ret (PORT_CACHE_ERROR (message error))).

(** The [data] of a control message. *)
Record ControlData : Type := mkControl {
  data_cacheName : option string;
  data_urls : option (list string)
}.

(** The [message] listener, its handlers run to completion; the result
    is what was posted on the port of the event, if anything. *)
Definition onmessage (E : Env) (type : string) (data : option ControlData)
    : M (option PortMessage) :=
  if String.eqb type "FORCE_UPDATE" then
    handleForceUpdate E >> ret None
  else if String.eqb type "CLEAR_CACHE" then
    handleClearCache E (data ≫= data_cacheName) >> ret None
  else if String.eqb type "GET_CACHE_INFO" then
    let* reply := handleGetCacheInfo in ret (Some reply)
  else if String.eqb type "PREFETCH_RESOURCES" then
    handlePrefetchResources E (default [] (data ≫= data_urls)) >> ret None
  else ret None.

(** The caches that activation deletes: those of the site that are not
    of the current version. *)
Definition outdated (name : string) : bool :=
  Str.startsWith "meow-" name && negb (array_includes name CACHE_NAMES.values).

(** ** Installation *)

Definition STATIC_CACHE_URLS : list string := [
  "/";
  "/index.html";
  "/telugu.html";
  "/malayalam.html";
  "/kannada.html";
  "/hindi.html";
  "/bengali.html";
  "/english.html";
  "/tamilaudio.html";
  "/sw-register.js";
  "/manifest.json";
  "/favicon.ico"
].

(** [new Request(url, { cache: 'reload' })] for a path of the worker's
    origin; [origin] gives the protocol, host and port of the worker. *)
Definition static_request (origin : URL.t) (path : string) : Request.t :=
  Request.mk "GET"
    (URL.mk (URL.protocol origin) (URL.hostname origin) (URL.port origin) path None None)
    [].

(** The response that [cache.addAll] accepts for a request: the fetch
    must resolve, to an ok response that the Cache stores. *)
Definition addable (E : Env) (request : Request.t) : option Response.t :=
  match net E (OfRequest request) with
  | Fulfilled response =>
      if Response.ok response && storable response
      then Some response else None
  | Failed _ => None
  end.

(** The fetches of [cache.addAll]: the first request without an
    acceptable response rejects the whole. *)
Fixpoint fetch_all (E : Env) (requests : list Request.t)
    : M (list (Request.t * Response.t)) :=
  match requests with
  | [] => ret []
  | request :: rest =>
      let* response := fetch E (OfRequest request) in
      if Response.ok response && storable response
      then let* fetched := fetch_all E rest in ret ((request, response) :: fetched)
      else throw (mkError "Request failed")
  end.

(** [await cache.addAll(requests)]: nothing is stored unless every
    request was fetched. *)
Definition cache_addAll (E : Env) (cache : string) (requests : list Request.t) : M unit :=
  let* fetched := fetch_all E requests in
  for_each fetched (fun entry => cache_put cache (OfRequest (fst entry)) (snd entry)).

(** The [install] listener, for a worker served from [origin]. *)
Definition oninstall (E : Env) (origin : URL.t) : M unit :=
  try_catch
    ((let* cache := caches_open CACHE_NAMES.STATIC in
      cache_addAll E cache (List.map (static_request origin) STATIC_CACHE_URLS)) >>
     skipWaiting >>
     broadcastMessage E "SW_ACTIVATED" "Service Worker activated" None None)
    (fun error => ret tt).

(** ** The page: [sw-register.js]

    The functions that draw a notification only touch the document; a
    call of one is recorded as a [Notice], in the order of the calls. *)

Inductive Notice : Type :=
| UpdateNotice                           (* [showUpdateNotification()] *)
| CacheUpdateNotice (message : string)   (* [showCacheUpdateNotification(message)] *)
| OfflineNotice.                         (* [showOfflineNotification()] *)

Record Page : Type := mkPage {
  pathname : string;                     (* [window.location.pathname] *)
  localStorage : gmap string string;
  updateAvailable : bool;
  shown : list Notice
}.

Definition show (n : Notice) (p : Page) : Page :=
  mkPage (pathname p) (localStorage p) (updateAvailable p) (shown p ++ [n]).

(** [localStorage.removeItem(key)] *)
Definition removeItem (key : string) (p : Page) : Page :=
  mkPage (pathname p) (delete key (localStorage p)) (updateAvailable p) (shown p).

(** [s.substring(n)] *)
Fixpoint string_drop (n : nat) (s : string) : string :=
  match n, s with
  | O, _ => s
  | S n', String _ s' => string_drop n' s'
  | S _, EmptyString => EmptyString
  end.

(** [s.replace(pattern, replacement)] for a string pattern: the first
    occurrence is replaced. *)
Fixpoint replace_first (pattern replacement s : string) : string :=
  if String.prefix pattern s
  then replacement +:+ string_drop (String.length pattern) s
  else match s with
       | EmptyString => EmptyString
       | String c s' => String c (replace_first pattern replacement s')
       end.

(** [array.pop()] on the result of a split, which is never empty. *)
Definition pop (pieces : list string) : string := List.last pieces "".

Definition getCurrentLanguage (path : string) : string :=
  let filename :=
    match pop (Str.split "/" path) with
    | "" => "index.html"
    | name => name
    end in
  if String.eqb filename "index.html" then "tamil"
  else replace_first ".html" "" filename.

Definition refreshContent (url : string) (p : Page) : Page :=
  let p1 :=
    if Str.includes ".json" url then
      let currentLanguage := getCurrentLanguage (pathname p) in
      let cacheKey := "cached_kukufm_shows_" +:+ currentLanguage in
      let masterCacheKey := "cached_master_" +:+ currentLanguage in
      show (CacheUpdateNotice "New content available! Refresh to see updates.")
        (removeItem masterCacheKey (removeItem cacheKey p))
    else p in
  if Str.includes ".html" url
  then show (CacheUpdateNotice "Page updated! Refresh for latest version.") p1
  else p1.

(** What the page does with a message of the worker; [None] when the
    handler throws ([url.includes] on a message without URL). *)
Definition handleServiceWorkerMessage (m : Message) (p : Page) : option Page :=
  let type := msg_type m in
  if String.eqb type "SW_UPDATED" || String.eqb type "SW_UPDATE_AVAILABLE" then
    Some (show UpdateNotice
            (mkPage (pathname p) (localStorage p) true (shown p)))
  else if String.eqb type "CONTENT_UPDATED" then
    match msg_url m with
    | Some url => Some (refreshContent url p)
    | None => None
    end
  else if String.eqb type "CACHE_UPDATED" then
    match msg_data m with
    | Some data =>
        if showNotification data
        then Some (show (CacheUpdateNotice
                           match aux_message data with
                           | None | Some "" => "Content updated in background"
                           | Some text => text
                           end) p)
        else Some p
    | None => Some p
    end
  else if String.eqb type "OFFLINE_FALLBACK" then
    Some (show OfflineNotice p)
  else Some p.

(** The page handles the messages of the worker in the order in which
    they were posted, each in an event of its own: a handler that
    throws leaves the page as it was and the next message is handled. *)
Fixpoint deliver (messages : list Message) (p : Page) : Page :=
  match messages with
  | [] => p
  | m :: rest =>
      match handleServiceWorkerMessage m p with
      | Some p' => deliver rest p'
      | None => deliver rest p
      end
  end.

(** [clearAllCache()] of the page, on the page and on the Cache Storage
    that it shares with the worker; the deletion of the caches, which
    the function starts without awaiting it, is run to completion. *)
Definition clearAllCache (p : Page) (st : State) : Page * State :=
  let keys := elements (dom (localStorage p)) in
  let cleared :=
    fold_left
      (fun ls key =>
         if Str.startsWith "cached_kukufm_" key || Str.startsWith "cached_master_" key
         then delete key ls else ls)
      keys (localStorage p) in
  let st' :=
    snd ((let* cacheNames := caches_keys in
          for_each cacheNames (fun cacheName =>
            if Str.includes "meow" cacheName
            then let* deleted := caches_delete cacheName in ret tt
            else ret tt)) st) in
  (show (CacheUpdateNotice "Cache cleared successfully!")
     (mkPage (pathname p) cleared (updateAvailable p) (shown p)),
   st').
(** * Properties *)

(** ** The matcher decides the language of a pattern *)

Module ReFacts.

Section WithFlag.

Variable ic : bool.

Lemma Lang_Cat_inv r s w :
  Lang ic (Cat r s) w -> exists u v, w = u ++ v /\ Lang ic r u /\ Lang ic s v.
Proof. inversion 1; subst; eauto. Qed.

Lemma Lang_Alt_inv r s w : Lang ic (Alt r s) w -> Lang ic r w \/ Lang ic s w.
Proof. inversion 1; subst; auto. Qed.

Lemma nullable_Lang r : nullable r = true <-> Lang ic r [].
Proof.
  induction r as [| | c | | | r IHr s IHs | r IHr s IHs | r IHr]; simpl.
  - split; [discriminate | inversion 1].
  - split; [constructor | reflexivity].
  - split; [discriminate | inversion 1].
  - split; [discriminate | inversion 1].
  - split; [discriminate | inversion 1].
  - rewrite orb_true_iff, IHr, IHs. split.
    + intros [H | H]; [apply L_AltL | apply L_AltR]; exact H.
    + inversion 1; subst; [left | right]; assumption.
  - rewrite andb_true_iff, IHr, IHs. split.
    + intros [H1 H2]. apply (L_Cat ic r s [] [] H1 H2).
    + intros H. apply Lang_Cat_inv in H as (u & v & Hw & Hu & Hv).
      symmetry in Hw. apply app_eq_nil in Hw as [-> ->]. split; assumption.
  - split; [constructor | reflexivity].
Qed.

(** A non-empty word of [r*] starts with a non-empty word of [r]. *)
Lemma Lang_Star_cons r w :
  Lang ic (Star r) w ->
  w = [] \/
  exists a u v, w = a :: u ++ v /\ Lang ic r (a :: u) /\ Lang ic (Star r) v.
Proof.
  intros H. remember (Star r) as q eqn:Hq.
  induction H as [| | | | | | | r' | r' u v Hu _ Hv IHv]; try discriminate.
  - left; reflexivity.
  - injection Hq as ->. destruct u as [| a u].
    + apply IHv. reflexivity.
    + right. exists a, u, v. auto.
Qed.

Lemma deriv_Lang a r : forall w, Lang ic (deriv ic a r) w <-> Lang ic r (a :: w).
Proof.
  induction r as [| | c | | | r IHr s IHs | r IHr s IHs | r IHr]; intros w; simpl.
  - split; inversion 1.
  - split; inversion 1.
  - destruct (chr_eq ic c a) eqn:Hc; split; intros H; inversion H; subst.
    + constructor; exact Hc.
    + constructor.
    + congruence.
  - destruct (line_terminator a) eqn:Hc; split; intros H; inversion H; subst.
    + congruence.
    + constructor; exact Hc.
    + constructor.
  - split; intros H; inversion H; subst; constructor.
  - split; intros H; inversion H; subst.
    + apply L_AltL, IHr; assumption.
    + apply L_AltR, IHs; assumption.
    + apply L_AltL, IHr; assumption.
    + apply L_AltR, IHs; assumption.
  - assert (Hcat : forall u v, Lang ic (deriv ic a r) u -> Lang ic s v ->
                               Lang ic (Cat r s) (a :: u ++ v)).
    { intros u v Hu Hv. apply (L_Cat ic r s (a :: u) v); [apply IHr|]; assumption. }
    assert (Hinv : Lang ic (Cat r s) (a :: w) ->
                   (exists u v, w = u ++ v /\ Lang ic (deriv ic a r) u /\ Lang ic s v) \/
                   (Lang ic r [] /\ Lang ic (deriv ic a s) w)).
    { intros H. apply Lang_Cat_inv in H as (u & v & Hw & Hu & Hv).
      destruct u as [| b u]; simpl in Hw.
      - right. split; [assumption|]. apply IHs. subst. assumption.
      - injection Hw as <- ->. left. exists u, v. split; [reflexivity|].
        split; [apply IHr|]; assumption. }
    destruct (nullable r) eqn:Hn.
    + split.
      * intros H. apply Lang_Alt_inv in H as [Hl | Hl].
        -- apply Lang_Cat_inv in Hl as (u & v & -> & Hu & Hv).
           apply Hcat; assumption.
        -- apply (L_Cat ic r s [] (a :: w)).
           ++ apply nullable_Lang; assumption.
           ++ apply IHs; assumption.
      * intros H. destruct (Hinv H) as [(u & v & -> & Hu & Hv) | [_ Hs]].
        -- apply L_AltL. constructor; assumption.
        -- apply L_AltR. assumption.
    + split.
      * intros H. apply Lang_Cat_inv in H as (u & v & -> & Hu & Hv).
        apply Hcat; assumption.
      * intros H. destruct (Hinv H) as [(u & v & -> & Hu & Hv) | [Hr _]].
        -- constructor; assumption.
        -- apply nullable_Lang in Hr. congruence.
  - split.
    + intros H. apply Lang_Cat_inv in H as (u & v & -> & Hu & Hv).
      apply (L_StarS ic r (a :: u) v); [apply IHr|]; assumption.
    + intros H. apply Lang_Star_cons in H as [H | (b & u & v & Heq & Hu & Hv)].
      * discriminate.
      * injection Heq as -> ->. constructor; [apply IHr|]; assumption.
Qed.

Theorem matches_Lang r w : matches ic r w = true <-> Lang ic r w.
Proof.
  revert r. induction w as [| a w IH]; intros r; simpl.
  - apply nullable_Lang.
  - rewrite IH. apply deriv_Lang.
Qed.

Lemma Lang_Star_Any w : Lang ic (Star Any) w.
Proof.
  induction w as [| a w IH]; [constructor|].
  apply (L_StarS ic Any [a] w); [constructor | exact IH].
Qed.

Lemma avoids_Lang x r w :
  avoids ic x r = true -> Lang ic r w -> Forall (fun a => a <> x) w.
Proof.
  intros Hav H.
  induction H as [| c a Hc | a Ha | a | r s w H IH | r s w H IH
                  | r s u v Hu IHu Hv IHv | r | r u v Hu IHu Hv IHv];
    simpl in Hav.
  - constructor.
  - constructor; [|constructor]. intros ->. rewrite Hc in Hav. discriminate.
  - discriminate.
  - discriminate.
  - apply andb_true_iff in Hav as [Hav _]. auto.
  - apply andb_true_iff in Hav as [_ Hav]. auto.
  - apply andb_true_iff in Hav as [Hav1 Hav2]. apply Forall_app; auto.
  - constructor.
  - apply Forall_app; auto.
Qed.

End WithFlag.

(** [test] succeeds exactly when some factor of the input is a word of
    the body, and that factor ends the input when the pattern is
    anchored. *)
Theorem test_iff p s :
  test p s = true <->
  exists pre m post,
    Str.chars s = pre ++ m ++ post /\
    Lang (ignoreCase p) (body p) m /\
    (anchored p = true -> post = []).
Proof.
  unfold test, search. rewrite matches_Lang. split.
  - intros H. apply Lang_Cat_inv in H as (pre & v & Heq & _ & Hv).
    destruct (anchored p) eqn:Ha.
    + exists pre, v, []. rewrite app_nil_r. auto.
    + apply Lang_Cat_inv in Hv as (m & post & -> & Hm & _).
      exists pre, m, post. split; [assumption|]. split; [assumption | discriminate].
  - intros (pre & m & post & -> & Hm & Hpost).
    constructor; [apply Lang_Star_Any|].
    destruct (anchored p).
    + rewrite (Hpost eq_refl), app_nil_r. exact Hm.
    + constructor; [exact Hm | apply Lang_Star_Any].
Qed.

Lemma chars_app s t : Str.chars (s +:+ t) = Str.chars s ++ Str.chars t.
Proof.
  unfold Str.chars. induction s as [| c s IH]; simpl; [reflexivity|].
  f_equal. exact IH.
Qed.

(** An anchored pattern whose words never contain [x] matches [s ++ x t]
    only through a match inside [x t]. *)
Lemma test_anchored_suffix p x s t :
  anchored p = true ->
  avoids (ignoreCase p) x (body p) = true ->
  test p (s +:+ String x t) = true ->
  test p (String x t) = true.
Proof.
  intros Ha Hav. rewrite !test_iff.
  intros (pre & m & post & Heq & Hm & Hpost).
  rewrite (Hpost Ha), app_nil_r in Heq. rewrite chars_app in Heq.
  pose proof (avoids_Lang _ _ _ _ Hav Hm) as Hall.
  apply app_eq_inv in Heq as [(k & _ & Hk) | (k & _ & Hk)].
  - (* the match reaches back over [x] *)
    exfalso. rewrite Hk in Hall. apply Forall_app in Hall as [_ Hall].
    simpl in Hall. inversion Hall; congruence.
  - exists k, m, []. rewrite app_nil_r. split; [exact Hk|]. auto.
Qed.

End ReFacts.

(** ** Caches as lists of entries *)

Module CacheFacts.
Import CacheOps.

Lemma keys_app c d : keys (c ++ d) = keys c ++ keys d.
Proof. unfold keys. apply fmap_app. Qed.

Lemma lookup_None k c : lookup k c = None <-> k ∉ keys c.
Proof.
  unfold lookup, keys. induction c as [| [k' v] c IH]; simpl.
  - split; [intros _; apply not_elem_of_nil | reflexivity].
  - rewrite not_elem_of_cons. destruct (String.eqb_spec k' k) as [-> | Hne]; simpl.
    + split; [discriminate | intros [[] _]; reflexivity].
    + rewrite IH. split; [intros H; split; [congruence | exact H] | intros [_ H]; exact H].
Qed.

Lemma lookup_Some k c r : cache_wf c -> lookup k c = Some r <-> (k, r) ∈ c.
Proof.
  unfold cache_wf, lookup, keys. induction c as [| [k' v] c IH]; simpl; intros Hnd.
  - split; [discriminate | intros H; inversion H].
  - apply NoDup_cons in Hnd as [Hk' Hnd]. rewrite elem_of_cons.
    destruct (String.eqb_spec k' k) as [-> | Hne]; simpl.
    + split.
      * intros [= ->]. left; reflexivity.
      * intros [[= ->] | Hin]; [reflexivity|].
        exfalso. apply Hk'. apply (list_elem_of_fmap_2 fst) in Hin. exact Hin.
    + rewrite (IH Hnd). split; [auto|]. intros [[= -> ->] | H]; [congruence | exact H].
Qed.

Lemma delete_notin k c : k ∉ keys c -> delete k c = c.
Proof.
  unfold delete, keys. induction c as [| [k' v] c IH]; simpl; [reflexivity|].
  rewrite not_elem_of_cons. intros [Hne Hnin].
  destruct (String.eqb_spec k' k) as [-> | _]; simpl; [congruence|].
  f_equal. apply IH. exact Hnin.
Qed.

Lemma delete_app k c d : delete k (c ++ d) = delete k c ++ delete k d.
Proof. unfold delete. apply List.filter_app. Qed.

Lemma delete_head k v c : cache_wf ((k, v) :: c) -> delete k ((k, v) :: c) = c.
Proof.
  unfold cache_wf. simpl. rewrite NoDup_cons. intros [Hnin _].
  unfold delete. simpl. rewrite String.eqb_refl. simpl.
  apply delete_notin. exact Hnin.
Qed.

Lemma elem_of_delete e k c : e ∈ delete k c <-> e ∈ c /\ fst e <> k.
Proof.
  unfold delete. rewrite !list_elem_of_In, List.filter_In, negb_true_iff.
  destruct (String.eqb_spec (fst e) k); split; intros [? ?]; split; congruence.
Qed.

Lemma keys_delete k c : keys (delete k c) = List.filter (fun x => negb (String.eqb x k)) (keys c).
Proof.
  unfold delete, keys. induction c as [| [k' v] c IH]; simpl; [reflexivity|].
  destruct (String.eqb k' k); simpl; [exact IH | f_equal; exact IH].
Qed.

Lemma delete_wf k c : cache_wf c -> cache_wf (delete k c).
Proof.
  unfold cache_wf. rewrite keys_delete. intros H.
  apply NoDup_ListNoDup, List.NoDup_filter, NoDup_ListNoDup, H.
Qed.

Lemma notin_keys_delete k c : k ∉ keys (delete k c).
Proof.
  rewrite keys_delete, list_elem_of_In, List.filter_In, String.eqb_refl.
  intros [_ H]. discriminate.
Qed.

Lemma put_wf k v c : cache_wf c -> cache_wf (put k v c).
Proof.
  intros H. unfold cache_wf, put. rewrite keys_app. apply NoDup_app.
  split; [apply delete_wf, H|]. split.
  - intros x Hx Hin. simpl in Hin. apply list_elem_of_singleton in Hin as ->.
    exact (notin_keys_delete _ _ Hx).
  - simpl. apply NoDup_singleton.
Qed.

(** A write under a new key appends, and makes the cache one longer. *)
Lemma put_fresh k v c : lookup k c = None -> put k v c = c ++ [(k, v)].
Proof. intros H. unfold put. rewrite delete_notin; [reflexivity | apply lookup_None, H]. Qed.

Lemma lookup_put k v c : lookup k (put k v c) = Some v.
Proof.
  unfold put, lookup. pose proof (notin_keys_delete k c) as Hn.
  apply lookup_None in Hn. unfold lookup in Hn.
  induction (delete k c) as [| [k' v'] d IH]; simpl in *.
  - rewrite String.eqb_refl. reflexivity.
  - destruct (String.eqb k' k); [discriminate|]. apply IH, Hn.
Qed.

Lemma evict_oldest_length limit c :
  length (evict_oldest limit c) = Nat.min (length c) limit.
Proof. unfold evict_oldest. rewrite length_drop. lia. Qed.

Lemma evict_oldest_within limit c :
  (length c <= limit)%nat -> evict_oldest limit c = c.
Proof.
  intros H. unfold evict_oldest. replace (length c - limit)%nat with 0%nat by lia.
  reflexivity.
Qed.

Lemma evict_oldest_wf limit c : cache_wf c -> cache_wf (evict_oldest limit c).
Proof.
  unfold cache_wf, evict_oldest, keys. rewrite fmap_drop.
  intros H. eapply sublist_NoDup; [exact H | apply sublist_drop].
Qed.

(** Deleting the first [d] keys of a cache leaves its last entries. *)
Lemma delete_first_keys d : forall c,
  cache_wf c ->
  fold_left (fun c k => delete k c) (take d (keys c)) c = drop d c.
Proof.
  induction d as [| d IH]; intros c Hwf; [reflexivity|].
  destruct c as [| [k v] c]; [reflexivity|].
  change (fold_left (fun c k => delete k c) (take d (keys c)) (delete k ((k, v) :: c))
          = drop d c).
  rewrite (delete_head k v c Hwf). apply IH.
  unfold cache_wf in *. simpl in Hwf. apply NoDup_cons in Hwf as [_ H]. exact H.
Qed.

End CacheFacts.

(** ** Running the store operations *)

Module Run.
Import CacheOps CacheFacts.

Lemma entries_set_eq name c st : entries name (set_entries name c st) = c.
Proof. unfold entries, set_entries. simpl. rewrite lookup_insert_eq. reflexivity. Qed.

Lemma entries_set_ne name n c st :
  n <> name -> entries n (set_entries name c st) = entries n st.
Proof.
  intros H. unfold entries, set_entries. simpl.
  rewrite lookup_insert_ne by congruence. reflexivity.
Qed.

Lemma caches_open_eq name st : caches_open name st = (Resolved name, opened name st).
Proof. unfold opened, caches_open. destruct (caches st !! name); reflexivity. Qed.

Lemma entries_opened n name st : entries n (opened name st) = entries n st.
Proof.
  unfold opened, caches_open. destruct (caches st !! name) eqn:Hc; [reflexivity|].
  change (entries n (set_entries name [] st) = entries n st).
  destruct (decide (n = name)) as [-> | Hne].
  - rewrite entries_set_eq. unfold entries. rewrite Hc. reflexivity.
  - apply entries_set_ne, Hne.
Qed.

Lemma sent_opened name st : sent (opened name st) = sent st.
Proof. unfold opened, caches_open. destruct (caches st !! name); reflexivity. Qed.

Lemma wf_opened name st : wf st -> wf (opened name st).
Proof. intros H n. rewrite entries_opened. apply H. Qed.

Lemma acts_on_ret name st : acts_on (ret tt) name (fun c => c) st.
Proof. exists st. auto. Qed.

Lemma acts_on_ext m name h h' st :
  h (entries name st) = h' (entries name st) -> acts_on m name h st -> acts_on m name h' st.
Proof. intros Heq (st' & ? & ? & ? & ?). exists st'. rewrite <- Heq. auto. Qed.

Lemma acts_on_run m m' name h st :
  m st = m' st -> acts_on m' name h st -> acts_on m name h st.
Proof. intros Heq (st' & ? & ?). exists st'. rewrite Heq. auto. Qed.

Lemma acts_on_seq m1 m2 name h1 h2 st :
  acts_on m1 name h1 st ->
  (forall st1, entries name st1 = h1 (entries name st) -> acts_on m2 name h2 st1) ->
  acts_on (m1 >> m2) name (fun c => h2 (h1 c)) st.
Proof.
  intros (st1 & Hrun1 & Hs1 & He1 & Ho1) H2.
  destruct (H2 st1 He1) as (st2 & Hrun2 & Hs2 & He2 & Ho2).
  exists st2. unfold bind. rewrite Hrun1, Hrun2.
  split; [reflexivity|]. split; [congruence|]. split; [congruence|].
  intros n Hn. rewrite Ho2, Ho1; auto.
Qed.

Lemma acts_on_open name (k : string -> M unit) h st :
  acts_on (k name) name h (opened name st) ->
  acts_on (let* cache := caches_open name in k cache) name h st.
Proof.
  intros (st' & Hrun & Hs & He & Ho). exists st'.
  unfold bind. rewrite caches_open_eq, Hrun.
  rewrite Hs, He, sent_opened, entries_opened.
  split; [reflexivity|]. split; [reflexivity|]. split; [reflexivity|].
  intros n Hn. rewrite Ho, entries_opened; auto.
Qed.

Lemma cache_delete_acts cache k st : acts_on (cache_delete cache k) cache (delete k) st.
Proof.
  exists (set_entries cache (delete k (entries cache st)) st). unfold cache_delete.
  split; [reflexivity|]. split; [reflexivity|]. split; [apply entries_set_eq|].
  intros n Hn. apply entries_set_ne, Hn.
Qed.

(** A loop whose every step acts on one cache acts on it by the fold
    of the steps. *)
Lemma for_each_acts {A} (f : A -> M unit) name (h : A -> Cache -> Cache) (l : list A) :
  (forall x st, acts_on (f x) name (h x) st) ->
  forall st, acts_on (for_each l f) name (fun c => fold_left (fun a x => h x a) l c) st.
Proof.
  intros Hf. induction l as [| x l IH]; intros st; simpl.
  - apply acts_on_ret.
  - apply (acts_on_seq (f x) (for_each l f) name (h x)
             (fun c => fold_left (fun a x => h x a) l c)).
    + apply Hf.
    + intros st1 _. apply IH.
Qed.

Theorem manageCacheSize_acts cache cacheName st :
  cache_wf (entries cache st) ->
  acts_on (manageCacheSize cache cacheName) cache (evict_oldest (cache_limit cacheName)) st.
Proof.
  intros Hwf.
  apply (acts_on_run _
           (if (cache_limit cacheName <? length (keys (entries cache st)))%nat
            then for_each
                   (take (length (keys (entries cache st)) - cache_limit cacheName)
                      (keys (entries cache st)))
                   (cache_delete cache)
            else ret tt)); [reflexivity|].
  destruct (cache_limit cacheName <? length (keys (entries cache st)))%nat eqn:Hlt.
  - eapply acts_on_ext; [| apply for_each_acts; intros; apply cache_delete_acts].
    simpl. rewrite delete_first_keys by exact Hwf.
    unfold evict_oldest, keys. rewrite length_fmap. reflexivity.
  - eapply acts_on_ext; [| apply acts_on_ret]. simpl.
    apply Nat.ltb_ge in Hlt. unfold keys in Hlt. rewrite length_fmap in Hlt.
    symmetry. apply evict_oldest_within, Hlt.
Qed.

(** The sweep of one cache keeps the entries that have not expired. *)
Lemma sweep_fold E t : forall c pre,
  cache_wf (pre ++ c) ->
  Forall (fun e => expired E t (snd e) = false) pre ->
  fold_left (fun a k => sweep_step E t k a) (keys c) (pre ++ c) =
  pre ++ List.filter (fun e => negb (expired E t (snd e))) c.
Proof.
  induction c as [| [k r] c IH]; intros pre Hwf Hpre; [reflexivity|].
  assert (Hk_pre : k ∉ keys pre).
  { unfold cache_wf in Hwf. rewrite keys_app in Hwf.
    apply NoDup_app in Hwf as (_ & Hdis & _). intros Hin.
    apply (Hdis k Hin). simpl. left. }
  assert (Hk_c : k ∉ keys c).
  { unfold cache_wf in Hwf. rewrite keys_app in Hwf.
    apply NoDup_app in Hwf as (_ & _ & Hc). simpl in Hc.
    apply NoDup_cons in Hc as [Hc _]. exact Hc. }
  assert (Hlook : lookup k (pre ++ (k, r) :: c) = Some r).
  { apply lookup_Some; [exact Hwf|]. apply elem_of_app. right. left. }
  change (fold_left (fun a k0 => sweep_step E t k0 a) (keys c)
            (sweep_step E t k (pre ++ (k, r) :: c)) =
          pre ++ List.filter (fun e => negb (expired E t (snd e))) ((k, r) :: c)).
  unfold sweep_step at 2. rewrite Hlook. simpl.
  destruct (expired E t r) eqn:Hexp; simpl.
  - rewrite delete_app, (delete_notin k pre Hk_pre).
    rewrite (delete_head k r c).
    + apply IH; [|exact Hpre].
      unfold cache_wf in *. rewrite keys_app in *.
      apply NoDup_app in Hwf as (H1 & H2 & H3). apply NoDup_app.
      split; [exact H1|]. split.
      * intros x Hx Hin. apply (H2 x Hx). simpl. right. exact Hin.
      * simpl in H3. apply NoDup_cons in H3 as [_ H3]. exact H3.
    + unfold cache_wf in *. rewrite keys_app in Hwf.
      apply NoDup_app in Hwf as (_ & _ & H3). exact H3.
  - specialize (IH (pre ++ [(k, r)])). rewrite <- !app_assoc in IH. simpl in IH.
    apply IH; [exact Hwf|]. apply Forall_app. split; [exact Hpre|].
    constructor; [exact Hexp | constructor].
Qed.

Lemma sweep_cache_acts E cache st :
  cache_wf (entries cache st) ->
  acts_on
    (let* keys := cache_keys cache in
     for_each keys (fun request =>
       let* response := cache_match cache (OfString request) in
       match response with
       | Some r => when (expired E (now E - 7 * 24 * 60 * 60 * 1000) r)
                     (cache_delete cache request)
       | None => ret tt
       end))
    cache (unexpired E) st.
Proof.
  intros Hwf.
  eapply acts_on_run; [reflexivity|].
  eapply acts_on_ext;
    [| apply (for_each_acts _ cache (sweep_step E (now E - retention)))].
  - simpl. rewrite (sweep_fold E _ (entries cache st) []); [reflexivity | exact Hwf | constructor].
  - intros k st1.
    apply (acts_on_run _
             (match lookup k (entries cache st1) with
              | Some r => when (expired E (now E - retention) r) (cache_delete cache k)
              | None => ret tt
              end)); [reflexivity|].
    destruct (lookup k (entries cache st1)) as [r |] eqn:Hl.
    + destruct (expired E (now E - retention) r) eqn:Hexp; simpl.
      * apply (acts_on_ext _ _ (delete k)); [|apply cache_delete_acts].
        unfold sweep_step. rewrite Hl, Hexp. reflexivity.
      * apply (acts_on_ext _ _ (fun c => c)); [|apply acts_on_ret].
        unfold sweep_step. rewrite Hl, Hexp. reflexivity.
    + apply (acts_on_ext _ _ (fun c => c)); [|apply acts_on_ret].
      unfold sweep_step. rewrite Hl. reflexivity.
Qed.

End Run.

(** ** Routing *)

Lemma image_patterns_split : IMAGE_CACHE_PATTERNS = image_extension :: image_hints.
Proof. reflexivity. Qed.

Lemma json_patterns_head :
  JSON_CACHE_PATTERNS = json_extension :: [mkRegExp (Lit "master_") false false].
Proof. reflexivity. Qed.

Lemma listener_intercepted request :
  intercepted request ->
  fetch_listener request =
  Some (if group_matches request StreamingMedia then NetworkFirst
        else if group_matches request Image then CacheFirst CACHE_NAMES.IMAGES
        else if group_matches request StructuredData
             then StaleWhileRevalidate CACHE_NAMES.JSON
        else if group_matches request ExternalAsset then CacheFirst CACHE_NAMES.FONTS
        else if group_matches request DynamicDocument
             then StaleWhileRevalidate CACHE_NAMES.DYNAMIC
        else NetworkFirst).
Proof.
  intros [Hm Hp]. unfold fetch_listener, group_matches. rewrite Hm, Hp.
  change (negb ("GET" =? "GET")%string) with false. cbv iota. cbn [negb].
  repeat match goal with
         | |- context [if ?b then _ else _] => destruct b
         end; reflexivity.
Qed.

Lemma classify_spec request :
  match classify request with
  | Some c =>
      group_matches request c = true /\
      forall c', (rank c' < rank c)%nat -> group_matches request c' = false
  | None => forall c, group_matches request c = false
  end.
Proof.
  unfold classify, precedence. cbn [List.find].
  destruct (group_matches request StreamingMedia) eqn:H0;
    [| destruct (group_matches request Image) eqn:H1;
       [| destruct (group_matches request StructuredData) eqn:H2;
          [| destruct (group_matches request ExternalAsset) eqn:H3;
             [| destruct (group_matches request DynamicDocument) eqn:H4]]]].
  1-5: split; [assumption|]; intros c'; destruct c'; simpl; intros;
       solve [assumption | lia].
  intros c; destruct c; assumption.
Qed.

Lemma rank_inj c c' : rank c = rank c' -> c = c'.
Proof. destruct c, c'; simpl; intros; solve [reflexivity | lia]. Qed.

(** C4. For every intercepted GET request the listener's choice is the
    strategy of the first pattern group that matches, the groups being
    tried in the order streaming media, image, structured data,
    external host, dynamic document; a request that no group matches is
    answered network-first.  The class assigned is the one class whose
    group matches while no group before it does. *)
Theorem C4_first_match_wins (request : Request.t) :
  intercepted request ->
  fetch_listener request = Some (class_strategy (classify request)) /\
  (forall c, classify request = Some c <->
             group_matches request c = true /\
             forall c', (rank c' < rank c)%nat -> group_matches request c' = false) /\
  (classify request = None <-> forall c, group_matches request c = false) /\
  (classify request = None -> fetch_listener request = Some NetworkFirst).
Proof.
  intros Hi. pose proof (classify_spec request) as Hspec.
  assert (Hlisten : fetch_listener request = Some (class_strategy (classify request))).
  { rewrite (listener_intercepted request Hi).
    unfold classify, precedence. cbn [List.find].
    repeat match goal with
           | |- context [if ?b then _ else _] => destruct b
           end; reflexivity. }
  split; [exact Hlisten|]. split; [| split].
  - intros c. split.
    + intros Hc. rewrite Hc in Hspec. exact Hspec.
    + intros [Hm Hearlier]. destruct (classify request) as [c0 |].
      * destruct Hspec as [Hm0 Hearlier0]. f_equal. apply rank_inj.
        destruct (lt_eq_lt_dec (rank c0) (rank c)) as [[Hlt | Heq] | Hgt].
        -- rewrite (Hearlier c0 Hlt) in Hm0. discriminate.
        -- exact Heq.
        -- rewrite (Hearlier0 c Hgt) in Hm. discriminate.
      * rewrite (Hspec c) in Hm. discriminate.
  - split.
    + intros Hc. rewrite Hc in Hspec. exact Hspec.
    + intros Hnone. destruct (classify request) as [c0 |]; [|reflexivity].
      destruct Hspec as [Hm0 _]. rewrite (Hnone c0) in Hm0. discriminate.
  - intros Hc. rewrite Hlisten, Hc. reflexivity.
Qed.

Lemma C4_first_match_wins_witness :
  let request := Sample.get "meow.example" "/video/poster.png" None None [] in
  fetch_listener request = Some NetworkFirst /\
  classify request = Some StreamingMedia /\
  group_matches request Image = true.
Proof.
  intros request.
  assert (Hi : intercepted request) by (split; reflexivity).
  destruct (C4_first_match_wins request Hi) as (Hl & Hc & _).
  assert (Hs : classify request = Some StreamingMedia).
  { apply Hc. split; [vm_compute; reflexivity|]. intros c'. destruct c'; simpl; lia. }
  split; [rewrite Hl, Hs; reflexivity|]. split; [exact Hs | vm_compute; reflexivity].
Defined.

(** C6. An intercepted request that a streaming-media pattern matches is
    answered network-first, and when the network answers, the strategy
    returns that response and leaves the state as it was: no entry is
    written into any cache and nothing is broadcast. *)
Theorem C6_streaming_is_network_first_and_write_free
    (E : Env) (request : Request.t) (response : Response.t) (st : State) :
  intercepted request ->
  group_matches request StreamingMedia = true ->
  net E (OfRequest request) = Fulfilled response ->
  fetch_listener request = Some NetworkFirst /\
  networkFirstStrategy E request st = (Resolved response, st) /\
  respondWith E NetworkFirst request st = (Resolved (Some response), st).
Proof.
  intros Hi Hs Hnet. split.
  - rewrite (listener_intercepted request Hi), Hs. reflexivity.
  - assert (H : networkFirstStrategy E request st = (Resolved response, st)).
    { unfold networkFirstStrategy, try_catch, bind, fetch, ret. rewrite Hnet. reflexivity. }
    split; [exact H|]. unfold respondWith, bind. rewrite H. reflexivity.
Qed.

Lemma C6_streaming_is_network_first_and_write_free_witness :
  let request := Sample.get "meow.example" "/hls/episode1/seg42.ts" None None [] in
  let response := Response.mk 206 [("content-type", "video/mp2t")] "..." in
  let st := mkState {[ CACHE_NAMES.DYNAMIC := Sample.pages 2 (Sample.page "x") ]} [] in
  fetch_listener request = Some NetworkFirst /\
  networkFirstStrategy (Sample.answering response (fun _ => None)) request st
  = (Resolved response, st).
Proof.
  intros request response st.
  destruct (C6_streaming_is_network_first_and_write_free
              (Sample.answering response (fun _ => None)) request response st)
    as (H1 & H2 & _).
  - split; reflexivity.
  - vm_compute; reflexivity.
  - reflexivity.
  - split; [exact H1 | exact H2].
Defined.

(** The image group on a URL with a query: the extension pattern can
    only match inside the query. *)
Lemma image_extension_query pathname q :
  test image_extension (pathname +:+ "?" +:+ q) = true ->
  test image_extension ("?" +:+ q) = true.
Proof.
  apply ReFacts.test_anchored_suffix; vm_compute; reflexivity.
Qed.

Lemma search_nonempty u q :
  URL.query u = Some q -> q <> "" -> URL.search u = "?" +:+ q.
Proof.
  intros Hq Hne. unfold URL.search. rewrite Hq.
  destruct q; [congruence | reflexivity].
Qed.

Lemma names_distinct : NoDup CACHE_NAMES.values.
Proof.
  unfold CACHE_NAMES.values.
  repeat (apply NoDup_cons_2;
          [rewrite ?elem_of_cons, elem_of_nil; vm_compute; intuition discriminate |]).
  apply NoDup_nil_2.
Qed.

(** C9, as amended.  A request whose pathname ends in an image extension
    and which carries a non-empty query string is not given the Image
    class, provided the query string does not itself end in an image
    extension and neither image hint occurs in pathname plus query: the
    image group does not match it and the listener does not answer
    cache-first from the image cache.  A pathname that ends in [.json]
    matches the structured-data group whatever the query string, so the
    request is answered stale-while-revalidate from the JSON cache
    unless the streaming-media or the image group matches first. *)
Theorem C9_extension_patterns_and_query (request : Request.t) (q : string) :
  let url := Request.parsed request in
  URL.query url = Some q ->
  q <> "" ->
  (test image_extension (URL.pathname url) = true ->
   test image_extension (URL.search url) = false ->
   some_test image_hints (URL.pathname url +:+ URL.search url) = false ->
   group_matches request Image = false /\
   fetch_listener request <> Some (CacheFirst CACHE_NAMES.IMAGES)) /\
  (test json_extension (URL.pathname url) = true ->
   group_matches request StructuredData = true /\
   (intercepted request ->
    group_matches request StreamingMedia = false ->
    group_matches request Image = false ->
    fetch_listener request = Some (StaleWhileRevalidate CACHE_NAMES.JSON))).
Proof.
  intros url Hq Hne. split.
  - intros _ Hsearch Hhints.
    assert (Himg : group_matches request Image = false).
    { unfold group_matches. fold url. rewrite image_patterns_split.
      unfold some_test in *. cbn [existsb]. rewrite Hhints, orb_false_r.
      destruct (test image_extension (URL.pathname url +:+ URL.search url)) eqn:Ht;
        [|reflexivity].
      rewrite (search_nonempty url q Hq Hne) in Ht, Hsearch.
      apply image_extension_query in Ht. congruence. }
    split; [exact Himg|].
    unfold fetch_listener. fold url.
    change (some_test IMAGE_CACHE_PATTERNS (URL.pathname url +:+ URL.search url))
      with (group_matches request Image).
    rewrite Himg.
    repeat match goal with
           | |- context [if ?b then _ else _] => destruct b
           end; discriminate.
  - intros Hjson.
    assert (Hsd : group_matches request StructuredData = true).
    { unfold group_matches. fold url. rewrite json_patterns_head.
      unfold some_test. cbn [existsb]. rewrite Hjson. reflexivity. }
    split; [exact Hsd|]. intros Hi Hs Him.
    rewrite (listener_intercepted request Hi), Hs, Him, Hsd. reflexivity.
Qed.

Lemma C9_extension_patterns_and_query_witness :
  let image := Sample.get "meow.example" "/posters/show.png" (Some "v=2") None [] in
  let data := Sample.get "meow.example" "/shows.json" (Some "v=2") None [] in
  fetch_listener image <> Some (CacheFirst CACHE_NAMES.IMAGES) /\
  fetch_listener data = Some (StaleWhileRevalidate CACHE_NAMES.JSON).
Proof.
  intros image data. split.
  - destruct (C9_extension_patterns_and_query image "v=2") as [H _];
      [reflexivity | discriminate |].
    apply H; vm_compute; reflexivity.
  - destruct (C9_extension_patterns_and_query data "v=2") as [_ H];
      [reflexivity | discriminate |].
    apply H; [vm_compute; reflexivity | split; reflexivity | vm_compute; reflexivity ..].
Defined.

(** C9 as stated fails twice.  [/thumb.png?src=cat.jpg] has a pathname
    that ends in an image extension, a non-empty query string and
    neither hint, yet it is given the Image class, because the query
    string ends in an image extension.  [/shows.json?type=video] has a
    [.json] pathname and is answered network-first, because the
    streaming-media group is tried first and sees the query. *)
Lemma C9_counterexample :
  let image := Sample.get "meow.example" "/thumb.png" (Some "src=cat.jpg") None [] in
  let data := Sample.get "meow.example" "/shows.json" (Some "type=video") None [] in
  (test image_extension (URL.pathname (Request.parsed image)) = true /\
   URL.search (Request.parsed image) = "?src=cat.jpg" /\
   some_test image_hints
     (URL.pathname (Request.parsed image) +:+ URL.search (Request.parsed image)) = false /\
   fetch_listener image = Some (CacheFirst CACHE_NAMES.IMAGES)) /\
  (test json_extension (URL.pathname (Request.parsed data)) = true /\
   fetch_listener data = Some NetworkFirst).
Proof. vm_compute. repeat split; reflexivity. Qed.

(** ** Eviction *)

(** Entries written under distinct keys lie in the cache in the order
    in which they were written: the head of a cache is its first
    inserted entry. *)
Lemma insertion_order (kvs : Cache) :
  cache_wf kvs ->
  fold_left (fun c kv => CacheOps.put (fst kv) (snd kv) c) kvs [] = kvs.
Proof.
  intros Hwf.
  enough (H : forall pre, cache_wf (pre ++ kvs) ->
              fold_left (fun c kv => CacheOps.put (fst kv) (snd kv) c) kvs pre = pre ++ kvs)
    by (apply (H []); exact Hwf).
  clear Hwf. induction kvs as [| [k v] kvs IH]; intros pre Hwf; simpl.
  - rewrite app_nil_r. reflexivity.
  - rewrite CacheFacts.put_fresh.
    + rewrite IH; rewrite <- app_assoc; [reflexivity | exact Hwf].
    + apply CacheFacts.lookup_None. unfold cache_wf in Hwf.
      rewrite CacheFacts.keys_app in Hwf. apply NoDup_app in Hwf as (_ & Hdis & _).
      intros Hin. apply (Hdis k Hin). simpl. left.
Qed.

(** C5. An eviction pass on a cache that holds one entry more than its
    limit removes exactly the entry at the head of the cache, which is
    the first inserted, and leaves as many entries as the limit; no
    other cache changes and nothing is broadcast. *)
Theorem C5_eviction_removes_first_inserted
    (cache cacheName : string) (st : State) (oldest : string * Response.t) (rest : Cache) :
  cache_wf (entries cache st) ->
  entries cache st = oldest :: rest ->
  length rest = cache_limit cacheName ->
  exists st',
    manageCacheSize cache cacheName st = (Resolved tt, st') /\
    entries cache st' = rest /\
    length (entries cache st') = cache_limit cacheName /\
    (oldest ∉ entries cache st') /\
    (forall n, n <> cache -> entries n st' = entries n st) /\
    sent st' = sent st.
Proof.
  intros Hwf Hentries Hlen.
  destruct (Run.manageCacheSize_acts cache cacheName st Hwf) as (st' & Hrun & Hs & He & Ho).
  exists st'. split; [exact Hrun|].
  assert (Hrest : entries cache st' = rest).
  { rewrite He, Hentries. unfold evict_oldest. simpl length. rewrite Hlen.
    replace (S (cache_limit cacheName) - cache_limit cacheName)%nat with 1%nat by lia.
    reflexivity. }
  split; [exact Hrest|]. split; [rewrite Hrest; exact Hlen|].
  split; [| split; [exact Ho | exact Hs]].
  rewrite Hrest. intros Hin. unfold cache_wf in Hwf. rewrite Hentries in Hwf.
  simpl in Hwf. apply NoDup_cons in Hwf as [Hnin _]. apply Hnin.
  apply (list_elem_of_fmap_2 fst) in Hin. exact Hin.
Qed.

Lemma C5_eviction_removes_first_inserted_witness :
  let st := mkState {[ CACHE_NAMES.DYNAMIC := Sample.pages 51 (Sample.page "x") ]} [] in
  exists st',
    manageCacheSize CACHE_NAMES.DYNAMIC CACHE_NAMES.DYNAMIC st = (Resolved tt, st') /\
    entries CACHE_NAMES.DYNAMIC st' = tail (Sample.pages 51 (Sample.page "x")) /\
    length (entries CACHE_NAMES.DYNAMIC st') = 50%nat.
Proof.
  intros st.
  destruct (C5_eviction_removes_first_inserted
              CACHE_NAMES.DYNAMIC CACHE_NAMES.DYNAMIC st
              (Sample.page_url 0, Sample.page "x")
              (tail (Sample.pages 51 (Sample.page "x"))))
    as (st' & Hrun & He & Hl & _).
  - unfold cache_wf. decide_by_compute.
  - vm_compute; reflexivity.
  - vm_compute; reflexivity.
  - exists st'. split; [exact Hrun|]. split; [exact He|]. rewrite Hl. vm_compute; reflexivity.
Defined.

(** *** The two writing paths that evict *)

Section StrategyWrites.
Import CacheOps.

Variable E : Env.
Variables (request : Request.t) (cacheName : string) (response : Response.t).
Variable st : State.

Hypothesis Hwf : cache_wf (entries cacheName st).
Hypothesis Hnet : net E (OfRequest request) = Fulfilled response.
Hypothesis Hok : Response.ok response = true.

Local Abbreviation k := (key (OfRequest request)).
Local Abbreviation written := (written request response cacheName st).

(** The write and the eviction pass that follows it. *)
Lemma put_then_manage :
  exists st2,
    manageCacheSize cacheName cacheName
      (set_entries cacheName (put k response (entries cacheName (opened cacheName st)))
         (opened cacheName st)) = (Resolved tt, st2) /\
    sent st2 = sent st /\
    entries cacheName st2 = evict_oldest (cache_limit cacheName) written /\
    forall n, n <> cacheName -> entries n st2 = entries n st.
Proof.
  rewrite Run.entries_opened. fold written.
  destruct (Run.manageCacheSize_acts cacheName cacheName
              (set_entries cacheName written (opened cacheName st)))
    as (st2 & Hrun & Hs & He & Ho).
  { rewrite Run.entries_set_eq. apply CacheFacts.put_wf, Hwf. }
  exists st2. split; [exact Hrun|].
  split; [rewrite Hs; apply Run.sent_opened|].
  split; [rewrite He, Run.entries_set_eq; reflexivity|].
  intros n Hn. rewrite (Ho n Hn), Run.entries_set_ne by exact Hn.
  apply Run.entries_opened.
Qed.

(** Cache-first with no cached entry, the network answering [ok]. *)
Lemma cacheFirst_miss_ok :
  lookup k (entries cacheName st) = None ->
  exists st',
    cacheFirstStrategy E request cacheName st = (Resolved response, st') /\
    entries cacheName st' = evict_oldest (cache_limit cacheName) written /\
    (forall n, n <> cacheName -> entries n st' = entries n st) /\
    sent st' = sent st ++
      [mkMessage "CACHE_UPDATED" "Resource cached" (Some (Request.url request)) None
         (now E)].
Proof.
  intros Hmiss. destruct put_then_manage as (st2 & Hrun & Hs & He & Ho).
  cbv [cacheFirstStrategy try_catch bind cache_match fetch when ret cache_put].
  rewrite Run.caches_open_eq, Run.entries_opened. fold k.
  rewrite Hmiss, Hnet, Hok, Hrun.
  cbv [broadcastMessage]. eexists. split; [reflexivity|].
  split; [exact He|]. split; [exact Ho|]. simpl. rewrite Hs. reflexivity.
Qed.

(** Stale-while-revalidate, the network answering [ok]. *)
Lemma staleWhileRevalidate_ok :
  exists st',
    staleWhileRevalidateStrategy E request cacheName st =
      (Resolved (Some (default response (lookup k (entries cacheName st)))), st') /\
    entries cacheName st' = evict_oldest (cache_limit cacheName) written /\
    (forall n, n <> cacheName -> entries n st' = entries n st) /\
    sent st' = sent st ++
      match lookup k (entries cacheName st) with
      | Some cached =>
          if String.eqb (Response.text cached) (Response.text response) then []
          else [mkMessage "CONTENT_UPDATED" "Content updated"
                  (Some (Request.url request)) None (now E)]
      | None =>
          [mkMessage "CACHE_UPDATED" "New content cached"
             (Some (Request.url request)) None (now E)]
      end.
Proof.
  destruct put_then_manage as (st2 & Hrun & Hs & He & Ho).
  cbv [staleWhileRevalidateStrategy try_catch bind cache_match fetch when ret cache_put].
  rewrite Run.caches_open_eq, Run.entries_opened. fold k.
  rewrite Hnet, Hok, Hrun.
  destruct (lookup k (entries cacheName st)) as [cached |]; simpl.
  - destruct (String.eqb (Response.text cached) (Response.text response)); simpl.
    + exists st2. rewrite app_nil_r. auto.
    + cbv [broadcastMessage]. eexists. split; [reflexivity|].
      split; [exact He|]. split; [exact Ho|]. simpl. rewrite Hs. reflexivity.
  - cbv [broadcastMessage]. eexists. split; [reflexivity|].
    split; [exact He|]. split; [exact Ho|]. simpl. rewrite Hs. reflexivity.
Qed.

End StrategyWrites.

(** C2, as amended.  After the write of the cache-first primary path (no
    cached entry, the network answering with an ok response) and after
    the write of the stale-while-revalidate refresh, the cache holds the
    written entries without their oldest ones: if the count exceeded the
    limit it now equals the limit, and what was deleted is a prefix of
    the cache, oldest first. *)
Theorem C2_strategy_writes_evict
    (E : Env) (request : Request.t) (cacheName : string) (response : Response.t)
    (st : State) :
  let k := CacheOps.key (OfRequest request) in
  let written := CacheOps.put k response (entries cacheName st) in
  let limit := cache_limit cacheName in
  cache_wf (entries cacheName st) ->
  net E (OfRequest request) = Fulfilled response ->
  Response.ok response = true ->
  (CacheOps.lookup k (entries cacheName st) = None ->
   let after := entries cacheName (snd (cacheFirstStrategy E request cacheName st)) in
   after = drop (length written - limit) written /\
   ((limit < length written)%nat -> length after = limit)) /\
  (let after := entries cacheName (snd (staleWhileRevalidateStrategy E request cacheName st)) in
   after = drop (length written - limit) written /\
   ((limit < length written)%nat -> length after = limit)).
Proof.
  intros k written limit Hwf Hnet Hok.
  assert (Hlen : (limit < length written)%nat ->
                 length (drop (length written - limit) written) = limit).
  { intros Hlt. rewrite length_drop. lia. }
  split.
  - intros Hmiss.
    destruct (cacheFirst_miss_ok E request cacheName response st Hwf Hnet Hok Hmiss)
      as (st' & Hrun & He & _).
    rewrite Hrun. simpl. rewrite He. split; [reflexivity | exact Hlen].
  - destruct (staleWhileRevalidate_ok E request cacheName response st Hwf Hnet Hok)
      as (st' & Hrun & He & _).
    rewrite Hrun. simpl. rewrite He. split; [reflexivity | exact Hlen].
Qed.

Lemma C2_strategy_writes_evict_witness :
  let E := Sample.answering (Sample.page "new") (fun _ => None) in
  let font := Sample.get "fonts.gstatic.com" "/s/meow.woff2" None None [] in
  let doc := Sample.get "meow.example" "/new.html" None None [] in
  let full := fun name => mkState {[ name := Sample.pages 50 (Sample.page "x") ]} [] in
  length (entries CACHE_NAMES.FONTS
            (snd (cacheFirstStrategy E font CACHE_NAMES.FONTS (full CACHE_NAMES.FONTS))))
  = cache_limit CACHE_NAMES.FONTS /\
  length (entries CACHE_NAMES.DYNAMIC
            (snd (staleWhileRevalidateStrategy E doc CACHE_NAMES.DYNAMIC
                    (full CACHE_NAMES.DYNAMIC))))
  = cache_limit CACHE_NAMES.DYNAMIC.
Proof.
  intros E font doc full. split.
  - destruct (C2_strategy_writes_evict E font CACHE_NAMES.FONTS (Sample.page "new")
                (full CACHE_NAMES.FONTS)) as [H _].
    + unfold cache_wf. decide_by_compute.
    + reflexivity.
    + reflexivity.
    + apply H; vm_compute; [reflexivity | lia].
  - destruct (C2_strategy_writes_evict E doc CACHE_NAMES.DYNAMIC (Sample.page "new")
                (full CACHE_NAMES.DYNAMIC)) as [_ H].
    + unfold cache_wf. decide_by_compute.
    + reflexivity.
    + reflexivity.
    + apply H; vm_compute; lia.
Defined.

(** C2 as stated fails on the two other writing paths.  Prefetching 51
    pages into an empty storage leaves 51 entries in the dynamic cache,
    whose limit is 50.  A cache-first hit in a cache of 51 entries and
    limit 50 refreshes the entry in the background (the update is
    broadcast) and leaves 51 entries. *)
Lemma C2_counterexample :
  let E := Sample.answering (Sample.page "x") (fun _ => None) in
  let prefetched := snd (handlePrefetchResources E (Sample.page_urls 51) empty_state) in
  let font := Sample.get "meow.example" "/p0.html" None None [] in
  let over := mkState {[ CACHE_NAMES.FONTS := Sample.pages 51 (Sample.page "old") ]} [] in
  let refreshed := snd (cacheFirstStrategy E font CACHE_NAMES.FONTS over) in
  (length (entries CACHE_NAMES.DYNAMIC prefetched) = 51%nat /\
   cache_limit CACHE_NAMES.DYNAMIC = 50%nat) /\
  (CacheOps.lookup (CacheOps.key (OfRequest font)) (entries CACHE_NAMES.FONTS refreshed)
   = Some (Sample.page "x") /\
   msg_message <$> sent refreshed = ["Background update completed"] /\
   length (entries CACHE_NAMES.FONTS refreshed) = 51%nat /\
   cache_limit CACHE_NAMES.FONTS = 50%nat).
Proof. vm_compute. repeat split; reflexivity. Qed.

(** ** Network failures *)

(** C1.  What [staleWhileRevalidateStrategy] does when no entry is
    cached and the fetch rejects: the cache-error event is broadcast,
    and the promise then resolves, to [undefined]; the rejection does
    not reach the caller. *)
Theorem C1_revalidate_miss_offline_resolves_undefined
    (E : Env) (request : Request.t) (cacheName : string) (st : State) (error : Error) :
  net E (OfRequest request) = Failed error ->
  CacheOps.lookup (CacheOps.key (OfRequest request)) (entries cacheName st) = None ->
  staleWhileRevalidateStrategy E request cacheName st =
  (Resolved None,
   posting (mkMessage "CACHE_ERROR" (message error) (Some (Request.url request)) None (now E))
     (opened cacheName st)).
Proof.
  intros Hnet Hmiss.
  cbv [staleWhileRevalidateStrategy try_catch bind cache_match fetch when ret].
  rewrite Run.caches_open_eq, Run.entries_opened, Hmiss, Hnet. reflexivity.
Qed.

Lemma C1_revalidate_miss_offline_resolves_undefined_witness :
  let request := Sample.get "meow.example" "/master_shows.json" None None [] in
  fetch_listener request = Some (StaleWhileRevalidate CACHE_NAMES.JSON) /\
  fst (respondWith Sample.offline (StaleWhileRevalidate CACHE_NAMES.JSON) request empty_state)
  = Resolved None.
Proof.
  intros request. split; [vm_compute; reflexivity|].
  unfold respondWith.
  rewrite (C1_revalidate_miss_offline_resolves_undefined Sample.offline request
             CACHE_NAMES.JSON empty_state Sample.offline_error);
    reflexivity.
Defined.

(** C3, as amended.  Network-first returns whatever response the fetch
    resolves to, ok or not, and leaves the state as it was.  When the
    fetch rejects it falls back to the dynamic cache: an entry there is
    returned and an offline-fallback event is broadcast; without one, a
    request that accepts HTML gets the offline document; otherwise the
    rejection reaches the caller. *)
Theorem C3_network_first_fallback (E : Env) (request : Request.t) (st : State) :
  (forall response,
     net E (OfRequest request) = Fulfilled response ->
     networkFirstStrategy E request st = (Resolved response, st)) /\
  (forall error,
     net E (OfRequest request) = Failed error ->
     networkFirstStrategy E request st =
     match CacheOps.lookup (CacheOps.key (OfRequest request))
             (entries CACHE_NAMES.DYNAMIC st) with
     | Some cached =>
         (Resolved cached,
          posting (mkMessage "OFFLINE_FALLBACK" "Serving cached version"
                     (Some (Request.url request)) None (now E))
            (opened CACHE_NAMES.DYNAMIC st))
     | None =>
         if accepts_html request
         then (Resolved offline_page, opened CACHE_NAMES.DYNAMIC st)
         else (Rejected error, opened CACHE_NAMES.DYNAMIC st)
     end).
Proof.
  split.
  - intros response Hnet.
    cbv [networkFirstStrategy try_catch bind fetch ret]. rewrite Hnet. reflexivity.
  - intros error Hnet.
    cbv [networkFirstStrategy try_catch bind fetch ret cache_match]. rewrite Hnet.
    rewrite Run.caches_open_eq, Run.entries_opened.
    destruct (CacheOps.lookup _ _) as [cached |]; [reflexivity|].
    unfold accepts_html.
    destruct (Headers.get "accept" (Request.headers request)) as [accept |];
      [|reflexivity].
    destruct (Str.includes "text/html" accept); reflexivity.
Qed.

Lemma C3_network_first_fallback_witness :
  let request :=
    Sample.get "meow.example" "/live/status" None None [("accept", "text/html,*/*")] in
  let cached := Sample.page "cached" in
  let st := mkState {[ CACHE_NAMES.DYNAMIC :=
                         [("https://meow.example/live/status", cached)] ]} [] in
  fst (networkFirstStrategy Sample.offline request st) = Resolved cached /\
  sent (snd (networkFirstStrategy Sample.offline request st)) =
    [mkMessage "OFFLINE_FALLBACK" "Serving cached version"
       (Some "https://meow.example/live/status") None (now Sample.offline)] /\
  fst (networkFirstStrategy Sample.offline request empty_state) = Resolved offline_page.
Proof.
  intros request cached st.
  destruct (C3_network_first_fallback Sample.offline request st) as [_ H1].
  destruct (C3_network_first_fallback Sample.offline request empty_state) as [_ H2].
  rewrite (H1 Sample.offline_error eq_refl), (H2 Sample.offline_error eq_refl).
  repeat split; reflexivity.
Defined.

(** C3 as stated fails for a response that is not ok: the request is
    routed network-first, the network answers 503, the dynamic cache
    holds an entry for the request, and the strategy returns the 503
    response without broadcasting anything. *)
Lemma C3_counterexample :
  let unavailable := Response.mk 503 [] "Service Unavailable" in
  let E := Sample.answering unavailable (fun _ => None) in
  let request := Sample.get "meow.example" "/live/status" None None [("accept", "text/html")] in
  let st := mkState {[ CACHE_NAMES.DYNAMIC :=
                         [("https://meow.example/live/status", Sample.page "cached")] ]} [] in
  fetch_listener request = Some NetworkFirst /\
  Response.ok unavailable = false /\
  CacheOps.lookup (CacheOps.key (OfRequest request)) (entries CACHE_NAMES.DYNAMIC st)
  = Some (Sample.page "cached") /\
  networkFirstStrategy E request st = (Resolved unavailable, st).
Proof. vm_compute. repeat split; reflexivity. Qed.

(** C8, as amended.  With the network down and no entry cached,
    cache-first broadcasts a cache-error event and then decides on the
    full request URL: when an image pattern matches [request.url] it
    returns the placeholder, whose content type is [image/svg+xml];
    otherwise the rejection reaches the caller.  No entry is written. *)
Theorem C8_cache_first_offline
    (E : Env) (request : Request.t) (cacheName : string) (st : State) (error : Error) :
  net E (OfRequest request) = Failed error ->
  CacheOps.lookup (CacheOps.key (OfRequest request)) (entries cacheName st) = None ->
  let st' :=
    posting (mkMessage "CACHE_ERROR" (message error) (Some (Request.url request)) None (now E))
      (opened cacheName st) in
  (some_test IMAGE_CACHE_PATTERNS (Request.url request) = true ->
   cacheFirstStrategy E request cacheName st = (Resolved placeholder_svg, st')) /\
  (some_test IMAGE_CACHE_PATTERNS (Request.url request) = false ->
   cacheFirstStrategy E request cacheName st = (Rejected error, st')) /\
  Headers.get "content-type" (Response.headers placeholder_svg) = Some "image/svg+xml" /\
  same_entries st st'.
Proof.
  intros Hnet Hmiss st'.
  assert (Hrun : cacheFirstStrategy E request cacheName st =
                 (if some_test IMAGE_CACHE_PATTERNS (Request.url request)
                  then ret placeholder_svg else throw error) st').
  { cbv [cacheFirstStrategy try_catch bind cache_match fetch when ret].
    rewrite Run.caches_open_eq, Run.entries_opened, Hmiss, Hnet. reflexivity. }
  split; [| split; [| split]].
  - intros H. rewrite Hrun, H. reflexivity.
  - intros H. rewrite Hrun, H. reflexivity.
  - reflexivity.
  - intros n. unfold st'. apply Run.entries_opened.
Qed.

Lemma C8_cache_first_offline_witness :
  let poster := Sample.get "meow.example" "/posters/show.png" None None [] in
  let font := Sample.get "fonts.gstatic.com" "/s/meow.woff2" None None [] in
  fst (cacheFirstStrategy Sample.offline poster CACHE_NAMES.IMAGES empty_state)
  = Resolved placeholder_svg /\
  fst (cacheFirstStrategy Sample.offline font CACHE_NAMES.FONTS empty_state)
  = Rejected Sample.offline_error.
Proof.
  intros poster font. split.
  - destruct (C8_cache_first_offline Sample.offline poster CACHE_NAMES.IMAGES empty_state
                Sample.offline_error) as (H & _); [reflexivity | reflexivity |].
    rewrite H; [reflexivity | vm_compute; reflexivity].
  - destruct (C8_cache_first_offline Sample.offline font CACHE_NAMES.FONTS empty_state
                Sample.offline_error) as (_ & H & _); [reflexivity | reflexivity |].
    rewrite H; [reflexivity | vm_compute; reflexivity].
Defined.

(** C8 as stated fails in both directions, because the listener
    classifies on pathname plus [url.search] and the strategy tests the
    whole [request.url].  [https://meow.example/posters/show.png?] (an
    empty query) is given the Image class, and with the network down
    and nothing cached its failure reaches the caller.
    [https://placeholder.cdn.jsdelivr.net/meow.css] is given the
    external-asset class, and in the same situation it gets the
    placeholder image. *)
Lemma C8_counterexample :
  let poster := Sample.get "meow.example" "/posters/show.png" (Some "") None [] in
  let style := Sample.get "placeholder.cdn.jsdelivr.net" "/meow.css" None None [] in
  (classify poster = Some Image /\
   fetch_listener poster = Some (CacheFirst CACHE_NAMES.IMAGES) /\
   fst (cacheFirstStrategy Sample.offline poster CACHE_NAMES.IMAGES empty_state)
   = Rejected Sample.offline_error) /\
  (classify style = Some ExternalAsset /\
   fetch_listener style = Some (CacheFirst CACHE_NAMES.FONTS) /\
   fst (cacheFirstStrategy Sample.offline style CACHE_NAMES.FONTS empty_state)
   = Resolved placeholder_svg).
Proof. vm_compute. repeat split; reflexivity. Qed.

(** ** The periodic cleanup *)

Module Cleanup.
Import CacheOps.

(** A loop over distinct cache names whose step acts on the cache it
    is given. *)
Lemma for_each_names (f : string -> M unit) (g : string -> Cache -> Cache) names :
  NoDup names ->
  (forall n st, cache_wf (entries n st) -> acts_on (f n) n (g n) st) ->
  forall st,
    (forall n, n ∈ names -> cache_wf (entries n st)) ->
    exists st',
      for_each names f st = (Resolved tt, st') /\
      sent st' = sent st /\
      forall n, entries n st' =
                if bool_decide (n ∈ names) then g n (entries n st) else entries n st.
Proof.
  intros Hnd Hf. induction names as [| x l IH]; intros st Hwf.
  - exists st. split; [reflexivity|]. split; [reflexivity|]. intros n.
    rewrite bool_decide_eq_false_2 by apply not_elem_of_nil. reflexivity.
  - apply NoDup_cons in Hnd as [Hx Hnd].
    destruct (Hf x st (Hwf x ltac:(left))) as (st1 & Hrun1 & Hs1 & He1 & Ho1).
    destruct (IH Hnd st1) as (st' & Hrun & Hs & He).
    { intros n Hn. rewrite Ho1; [apply Hwf; right; exact Hn|].
      intros ->. exact (Hx Hn). }
    exists st'. simpl. unfold bind. rewrite Hrun1, Hrun.
    split; [reflexivity|]. split; [congruence|]. intros n. rewrite He.
    destruct (decide (n = x)) as [-> | Hne].
    + rewrite (bool_decide_eq_false_2 _ Hx), (bool_decide_eq_true_2 (x ∈ x :: l)) by left.
      exact He1.
    + rewrite (Ho1 n Hne). destruct (decide (n ∈ l)) as [Hin | Hnin].
      * rewrite (bool_decide_eq_true_2 _ Hin), (bool_decide_eq_true_2 (n ∈ x :: l));
          [reflexivity | right; exact Hin].
      * rewrite (bool_decide_eq_false_2 _ Hnin), (bool_decide_eq_false_2 (n ∈ x :: l));
          [reflexivity|].
        rewrite not_elem_of_cons. split; assumption.
Qed.

Section WithEnv.

Variable E : Env.

Lemma expired_timestamp t0 r :
  expired E t0 r = true <-> exists t, timestamp E r = Some t /\ t < t0.
Proof.
  unfold expired, timestamp.
  destruct (Headers.get "date" (Response.headers r)) as [d |].
  - destruct (String.eqb d "").
    + split; [discriminate | intros (t & H & _); discriminate].
    + destruct (parseDate E d) as [t |].
      * rewrite Z.ltb_lt. split.
        -- intros H. exists t. auto.
        -- intros (t' & [= <-] & H). exact H.
      * split; [discriminate | intros (t & H & _); discriminate].
  - split; [discriminate | intros (t & H & _); discriminate].
Qed.

Lemma elem_of_unexpired e c :
  e ∈ unexpired E c <-> e ∈ c /\ expired E (now E - retention) (snd e) = false.
Proof.
  unfold unexpired. rewrite !list_elem_of_In, List.filter_In, negb_true_iff.
  reflexivity.
Qed.

(** The first loop trims every cache of the worker to its limit. *)
Lemma cleanup_sizes_run st :
  (forall n, n ∈ CACHE_NAMES.values -> cache_wf (entries n st)) ->
  exists st',
    cleanup_sizes st = (Resolved tt, st') /\
    sent st' = sent st /\
    forall n, entries n st' =
              if bool_decide (n ∈ CACHE_NAMES.values)
              then evict_oldest (cache_limit n) (entries n st)
              else entries n st.
Proof.
  apply (for_each_names _ (fun n => evict_oldest (cache_limit n)));
    [apply names_distinct|].
  intros n st0 Hwf. apply (Run.acts_on_open n (fun cache => manageCacheSize cache n)).
  apply Run.manageCacheSize_acts. rewrite Run.entries_opened. exact Hwf.
Qed.

(** The second loop keeps, in every cache of the worker, the entries
    that have not expired. *)
Lemma cleanup_expired_run st :
  (forall n, n ∈ CACHE_NAMES.values -> cache_wf (entries n st)) ->
  exists st',
    cleanup_expired E st = (Resolved tt, st') /\
    sent st' = sent st /\
    forall n, entries n st' =
              if bool_decide (n ∈ CACHE_NAMES.values)
              then unexpired E (entries n st)
              else entries n st.
Proof.
  apply (for_each_names _ (fun _ => unexpired E)); [apply names_distinct|].
  intros n st0 Hwf.
  apply (Run.acts_on_open n
           (fun cache =>
              let* keys := cache_keys cache in
              for_each keys (fun request =>
                let* response := cache_match cache (OfString request) in
                match response with
                | Some r => when (expired E (now E - 7 * 24 * 60 * 60 * 1000) r)
                              (cache_delete cache request)
                | None => ret tt
                end))).
  apply Run.sweep_cache_acts. rewrite Run.entries_opened. exact Hwf.
Qed.

Lemma performPeriodicCleanup_run st :
  (forall n, n ∈ CACHE_NAMES.values -> cache_wf (entries n st)) ->
  exists st',
    performPeriodicCleanup E st = (Resolved tt, st') /\
    sent st' = sent st /\
    forall n, entries n st' =
              if bool_decide (n ∈ CACHE_NAMES.values)
              then unexpired E (evict_oldest (cache_limit n) (entries n st))
              else entries n st.
Proof.
  intros Hwf.
  destruct (cleanup_sizes_run st Hwf) as (st1 & Hrun1 & Hs1 & He1).
  destruct (cleanup_expired_run st1) as (st2 & Hrun2 & Hs2 & He2).
  { intros n Hn. rewrite He1, (bool_decide_eq_true_2 _ Hn).
    apply CacheFacts.evict_oldest_wf, Hwf, Hn. }
  exists st2. unfold performPeriodicCleanup, try_catch, bind.
  rewrite Hrun1, Hrun2. split; [reflexivity|]. split; [congruence|].
  intros n. rewrite He2, He1. destruct (bool_decide (n ∈ CACHE_NAMES.values)); reflexivity.
Qed.

End WithEnv.

End Cleanup.

(** An entry whose date is within the window has not expired, and one
    without a date that parses has not either. *)
Lemma fresh_unexpired (E : Env) (r : Response.t) (t : Z) :
  timestamp E r = Some t -> now E - retention <= t ->
  expired E (now E - retention) r = false.
Proof.
  intros Ht Hle. destruct (expired E (now E - retention) r) eqn:Hexp; [|reflexivity].
  apply Cleanup.expired_timestamp in Hexp as (t' & Ht' & Hlt).
  rewrite Ht in Ht'. injection Ht' as <-. lia.
Qed.

Lemma undated_unexpired (E : Env) (r : Response.t) :
  timestamp E r = None -> expired E (now E - retention) r = false.
Proof.
  intros Hnone. destruct (expired E (now E - retention) r) eqn:Hexp; [|reflexivity].
  apply Cleanup.expired_timestamp in Hexp as (t & Ht & _). congruence.
Qed.

(** C7, as amended.  The periodic cleanup first trims every cache of
    the worker to its limit, oldest first, and then sweeps what the trim
    left: each cache ends as its newest [limit] entries without those
    whose date is older than the 7-day window.  So an entry whose date
    header denotes a time older than the window ([now] minus 8 days,
    say) is in no cache of the worker afterwards; an entry whose date is
    within the window ([now] minus 6 days, say) is retained exactly when
    the trim left it, and so always when its cache was within its
    limit. *)
Theorem C7_periodic_cleanup (E : Env) (st : State) :
  (forall n, n ∈ CACHE_NAMES.values -> cache_wf (entries n st)) ->
  exists st',
    performPeriodicCleanup E st = (Resolved tt, st') /\
    forall n, n ∈ CACHE_NAMES.values ->
      let trimmed := drop (length (entries n st) - cache_limit n) (entries n st) in
      entries n st' =
        List.filter (fun e => negb (expired E (now E - retention) (snd e))) trimmed /\
      forall k r t,
        timestamp E r = Some t ->
        (t < now E - retention -> (k, r) ∉ entries n st') /\
        (now E - retention <= t -> ((k, r) ∈ entries n st' <-> (k, r) ∈ trimmed)) /\
        (now E - retention <= t ->
         (k, r) ∈ entries n st ->
         (length (entries n st) <= cache_limit n)%nat ->
         (k, r) ∈ entries n st').
Proof.
  intros Hwf.
  destruct (Cleanup.performPeriodicCleanup_run E st Hwf) as (st' & Hrun & _ & He).
  exists st'. split; [exact Hrun|].
  intros n Hn trimmed.
  assert (Hst' : entries n st' = unexpired E trimmed).
  { rewrite He, (bool_decide_eq_true_2 _ Hn). reflexivity. }
  split; [exact Hst'|].
  intros k r t Ht. rewrite Hst'. split; [| split].
  - intros Hlt Hin. apply Cleanup.elem_of_unexpired in Hin as [_ Hexp]. simpl in Hexp.
    assert (Htrue : expired E (now E - retention) r = true)
      by (apply Cleanup.expired_timestamp; exists t; auto).
    congruence.
  - intros Hle. rewrite Cleanup.elem_of_unexpired. simpl.
    rewrite (fresh_unexpired E r t Ht Hle). tauto.
  - intros Hle Hin Hlen. apply Cleanup.elem_of_unexpired.
    split; [| exact (fresh_unexpired E r t Ht Hle)].
    unfold trimmed. replace (length (entries n st) - cache_limit n)%nat with 0%nat by lia.
    exact Hin.
Qed.

Lemma C7_periodic_cleanup_witness :
  let E := Sample.answering (Sample.page "x") HttpDate.parse in
  let old := (Sample.page_url 0, Sample.dated "Thu, 07 Jan 2027 08:00:00 GMT" "old") in
  let recent := (Sample.page_url 1, Sample.dated "Sat, 09 Jan 2027 08:00:00 GMT" "recent") in
  let st := mkState {[ CACHE_NAMES.DYNAMIC := [old; recent] ]} [] in
  exists st',
    performPeriodicCleanup E st = (Resolved tt, st') /\
    entries CACHE_NAMES.DYNAMIC st' = [recent] /\
    timestamp E (snd old) = Some (now E - 8 * day) /\
    timestamp E (snd recent) = Some (now E - 6 * day).
Proof.
  intros E old recent st.
  destruct (C7_periodic_cleanup E st) as (st' & Hrun & H).
  - intros n Hn. unfold cache_wf.
    assert (Hcases : entries n st = [old; recent] \/ entries n st = []).
    { unfold entries, st. simpl.
      destruct (decide (n = CACHE_NAMES.DYNAMIC)) as [-> | Hne].
      - left. rewrite lookup_singleton_eq. reflexivity.
      - right. rewrite lookup_singleton_ne by congruence. reflexivity. }
    destruct Hcases as [-> | ->]; [decide_by_compute | apply NoDup_nil_2].
  - exists st'. split; [exact Hrun|].
    assert (Hdyn : CACHE_NAMES.DYNAMIC ∈ CACHE_NAMES.values) by (right; left).
    destruct (H CACHE_NAMES.DYNAMIC Hdyn) as [-> _].
    split; [| split]; vm_compute; reflexivity.
Defined.

(** C7 as stated fails when a cache is over its limit at the time of
    the cleanup.  Prefetching 51 pages, each dated 6 days before [now],
    fills the dynamic cache beyond its limit of 50; the cleanup then
    removes the first of them, although it is within the window. *)
Lemma C7_counterexample :
  let recent := Sample.dated "Sat, 09 Jan 2027 08:00:00 GMT" "x" in
  let E := Sample.answering recent HttpDate.parse in
  let st := snd (handlePrefetchResources E (Sample.page_urls 51) empty_state) in
  let st' := snd (performPeriodicCleanup E st) in
  timestamp E recent = Some (now E - 6 * day) /\
  CacheOps.lookup (Sample.page_url 0) (entries CACHE_NAMES.DYNAMIC st) = Some recent /\
  CacheOps.lookup (Sample.page_url 0) (entries CACHE_NAMES.DYNAMIC st') = None /\
  length (entries CACHE_NAMES.DYNAMIC st') = 50%nat.
Proof. vm_compute. repeat split; reflexivity. Qed.

(** C10, as amended.  The cleanup deletes on account of age only
    entries whose date header parses to a time older than the window.
    An entry whose response has no date header, or an empty one, or one
    that does not parse, is therefore retained whatever its age, exactly
    when the trim by count, which the cleanup runs first, left it: so
    always when its cache was within its limit, and never when it was
    among the oldest entries beyond the limit.  Every entry that the
    trim left and the cleanup deleted has a date that parses to a time
    older than the window. *)
Theorem C10_cleanup_keeps_undated (E : Env) (st : State) :
  (forall n, n ∈ CACHE_NAMES.values -> cache_wf (entries n st)) ->
  exists st',
    performPeriodicCleanup E st = (Resolved tt, st') /\
    forall n, n ∈ CACHE_NAMES.values ->
      let trimmed := drop (length (entries n st) - cache_limit n) (entries n st) in
      forall k r,
        (Headers.get "date" (Response.headers r) = None ->
         ((k, r) ∈ entries n st' <-> (k, r) ∈ trimmed)) /\
        (timestamp E r = None ->
         ((k, r) ∈ entries n st' <-> (k, r) ∈ trimmed)) /\
        (timestamp E r = None ->
         (k, r) ∈ entries n st ->
         (length (entries n st) <= cache_limit n)%nat ->
         (k, r) ∈ entries n st') /\
        ((k, r) ∈ trimmed ->
         (k, r) ∉ entries n st' ->
         exists t, timestamp E r = Some t /\ t < now E - retention).
Proof.
  intros Hwf.
  destruct (Cleanup.performPeriodicCleanup_run E st Hwf) as (st' & Hrun & _ & He).
  exists st'. split; [exact Hrun|].
  intros n Hn trimmed k r.
  assert (Hst' : entries n st' = unexpired E trimmed).
  { rewrite He, (bool_decide_eq_true_2 _ Hn). reflexivity. }
  rewrite Hst'.
  assert (Hundated : timestamp E r = None ->
                     ((k, r) ∈ unexpired E trimmed <-> (k, r) ∈ trimmed)).
  { intros Hnone. rewrite Cleanup.elem_of_unexpired. simpl.
    rewrite (undated_unexpired E r Hnone). tauto. }
  split; [| split; [exact Hundated | split]].
  - intros Hnone. apply Hundated. unfold timestamp. rewrite Hnone. reflexivity.
  - intros Hnone Hin Hlen. apply Hundated; [exact Hnone|].
    unfold trimmed. replace (length (entries n st) - cache_limit n)%nat with 0%nat by lia.
    exact Hin.
  - intros Hin Hout. apply Cleanup.expired_timestamp.
    destruct (expired E (now E - retention) r) eqn:Hexp; [reflexivity|].
    exfalso. apply Hout, Cleanup.elem_of_unexpired. auto.
Qed.

Lemma C10_cleanup_keeps_undated_witness :
  let E := Sample.answering (Sample.page "x") HttpDate.parse in
  let old := (Sample.page_url 0, Sample.dated "Thu, 07 Jan 2027 08:00:00 GMT" "old") in
  let undated := (Sample.page_url 1, Sample.page "undated") in
  let st := mkState {[ CACHE_NAMES.DYNAMIC := [old; undated] ]} [] in
  exists st',
    performPeriodicCleanup E st = (Resolved tt, st') /\
    undated ∈ entries CACHE_NAMES.DYNAMIC st' /\
    Headers.get "date" (Response.headers (snd undated)) = None.
Proof.
  intros E old undated st.
  destruct (C10_cleanup_keeps_undated E st) as (st' & Hrun & H).
  - intros n Hn. unfold cache_wf.
    assert (Hcases : entries n st = [old; undated] \/ entries n st = []).
    { unfold entries, st. simpl.
      destruct (decide (n = CACHE_NAMES.DYNAMIC)) as [-> | Hne].
      - left. rewrite lookup_singleton_eq. reflexivity.
      - right. rewrite lookup_singleton_ne by congruence. reflexivity. }
    destruct Hcases as [-> | ->]; [decide_by_compute | apply NoDup_nil_2].
  - exists st'. split; [exact Hrun|]. split; [|reflexivity].
    assert (Hdyn : CACHE_NAMES.DYNAMIC ∈ CACHE_NAMES.values) by (right; left).
    destruct (H CACHE_NAMES.DYNAMIC Hdyn (fst undated) (snd undated)) as (_ & _ & Hkeep & _).
    apply Hkeep; [reflexivity | right; left | vm_compute; lia].
Defined.

(** C10 as stated fails when a cache is over its limit at the time of
    the cleanup.  Prefetching 51 pages whose responses carry no date
    header fills the dynamic cache beyond its limit of 50; the cleanup
    then deletes the first of them. *)
Lemma C10_counterexample :
  let undated := Sample.page "x" in
  let E := Sample.answering undated HttpDate.parse in
  let st := snd (handlePrefetchResources E (Sample.page_urls 51) empty_state) in
  let st' := snd (performPeriodicCleanup E st) in
  Headers.get "date" (Response.headers undated) = None /\
  CacheOps.lookup (Sample.page_url 0) (entries CACHE_NAMES.DYNAMIC st) = Some undated /\
  CacheOps.lookup (Sample.page_url 0) (entries CACHE_NAMES.DYNAMIC st') = None /\
  length (entries CACHE_NAMES.DYNAMIC st') = 50%nat.
Proof. vm_compute. repeat split; reflexivity. Qed.

(** * Further properties of the worker *)

(** ** The listener and the size limit *)

(** X1. The listener answers a request exactly when it is a [GET] over
    a protocol that starts with [http]; every other request is left to
    the browser. *)
Theorem listener_answers_iff_intercepted (request : Request.t) :
  (fetch_listener request = None <-> ~ intercepted request) /\
  (is_Some (fetch_listener request) <-> intercepted request).
Proof.
  assert (Hdec : intercepted request \/ ~ intercepted request).
  { unfold intercepted.
    destruct (String.eqb_spec (Request.method request) "GET") as [Hm | Hm];
      [| right; intros [H _]; contradiction].
    destruct (Str.startsWith "http" (URL.protocol (Request.parsed request)));
      [left; auto | right; intros [_ H]; discriminate]. }
  assert (Hnone : ~ intercepted request -> fetch_listener request = None).
  { unfold intercepted, fetch_listener. intros Hn.
    destruct (String.eqb_spec (Request.method request) "GET") as [Hm | Hm];
      [| reflexivity].
    destruct (Str.startsWith "http" (URL.protocol (Request.parsed request)));
      [exfalso; apply Hn; auto | reflexivity]. }
  split; split.
  - intros Hl Hi. rewrite (listener_intercepted request Hi) in Hl. discriminate.
  - exact Hnone.
  - intros [s Hs]. destruct Hdec as [Hi | Hn]; [exact Hi|].
    rewrite (Hnone Hn) in Hs. discriminate.
  - intros Hi. rewrite (listener_intercepted request Hi). eexists. reflexivity.
Qed.

Lemma cache_limit_cases (cacheName : string) :
  cache_limit cacheName = 50%nat \/ cache_limit cacheName = 5000%nat.
Proof.
  unfold cache_limit.
  destruct (Str.split "-" cacheName !! 1%nat) as [class |]; [| left; reflexivity].
  destruct (CACHE_LIMITS !! Str.toUpperCase class) as [n |] eqn:Hl; [| left; reflexivity].
  unfold CACHE_LIMITS in Hl.
  rewrite lookup_insert in Hl. case_decide.
  { injection Hl as <-. right; reflexivity. }
  rewrite lookup_insert in Hl. case_decide.
  { injection Hl as <-. right; reflexivity. }
  rewrite lookup_singleton in Hl. case_decide; [|discriminate].
  injection Hl as <-. left; reflexivity.
Qed.

Lemma cache_limit_positive cacheName : (1 <= cache_limit cacheName)%nat.
Proof. destruct (cache_limit_cases cacheName) as [-> | ->]; lia. Qed.

(** X2. Whatever the cache is called, its limit is 50 or 5000, and it
    is 5000 only for a name whose second dash-separated part reads
    [images] or [json] in any letter case: no name gives a limit of
    zero, and a name of another shape silently gets 50. *)
Theorem cache_limit_values (cacheName : string) :
  (cache_limit cacheName = 50%nat \/ cache_limit cacheName = 5000%nat) /\
  (cache_limit cacheName = 5000%nat <->
   exists class,
     Str.split "-" cacheName !! 1%nat = Some class /\
     (Str.toUpperCase class = "IMAGES" \/ Str.toUpperCase class = "JSON")).
Proof.
  split; [apply cache_limit_cases|].
  unfold cache_limit.
  destruct (Str.split "-" cacheName !! 1%nat) as [class |].
  - assert (Hl : CACHE_LIMITS !! Str.toUpperCase class =
                 if decide (Str.toUpperCase class = "IMAGES") then Some 5000%nat
                 else if decide (Str.toUpperCase class = "JSON") then Some 5000%nat
                 else if decide (Str.toUpperCase class = "DYNAMIC") then Some 50%nat
                 else None).
    { unfold CACHE_LIMITS. rewrite lookup_insert.
      destruct (decide ("IMAGES" = Str.toUpperCase class)) as [<- | Hi]; [reflexivity|].
      rewrite decide_False by congruence. rewrite lookup_insert.
      destruct (decide ("JSON" = Str.toUpperCase class)) as [<- | Hj]; [reflexivity|].
      rewrite decide_False by congruence. rewrite lookup_singleton.
      destruct (decide ("DYNAMIC" = Str.toUpperCase class)) as [<- | Hd]; [reflexivity|].
      rewrite decide_False by congruence. reflexivity. }
    rewrite Hl.
    destruct (decide (Str.toUpperCase class = "IMAGES")) as [Hi | Hi];
      [split; [intros _; exists class; auto | reflexivity]|].
    destruct (decide (Str.toUpperCase class = "JSON")) as [Hj | Hj];
      [split; [intros _; exists class; auto | reflexivity]|].
    destruct (decide (Str.toUpperCase class = "DYNAMIC")); split; try discriminate.
    all: intros (c & [= <-] & [H' | H']); contradiction.
  - split; [discriminate | intros (c & H & _); discriminate].
Qed.

Lemma manageCacheSize_noop (cache cacheName : string) (st : State) :
  (length (entries cache st) <= cache_limit cacheName)%nat ->
  manageCacheSize cache cacheName st = (Resolved tt, st).
Proof.
  intros Hle. unfold manageCacheSize, bind, cache_keys.
  replace (cache_limit cacheName <? length (CacheOps.keys (entries cache st)))%nat
    with false; [reflexivity|].
  symmetry. apply Nat.ltb_ge. unfold CacheOps.keys. rewrite length_fmap. exact Hle.
Qed.

(** X3. An eviction pass on a cache that is within its limit changes
    nothing at all. *)
Theorem manageCacheSize_within_limit (cache cacheName : string) (st : State) :
  (length (entries cache st) <= cache_limit cacheName)%nat ->
  manageCacheSize cache cacheName st = (Resolved tt, st).
Proof. apply manageCacheSize_noop. Qed.

Lemma manageCacheSize_within_limit_witness :
  let st := mkState {[ CACHE_NAMES.DYNAMIC := Sample.pages 50 (Sample.page "x") ]} [] in
  manageCacheSize CACHE_NAMES.DYNAMIC CACHE_NAMES.DYNAMIC st = (Resolved tt, st).
Proof.
  intros st. apply (manageCacheSize_within_limit CACHE_NAMES.DYNAMIC CACHE_NAMES.DYNAMIC st).
  vm_compute. lia.
Defined.

(** X4. An eviction pass keeps the newest entries of the cache, in
    their order, as many as the limit allows; it changes no other cache,
    posts nothing, and a second pass changes nothing more. *)
Theorem manageCacheSize_keeps_newest (cache cacheName : string) (st : State) :
  cache_wf (entries cache st) ->
  exists st',
    manageCacheSize cache cacheName st = (Resolved tt, st') /\
    entries cache st' =
      drop (length (entries cache st) - cache_limit cacheName) (entries cache st) /\
    length (entries cache st') = Nat.min (length (entries cache st)) (cache_limit cacheName) /\
    (forall n, n <> cache -> entries n st' = entries n st) /\
    sent st' = sent st /\
    manageCacheSize cache cacheName st' = (Resolved tt, st').
Proof.
  intros Hwf.
  destruct (Run.manageCacheSize_acts cache cacheName st Hwf) as (st' & Hrun & Hs & He & Ho).
  exists st'. split; [exact Hrun|]. split; [exact He|].
  assert (Hlen : length (entries cache st') =
                 Nat.min (length (entries cache st)) (cache_limit cacheName)).
  { rewrite He. apply CacheFacts.evict_oldest_length. }
  split; [exact Hlen|]. split; [exact Ho|]. split; [exact Hs|].
  apply manageCacheSize_noop. lia.
Qed.

Lemma manageCacheSize_keeps_newest_witness :
  let st := mkState {[ CACHE_NAMES.DYNAMIC := Sample.pages 53 (Sample.page "x") ]} [] in
  exists st',
    manageCacheSize CACHE_NAMES.DYNAMIC CACHE_NAMES.DYNAMIC st = (Resolved tt, st') /\
    entries CACHE_NAMES.DYNAMIC st' = drop 3 (Sample.pages 53 (Sample.page "x")).
Proof.
  intros st.
  destruct (manageCacheSize_keeps_newest CACHE_NAMES.DYNAMIC CACHE_NAMES.DYNAMIC st)
    as (st' & Hrun & He & _).
  - unfold cache_wf. decide_by_compute.
  - exists st'. split; [exact Hrun|]. rewrite He. vm_compute. reflexivity.
Defined.

(** ** Reading back what was written *)

Module MoreCacheFacts.
Import CacheOps CacheFacts.

Lemma lookup_app_notin k c d : k ∉ keys c -> lookup k (c ++ d) = lookup k d.
Proof.
  unfold lookup, keys. induction c as [| [k' v] c IH]; simpl; [reflexivity|].
  rewrite not_elem_of_cons. intros [Hne Hnin].
  destruct (String.eqb_spec k' k) as [-> | _]; [congruence|]. apply IH, Hnin.
Qed.

Lemma lookup_app_l k c d r : lookup k c = Some r -> lookup k (c ++ d) = Some r.
Proof.
  unfold lookup. induction c as [| [k' v] c IH]; simpl; [discriminate|].
  destruct (String.eqb k' k); [auto|]. apply IH.
Qed.

Lemma lookup_delete_ne k k' c : k <> k' -> lookup k (delete k' c) = lookup k c.
Proof.
  intros Hne. unfold lookup, delete. induction c as [| [k0 v] c IH]; simpl; [reflexivity|].
  destruct (String.eqb_spec k0 k') as [-> | Hne0]; simpl.
  - destruct (String.eqb_spec k' k) as [-> | _]; [congruence | exact IH].
  - destruct (String.eqb k0 k); [reflexivity | exact IH].
Qed.

(** Writing under another key does not disturb an entry. *)
Lemma lookup_put_ne k k' v c : k <> k' -> lookup k (put k' v c) = lookup k c.
Proof.
  intros Hne. unfold put.
  destruct (lookup k (delete k' c)) as [r |] eqn:Hl.
  - rewrite (lookup_app_l _ _ _ _ Hl), <- Hl. apply lookup_delete_ne, Hne.
  - rewrite lookup_app_notin by (apply lookup_None; exact Hl).
    rewrite <- (lookup_delete_ne k k' c Hne), Hl.
    unfold lookup. simpl. destruct (String.eqb_spec k' k); [congruence | reflexivity].
Qed.

Lemma keys_drop n c : keys (drop n c) = drop n (keys c).
Proof. unfold keys. apply fmap_drop. Qed.

(** The entry just written survives the eviction pass that follows. *)
Lemma lookup_evict_put limit k v c :
  (1 <= limit)%nat -> lookup k (evict_oldest limit (put k v c)) = Some v.
Proof.
  intros Hpos. unfold evict_oldest, put. rewrite length_app. simpl length.
  rewrite drop_app_le by lia.
  rewrite lookup_app_notin.
  - unfold lookup. simpl. rewrite String.eqb_refl. reflexivity.
  - rewrite keys_drop. intros Hin. apply (notin_keys_delete k c).
    exact (subseteq_drop _ _ _ Hin).
Qed.

End MoreCacheFacts.

(** ** Cache-first *)

Lemma opened_existing name k r st :
  CacheOps.lookup k (entries name st) = Some r -> opened name st = st.
Proof.
  unfold opened, caches_open, entries.
  destruct (caches st !! name); [reflexivity | discriminate].
Qed.

(** The background refresh never rejects: a fresh ok response replaces
    the entry and is announced; anything else leaves the state alone. *)
Lemma updateInBackground_run E request cache st :
  updateInBackground E request cache st =
  (Resolved tt,
   match net E (OfRequest request) with
   | Fulfilled fresh =>
       if Response.ok fresh
       then posting (background_update E request)
              (set_entries cache
                 (CacheOps.put (CacheOps.key (OfRequest request)) fresh (entries cache st)) st)
       else st
   | Failed _ => st
   end).
Proof.
  cbv [updateInBackground try_catch bind fetch when cache_put broadcastMessage ret].
  destruct (net E (OfRequest request)) as [fresh | e]; [|reflexivity].
  destruct (Response.ok fresh); reflexivity.
Qed.

Lemma cacheFirst_hit_run
    (E : Env) (request : Request.t) (cacheName : string) (cached : Response.t) (st : State) :
  CacheOps.lookup (CacheOps.key (OfRequest request)) (entries cacheName st) = Some cached ->
  cacheFirstStrategy E request cacheName st =
  (Resolved cached,
   match net E (OfRequest request) with
   | Fulfilled fresh =>
       if Response.ok fresh
       then posting (background_update E request)
              (set_entries cacheName
                 (CacheOps.put (CacheOps.key (OfRequest request)) fresh
                    (entries cacheName st)) st)
       else st
   | Failed _ => st
   end).
Proof.
  intros Hhit.
  cbv [cacheFirstStrategy try_catch bind cache_match ret].
  rewrite Run.caches_open_eq, (opened_existing _ _ _ _ Hhit), Hhit.
  rewrite updateInBackground_run. reflexivity.
Qed.

(** X5. When the cache holds an entry for an intercepted request,
    cache-first resolves to it whatever the network does.  A fresh ok
    response that the Cache stores replaces the entry, and a silent
    [CACHE_UPDATED] is posted; a rejected fetch or a response that is
    not ok leaves the whole state as it was, and no error is posted. *)
Theorem cacheFirst_hit
    (E : Env) (request : Request.t) (cacheName : string) (cached : Response.t) (st : State) :
  intercepted request ->
  CacheOps.lookup (CacheOps.key (OfRequest request)) (entries cacheName st) = Some cached ->
  fst (cacheFirstStrategy E request cacheName st) = Resolved cached /\
  (forall fresh,
     net E (OfRequest request) = Fulfilled fresh ->
     Response.ok fresh = true ->
     storable fresh = true ->
     snd (cacheFirstStrategy E request cacheName st)
     = posting (background_update E request)
         (set_entries cacheName
            (CacheOps.put (CacheOps.key (OfRequest request)) fresh (entries cacheName st))
            st)) /\
  (forall fresh,
     net E (OfRequest request) = Fulfilled fresh ->
     Response.ok fresh = false ->
     snd (cacheFirstStrategy E request cacheName st) = st) /\
  (forall error,
     net E (OfRequest request) = Failed error ->
     snd (cacheFirstStrategy E request cacheName st) = st).
Proof.
  intros _ Hhit. rewrite (cacheFirst_hit_run E request cacheName cached st Hhit). simpl.
  split; [reflexivity|]. split; [| split].
  - intros fresh -> -> _. reflexivity.
  - intros fresh -> ->. reflexivity.
  - intros error ->. reflexivity.
Qed.

Lemma cacheFirst_hit_witness :
  let request := Sample.get "meow.example" "/p0.html" None None [] in
  let online := Sample.answering (Sample.page "new") (fun _ => None) in
  let st := mkState {[ CACHE_NAMES.IMAGES := Sample.pages 2 (Sample.page "old") ]} [] in
  cacheFirstStrategy Sample.offline request CACHE_NAMES.IMAGES st
  = (Resolved (Sample.page "old"), st) /\
  CacheOps.keys (entries CACHE_NAMES.IMAGES
                   (snd (cacheFirstStrategy online request CACHE_NAMES.IMAGES st)))
  = [Sample.page_url 1; Sample.page_url 0].
Proof.
  intros request online st. split.
  - destruct (cacheFirst_hit Sample.offline request CACHE_NAMES.IMAGES (Sample.page "old") st)
      as (H1 & _ & _ & H4); [split; reflexivity | reflexivity |].
    apply injective_projections; [exact H1 | exact (H4 Sample.offline_error eq_refl)].
  - destruct (cacheFirst_hit online request CACHE_NAMES.IMAGES (Sample.page "old") st)
      as (_ & H2 & _); [split; reflexivity | reflexivity |].
    rewrite (H2 (Sample.page "new") eq_refl eq_refl eq_refl). vm_compute. reflexivity.
Defined.

(** X6. When nothing is cached and the network answers with a response
    that is not ok, cache-first hands that response to the caller, stores
    nothing and posts nothing. *)
Theorem cacheFirst_miss_not_ok
    (E : Env) (request : Request.t) (cacheName : string) (response : Response.t) (st : State) :
  CacheOps.lookup (CacheOps.key (OfRequest request)) (entries cacheName st) = None ->
  net E (OfRequest request) = Fulfilled response ->
  Response.ok response = false ->
  cacheFirstStrategy E request cacheName st = (Resolved response, opened cacheName st) /\
  same_entries st (opened cacheName st) /\
  sent (opened cacheName st) = sent st.
Proof.
  intros Hmiss Hnet Hok. split; [| split].
  - cbv [cacheFirstStrategy try_catch bind cache_match fetch when ret].
    rewrite Run.caches_open_eq, Run.entries_opened, Hmiss, Hnet, Hok. reflexivity.
  - intros n. apply Run.entries_opened.
  - apply Run.sent_opened.
Qed.

Lemma cacheFirst_miss_not_ok_witness :
  let missing := Response.mk 404 [] "Not Found" in
  let request := Sample.get "meow.example" "/posters/gone.png" None None [] in
  fst (cacheFirstStrategy (Sample.answering missing (fun _ => None)) request
         CACHE_NAMES.IMAGES empty_state) = Resolved missing /\
  entries CACHE_NAMES.IMAGES
    (snd (cacheFirstStrategy (Sample.answering missing (fun _ => None)) request
            CACHE_NAMES.IMAGES empty_state)) = [].
Proof.
  intros missing request.
  destruct (cacheFirst_miss_not_ok (Sample.answering missing (fun _ => None)) request
              CACHE_NAMES.IMAGES missing empty_state) as (Hrun & He & _);
    [reflexivity | reflexivity | reflexivity |].
  rewrite Hrun. split; [reflexivity|]. simpl. rewrite (He CACHE_NAMES.IMAGES). reflexivity.
Defined.

(** X7. What cache-first stores it serves: after a miss on an
    intercepted request that the network answers with an ok response
    that the Cache stores, the cache holds that response for the
    request, and the next call for it resolves to that response whatever
    the network then does, even when it is down. *)
Theorem cacheFirst_round_trip
    (E E' : Env) (request : Request.t) (cacheName : string) (response : Response.t)
    (st : State) :
  intercepted request ->
  cache_wf (entries cacheName st) ->
  CacheOps.lookup (CacheOps.key (OfRequest request)) (entries cacheName st) = None ->
  net E (OfRequest request) = Fulfilled response ->
  Response.ok response = true ->
  storable response = true ->
  let st1 := snd (cacheFirstStrategy E request cacheName st) in
  CacheOps.lookup (CacheOps.key (OfRequest request)) (entries cacheName st1) = Some response /\
  fst (cacheFirstStrategy E' request cacheName st1) = Resolved response.
Proof.
  intros _ Hwf Hmiss Hnet Hok _ st1.
  destruct (cacheFirst_miss_ok E request cacheName response st Hwf Hnet Hok Hmiss)
    as (st' & Hrun & He & _).
  assert (Hstored : CacheOps.lookup (CacheOps.key (OfRequest request)) (entries cacheName st1)
                    = Some response).
  { unfold st1. rewrite Hrun. simpl. rewrite He. unfold written.
    apply MoreCacheFacts.lookup_evict_put, cache_limit_positive. }
  split; [exact Hstored|].
  rewrite (cacheFirst_hit_run E' request cacheName response st1 Hstored). reflexivity.
Qed.

Lemma cacheFirst_round_trip_witness :
  let online := Sample.answering (Sample.page "poster") (fun _ => None) in
  let request := Sample.get "meow.example" "/posters/show.png" None None [] in
  let st1 := snd (cacheFirstStrategy online request CACHE_NAMES.IMAGES empty_state) in
  fst (cacheFirstStrategy Sample.offline request CACHE_NAMES.IMAGES st1)
  = Resolved (Sample.page "poster").
Proof.
  intros online request st1.
  destruct (cacheFirst_round_trip online Sample.offline request CACHE_NAMES.IMAGES
              (Sample.page "poster") empty_state) as [_ H].
  - split; reflexivity.
  - apply NoDup_nil_2.
  - reflexivity.
  - reflexivity.
  - reflexivity.
  - reflexivity.
  - exact H.
Defined.

(** ** Stale-while-revalidate *)

(** An eviction pass resolves on every state. *)
Lemma manageCacheSize_resolves cache cacheName st :
  exists h, acts_on (manageCacheSize cache cacheName) cache h st.
Proof.
  destruct (cache_limit cacheName <? length (CacheOps.keys (entries cache st)))%nat eqn:Hlt.
  - eexists.
    apply (Run.acts_on_run _
             (for_each
                (take (length (CacheOps.keys (entries cache st)) - cache_limit cacheName)
                   (CacheOps.keys (entries cache st)))
                (cache_delete cache))).
    + unfold manageCacheSize, bind, cache_keys. rewrite Hlt. reflexivity.
    + apply Run.for_each_acts. intros. apply Run.cache_delete_acts.
  - exists (fun c => c). apply (Run.acts_on_run _ (ret tt)); [|apply Run.acts_on_ret].
    unfold manageCacheSize, bind, cache_keys. rewrite Hlt. reflexivity.
Qed.

Lemma staleWhileRevalidate_stale_run
    (E : Env) (request : Request.t) (cacheName : string) (cached : Response.t) (st : State) :
  CacheOps.lookup (CacheOps.key (OfRequest request)) (entries cacheName st) = Some cached ->
  fst (staleWhileRevalidateStrategy E request cacheName st) = Resolved (Some cached) /\
  (forall error,
     net E (OfRequest request) = Failed error ->
     snd (staleWhileRevalidateStrategy E request cacheName st)
     = posting (cache_error E request error) st) /\
  (forall response,
     net E (OfRequest request) = Fulfilled response ->
     Response.ok response = false ->
     snd (staleWhileRevalidateStrategy E request cacheName st) = st).
Proof.
  intros Hhit.
  cbv [staleWhileRevalidateStrategy try_catch bind cache_match fetch when ret cache_put].
  rewrite Run.caches_open_eq, (opened_existing _ _ _ _ Hhit), Hhit.
  destruct (net E (OfRequest request)) as [response | error].
  - destruct (Response.ok response) eqn:Hok.
    + destruct (manageCacheSize_resolves cacheName cacheName
                  (set_entries cacheName
                     (CacheOps.put (CacheOps.key (OfRequest request)) response
                        (entries cacheName st)) st)) as (h & st2 & Hrun & _).
      rewrite Hrun.
      destruct (negb (String.eqb (Response.text cached) (Response.text response)));
        (split; [reflexivity|]); (split; [discriminate | intros r [= <-]; congruence]).
    + split; [reflexivity|]. split; [discriminate | reflexivity].
  - split; [reflexivity|]. split; [intros e [= <-]; reflexivity | discriminate].
Qed.

(** X8. When the cache holds an entry for the request,
    stale-while-revalidate always resolves to it: it never rejects and
    never waits on the outcome of the fetch.  A rejected fetch posts a
    cache error and changes no cache; a response that is not ok changes
    nothing at all. *)
Theorem staleWhileRevalidate_serves_stale
    (E : Env) (request : Request.t) (cacheName : string) (cached : Response.t) (st : State) :
  CacheOps.lookup (CacheOps.key (OfRequest request)) (entries cacheName st) = Some cached ->
  fst (staleWhileRevalidateStrategy E request cacheName st) = Resolved (Some cached) /\
  (forall error,
     net E (OfRequest request) = Failed error ->
     snd (staleWhileRevalidateStrategy E request cacheName st)
     = posting (cache_error E request error) st) /\
  (forall response,
     net E (OfRequest request) = Fulfilled response ->
     Response.ok response = false ->
     snd (staleWhileRevalidateStrategy E request cacheName st) = st).
Proof. apply staleWhileRevalidate_stale_run. Qed.

Lemma staleWhileRevalidate_serves_stale_witness :
  let request := Sample.get "meow.example" "/p0.html" None None [] in
  let st := mkState {[ CACHE_NAMES.DYNAMIC := Sample.pages 2 (Sample.page "old") ]} [] in
  staleWhileRevalidateStrategy Sample.offline request CACHE_NAMES.DYNAMIC st
  = (Resolved (Some (Sample.page "old")),
     posting (cache_error Sample.offline request Sample.offline_error) st).
Proof.
  intros request st.
  destruct (staleWhileRevalidate_serves_stale Sample.offline request CACHE_NAMES.DYNAMIC
              (Sample.page "old") st) as (H1 & H2 & _); [reflexivity|].
  rewrite <- H1, <- (H2 Sample.offline_error eq_refl). apply surjective_pairing.
Defined.

(** X9. When nothing is cached and the network answers with a response
    that is not ok, stale-while-revalidate resolves to that response,
    stores nothing and posts nothing. *)
Theorem staleWhileRevalidate_miss_not_ok
    (E : Env) (request : Request.t) (cacheName : string) (response : Response.t) (st : State) :
  CacheOps.lookup (CacheOps.key (OfRequest request)) (entries cacheName st) = None ->
  net E (OfRequest request) = Fulfilled response ->
  Response.ok response = false ->
  staleWhileRevalidateStrategy E request cacheName st
  = (Resolved (Some response), opened cacheName st) /\
  same_entries st (opened cacheName st) /\
  sent (opened cacheName st) = sent st.
Proof.
  intros Hmiss Hnet Hok. split; [| split].
  - cbv [staleWhileRevalidateStrategy try_catch bind cache_match fetch when ret].
    rewrite Run.caches_open_eq, Run.entries_opened, Hmiss, Hnet, Hok. reflexivity.
  - intros n. apply Run.entries_opened.
  - apply Run.sent_opened.
Qed.

Lemma staleWhileRevalidate_miss_not_ok_witness :
  let missing := Response.mk 404 [] "Not Found" in
  let request := Sample.get "meow.example" "/shows.json" None None [] in
  fst (staleWhileRevalidateStrategy (Sample.answering missing (fun _ => None)) request
         CACHE_NAMES.JSON empty_state) = Resolved (Some missing).
Proof.
  intros missing request.
  destruct (staleWhileRevalidate_miss_not_ok (Sample.answering missing (fun _ => None))
              request CACHE_NAMES.JSON missing empty_state) as (Hrun & _);
    [reflexivity | reflexivity | reflexivity |].
  rewrite Hrun. reflexivity.
Defined.

(** X10. What the refresh stores is served next: after the network has
    answered an intercepted request with an ok response that the Cache
    stores, the cache holds that response for the request, whether or
    not an older one was there, and the next call resolves to it
    whatever the network then does. *)
Theorem staleWhileRevalidate_round_trip
    (E E' : Env) (request : Request.t) (cacheName : string) (response : Response.t)
    (st : State) :
  intercepted request ->
  cache_wf (entries cacheName st) ->
  net E (OfRequest request) = Fulfilled response ->
  Response.ok response = true ->
  storable response = true ->
  let st1 := snd (staleWhileRevalidateStrategy E request cacheName st) in
  CacheOps.lookup (CacheOps.key (OfRequest request)) (entries cacheName st1) = Some response /\
  fst (staleWhileRevalidateStrategy E' request cacheName st1) = Resolved (Some response).
Proof.
  intros _ Hwf Hnet Hok _ st1.
  destruct (staleWhileRevalidate_ok E request cacheName response st Hwf Hnet Hok)
    as (st' & Hrun & He & _).
  assert (Hstored : CacheOps.lookup (CacheOps.key (OfRequest request)) (entries cacheName st1)
                    = Some response).
  { unfold st1. rewrite Hrun. simpl. rewrite He. unfold written.
    apply MoreCacheFacts.lookup_evict_put, cache_limit_positive. }
  split; [exact Hstored|].
  apply (staleWhileRevalidate_stale_run E' request cacheName response st1 Hstored).
Qed.

Lemma staleWhileRevalidate_round_trip_witness :
  let online := Sample.answering (Sample.page "new") (fun _ => None) in
  let request := Sample.get "meow.example" "/p0.html" None None [] in
  let st := mkState {[ CACHE_NAMES.DYNAMIC := Sample.pages 2 (Sample.page "old") ]} [] in
  let st1 := snd (staleWhileRevalidateStrategy online request CACHE_NAMES.DYNAMIC st) in
  fst (staleWhileRevalidateStrategy online request CACHE_NAMES.DYNAMIC st)
  = Resolved (Some (Sample.page "old")) /\
  fst (staleWhileRevalidateStrategy Sample.offline request CACHE_NAMES.DYNAMIC st1)
  = Resolved (Some (Sample.page "new")).
Proof.
  intros online request st st1. split; [vm_compute; reflexivity|].
  destruct (staleWhileRevalidate_round_trip online Sample.offline request
              CACHE_NAMES.DYNAMIC (Sample.page "new") st) as [_ H].
  - split; reflexivity.
  - unfold cache_wf. decide_by_compute.
  - reflexivity.
  - reflexivity.
  - reflexivity.
  - exact H.
Defined.

(** X11. A first fetch is announced once: when the cache holds no entry
    for an intercepted request and the network answers with an ok
    response that the Cache stores, stale-while-revalidate resolves to
    that response and posts exactly one message, [CACHE_UPDATED] with
    the text [New content cached] and the URL of the request. *)
Theorem staleWhileRevalidate_announces
    (E : Env) (request : Request.t) (cacheName : string) (response : Response.t)
    (st : State) :
  intercepted request ->
  cache_wf (entries cacheName st) ->
  CacheOps.lookup (CacheOps.key (OfRequest request)) (entries cacheName st) = None ->
  net E (OfRequest request) = Fulfilled response ->
  Response.ok response = true ->
  storable response = true ->
  fst (staleWhileRevalidateStrategy E request cacheName st) = Resolved (Some response) /\
  sent (snd (staleWhileRevalidateStrategy E request cacheName st)) =
  sent st ++
  [mkMessage "CACHE_UPDATED" "New content cached" (Some (Request.url request)) None (now E)].
Proof.
  intros _ Hwf Hmiss Hnet Hok _.
  destruct (staleWhileRevalidate_ok E request cacheName response st Hwf Hnet Hok)
    as (st' & Hrun & _ & _ & Hs).
  rewrite Hrun, Hmiss in *. simpl. split; [reflexivity | exact Hs].
Qed.

Lemma staleWhileRevalidate_announces_witness :
  let online := Sample.answering (Sample.page "new") (fun _ => None) in
  let request := Sample.get "meow.example" "/master_ta.json" None None [] in
  msg_message <$>
    sent (snd (staleWhileRevalidateStrategy online request CACHE_NAMES.JSON empty_state))
  = ["New content cached"].
Proof.
  intros online request.
  destruct (staleWhileRevalidate_announces online request CACHE_NAMES.JSON
              (Sample.page "new") empty_state) as [_ H].
  - split; reflexivity.
  - apply NoDup_nil_2.
  - reflexivity.
  - reflexivity.
  - reflexivity.
  - reflexivity.
  - rewrite H. reflexivity.
Defined.

(** ** Network-first *)

Lemma networkFirst_effects (E : Env) (request : Request.t) (st : State) :
  same_entries st (snd (networkFirstStrategy E request st)) /\
  (sent (snd (networkFirstStrategy E request st)) = sent st \/
   sent (snd (networkFirstStrategy E request st)) = sent st ++
     [mkMessage "OFFLINE_FALLBACK" "Serving cached version"
        (Some (Request.url request)) None (now E)]).
Proof.
  cbv [networkFirstStrategy try_catch bind fetch ret cache_match].
  destruct (net E (OfRequest request)) as [response | error].
  - simpl. split; [intros n; reflexivity | left; reflexivity].
  - rewrite Run.caches_open_eq.
    destruct (CacheOps.lookup _ _) as [cached |].
    + simpl. split; [intros n; apply Run.entries_opened|].
      right. rewrite Run.sent_opened. reflexivity.
    + destruct (Headers.get "accept" (Request.headers request)) as [accept |].
      * destruct (Str.includes "text/html" accept); simpl;
          (split; [intros n; apply Run.entries_opened | left; apply Run.sent_opened]).
      * simpl. split; [intros n; apply Run.entries_opened | left; apply Run.sent_opened].
Qed.

(** X12. Network-first never writes: whatever the network and the
    caches hold, every cache has the same entries afterwards, and the
    only message it can post is the offline-fallback notice. *)
Theorem networkFirst_never_writes (E : Env) (request : Request.t) (st : State) :
  same_entries st (snd (networkFirstStrategy E request st)) /\
  (sent (snd (networkFirstStrategy E request st)) = sent st \/
   sent (snd (networkFirstStrategy E request st)) = sent st ++
     [mkMessage "OFFLINE_FALLBACK" "Serving cached version"
        (Some (Request.url request)) None (now E)]).
Proof. apply networkFirst_effects. Qed.

(** ** One entry per key *)

Module Invariant.
Import CacheOps CacheFacts.

Lemma wf_set_entries name c st : wf st -> cache_wf c -> wf (set_entries name c st).
Proof.
  intros Hwf Hc n. destruct (decide (n = name)) as [-> | Hne].
  - rewrite Run.entries_set_eq. exact Hc.
  - rewrite Run.entries_set_ne by exact Hne. apply Hwf.
Qed.

Lemma wf_posting m st : wf st -> wf (posting m st).
Proof. intros Hwf n. apply Hwf. Qed.

Lemma wf_same st st' : same_entries st st' -> wf st -> wf st'.
Proof. intros Hsame Hwf n. rewrite Hsame. apply Hwf. Qed.

Lemma wf_local name st st' :
  wf st -> cache_wf (entries name st') ->
  (forall n, n <> name -> entries n st' = entries n st) -> wf st'.
Proof.
  intros Hwf Hc Ho n. destruct (decide (n = name)) as [-> | Hne]; [exact Hc|].
  rewrite (Ho n Hne). apply Hwf.
Qed.

Lemma wf_empty : wf empty_state.
Proof. intros n. apply NoDup_nil_2. Qed.

Lemma keys_filter_subseteq (f : string * Response.t -> bool) c k :
  k ∈ keys (List.filter f c) -> k ∈ keys c.
Proof.
  unfold keys. rewrite !list_elem_of_fmap. intros (e & -> & He).
  exists e. split; [reflexivity|].
  apply list_elem_of_In in He. apply List.filter_In in He as [He _].
  apply list_elem_of_In, He.
Qed.

Lemma filter_wf (f : string * Response.t -> bool) c : cache_wf c -> cache_wf (List.filter f c).
Proof.
  unfold cache_wf. induction c as [| [k v] c IH]; simpl; [auto|].
  intros Hnd. apply NoDup_cons in Hnd as [Hk Hnd].
  destruct (f (k, v)); [|apply IH, Hnd].
  change (NoDup (k :: keys (List.filter f c))). apply NoDup_cons. split; [|apply IH, Hnd].
  intros Hin. apply Hk. apply (keys_filter_subseteq f c k Hin).
Qed.

Section Strategies.

Variables (E : Env) (request : Request.t) (cacheName : string) (st : State).

Local Abbreviation k := (key (OfRequest request)).

Lemma cacheFirst_miss_failed_run error :
  lookup k (entries cacheName st) = None ->
  net E (OfRequest request) = Failed error ->
  snd (cacheFirstStrategy E request cacheName st)
  = posting (cache_error E request error) (opened cacheName st).
Proof.
  intros Hmiss Hnet.
  cbv [cacheFirstStrategy try_catch bind cache_match fetch when ret broadcastMessage throw].
  rewrite Run.caches_open_eq, Run.entries_opened, Hmiss, Hnet.
  destruct (some_test IMAGE_CACHE_PATTERNS (Request.url request)); reflexivity.
Qed.

Lemma cacheFirst_miss_not_ok_run response :
  lookup k (entries cacheName st) = None ->
  net E (OfRequest request) = Fulfilled response ->
  Response.ok response = false ->
  cacheFirstStrategy E request cacheName st = (Resolved response, opened cacheName st).
Proof.
  intros Hmiss Hnet Hok.
  cbv [cacheFirstStrategy try_catch bind cache_match fetch when ret].
  rewrite Run.caches_open_eq, Run.entries_opened, Hmiss, Hnet, Hok. reflexivity.
Qed.

Lemma staleWhileRevalidate_failed_run error :
  net E (OfRequest request) = Failed error ->
  snd (staleWhileRevalidateStrategy E request cacheName st)
  = posting (cache_error E request error) (opened cacheName st).
Proof.
  intros Hnet.
  cbv [staleWhileRevalidateStrategy try_catch bind cache_match fetch ret broadcastMessage].
  rewrite Run.caches_open_eq, Hnet.
  destruct (lookup _ _); reflexivity.
Qed.

Lemma staleWhileRevalidate_not_ok_run response :
  net E (OfRequest request) = Fulfilled response ->
  Response.ok response = false ->
  snd (staleWhileRevalidateStrategy E request cacheName st) = opened cacheName st.
Proof.
  intros Hnet Hok.
  cbv [staleWhileRevalidateStrategy try_catch bind cache_match fetch when ret].
  rewrite Run.caches_open_eq, Hnet, Hok.
  destruct (lookup _ _); reflexivity.
Qed.

Lemma cacheFirst_wf : wf st -> wf (snd (cacheFirstStrategy E request cacheName st)).
Proof.
  intros Hwf.
  destruct (lookup k (entries cacheName st)) as [cached |] eqn:Hl.
  - rewrite (cacheFirst_hit_run E request cacheName cached st Hl). simpl.
    destruct (net E (OfRequest request)) as [fresh | e]; [|exact Hwf].
    destruct (Response.ok fresh); [|exact Hwf].
    apply wf_posting, wf_set_entries; [exact Hwf | apply put_wf, Hwf].
  - destruct (net E (OfRequest request)) as [response | e] eqn:Hnet.
    + destruct (Response.ok response) eqn:Hok.
      * destruct (cacheFirst_miss_ok E request cacheName response st (Hwf _) Hnet Hok Hl)
          as (st' & Hrun & He & Ho & _).
        rewrite Hrun. simpl. apply (wf_local cacheName st st' Hwf); [|exact Ho].
        rewrite He. apply evict_oldest_wf, put_wf, Hwf.
      * rewrite (cacheFirst_miss_not_ok_run response Hl Hnet Hok). simpl.
        apply Run.wf_opened, Hwf.
    + rewrite (cacheFirst_miss_failed_run e Hl Hnet).
      apply wf_posting, Run.wf_opened, Hwf.
Qed.

Lemma staleWhileRevalidate_wf :
  wf st -> wf (snd (staleWhileRevalidateStrategy E request cacheName st)).
Proof.
  intros Hwf.
  destruct (net E (OfRequest request)) as [response | e] eqn:Hnet.
  - destruct (Response.ok response) eqn:Hok.
    + destruct (staleWhileRevalidate_ok E request cacheName response st (Hwf _) Hnet Hok)
        as (st' & Hrun & He & Ho & _).
      rewrite Hrun. simpl. apply (wf_local cacheName st st' Hwf); [|exact Ho].
      rewrite He. apply evict_oldest_wf, put_wf, Hwf.
    + rewrite (staleWhileRevalidate_not_ok_run response Hnet Hok).
      apply Run.wf_opened, Hwf.
  - rewrite (staleWhileRevalidate_failed_run e Hnet).
    apply wf_posting, Run.wf_opened, Hwf.
Qed.

End Strategies.

End Invariant.

(** ** Prefetch *)

Module Prefetch.
Import CacheOps CacheFacts.

Section WithEnv.

Variable E : Env.

(** Prefetching a list of URLs is the fold of [prefetch_step], followed
    by the summary. *)
Lemma run urls st :
  handlePrefetchResources E urls st =
  (Resolved tt, posting (prefetch_summary E urls) (fold_left (prefetch_step E) urls st)).
Proof.
  unfold handlePrefetchResources, try_catch.
  set (f := fun url : string =>
              try_catch
                (let* response := fetch E (OfString url) in
                 when (Response.ok response)
                   (let cacheName :=
                      if some_test IMAGE_CACHE_PATTERNS url then CACHE_NAMES.IMAGES
                      else if some_test JSON_CACHE_PATTERNS url then CACHE_NAMES.JSON
                      else CACHE_NAMES.DYNAMIC in
                    let* cache := caches_open cacheName in
                    cache_put cache (OfString url) response))
                (fun _ : Error => ret tt)).
  assert (Hloop : forall l s, for_each l f s = (Resolved tt, fold_left (prefetch_step E) l s)).
  { induction l as [| url l IH]; intros s; [reflexivity|]. simpl. unfold bind.
    assert (Hstep : f url s = (Resolved tt, prefetch_step E s url)).
    { unfold f, prefetch_step, prefetch_cache.
      cbv [try_catch bind fetch when ret cache_put].
      destruct (net E (OfString url)) as [response | e]; [|reflexivity].
      destruct (Response.ok response); [|reflexivity].
      rewrite Run.caches_open_eq, Run.entries_opened. reflexivity. }
    rewrite Hstep. apply IH. }
  unfold bind. rewrite Hloop. reflexivity.
Qed.

Lemma entries_step n st url :
  entries n (prefetch_step E st url) =
  match net E (OfString url) with
  | Fulfilled response =>
      if Response.ok response && bool_decide (n = prefetch_cache url)
      then put url response (entries n st)
      else entries n st
  | Failed _ => entries n st
  end.
Proof.
  unfold prefetch_step. destruct (net E (OfString url)) as [response | e]; [|reflexivity].
  destruct (Response.ok response); [|reflexivity]. simpl.
  destruct (decide (n = prefetch_cache url)) as [-> | Hne].
  - rewrite bool_decide_eq_true_2 by reflexivity. apply Run.entries_set_eq.
  - rewrite bool_decide_eq_false_2 by exact Hne.
    rewrite Run.entries_set_ne by exact Hne. apply Run.entries_opened.
Qed.

Lemma sent_fold urls : forall st, sent (fold_left (prefetch_step E) urls st) = sent st.
Proof.
  induction urls as [| url urls IH]; intros st; [reflexivity|]. simpl. rewrite IH.
  unfold prefetch_step. destruct (net E (OfString url)) as [response | e]; [|reflexivity].
  destruct (Response.ok response); [|reflexivity]. simpl. apply Run.sent_opened.
Qed.

Lemma wf_step st url : wf st -> wf (prefetch_step E st url).
Proof.
  intros Hwf n. rewrite entries_step.
  destruct (net E (OfString url)) as [response | e]; [|apply Hwf].
  destruct (Response.ok response && bool_decide (n = prefetch_cache url));
    [apply put_wf|]; apply Hwf.
Qed.

Lemma wf_fold urls : forall st, wf st -> wf (fold_left (prefetch_step E) urls st).
Proof.
  induction urls as [| url urls IH]; intros st Hwf; [exact Hwf|].
  simpl. apply IH, wf_step, Hwf.
Qed.

Lemma prefetch_cache_cases url :
  prefetch_cache url = CACHE_NAMES.IMAGES \/
  prefetch_cache url = CACHE_NAMES.JSON \/
  prefetch_cache url = CACHE_NAMES.DYNAMIC.
Proof.
  unfold prefetch_cache.
  destruct (some_test IMAGE_CACHE_PATTERNS url); [auto|].
  destruct (some_test JSON_CACHE_PATTERNS url); auto.
Qed.

Lemma entries_fold_other n urls :
  n <> CACHE_NAMES.IMAGES -> n <> CACHE_NAMES.JSON -> n <> CACHE_NAMES.DYNAMIC ->
  forall st, entries n (fold_left (prefetch_step E) urls st) = entries n st.
Proof.
  intros Hi Hj Hd. induction urls as [| url urls IH]; intros st; [reflexivity|].
  simpl. rewrite IH, entries_step.
  destruct (net E (OfString url)) as [response | e]; [|reflexivity].
  rewrite bool_decide_eq_false_2, andb_false_r; [reflexivity|].
  destruct (prefetch_cache_cases url) as [-> | [-> | ->]]; assumption.
Qed.

(** When no fetch gives an ok response, nothing is stored. *)
Lemma nothing_stored urls : forall st,
  (forall url, url ∈ urls ->
     forall response, net E (OfString url) = Fulfilled response ->
                      Response.ok response = false) ->
  fold_left (prefetch_step E) urls st = st.
Proof.
  induction urls as [| u urls IH]; intros st Hall; [reflexivity|]. simpl.
  assert (Hstep : prefetch_step E st u = st).
  { unfold prefetch_step. destruct (net E (OfString u)) as [r | e] eqn:Hnet; [|reflexivity].
    rewrite (Hall u ltac:(left) r Hnet). reflexivity. }
  rewrite Hstep. apply IH. intros url Hin. apply Hall. right. exact Hin.
Qed.

End WithEnv.

End Prefetch.

(** X14. Prefetch never rejects and always ends with one summary
    message, which counts the URLs that were asked for, whether or not
    any was stored.  It writes only into the image, JSON and dynamic
    caches, and when no fetch gives an ok response it stores nothing. *)
Theorem prefetch_summary_counts_requests (E : Env) (urls : list string) (st : State) :
  exists st',
    handlePrefetchResources E urls st = (Resolved tt, st') /\
    sent st' = sent st ++ [prefetch_summary E urls] /\
    (forall n, n <> CACHE_NAMES.IMAGES -> n <> CACHE_NAMES.JSON ->
               n <> CACHE_NAMES.DYNAMIC -> entries n st' = entries n st) /\
    ((forall url, url ∈ urls ->
        forall response, net E (OfString url) = Fulfilled response ->
                         Response.ok response = false) ->
     caches st' = caches st).
Proof.
  eexists. split; [apply Prefetch.run|]. split; [| split].
  - simpl. rewrite Prefetch.sent_fold. reflexivity.
  - intros n Hi Hj Hd. apply (Prefetch.entries_fold_other E n urls Hi Hj Hd).
  - intros Hall. simpl. rewrite (Prefetch.nothing_stored E urls st Hall). reflexivity.
Qed.

Lemma prefetch_summary_counts_requests_witness :
  let urls := Sample.page_urls 3 in
  snd (handlePrefetchResources Sample.offline urls empty_state)
  = posting (prefetch_summary Sample.offline urls) empty_state /\
  msg_message (prefetch_summary Sample.offline urls) = "Prefetched 3 resources".
Proof.
  intros urls.
  destruct (prefetch_summary_counts_requests Sample.offline urls empty_state)
    as (st' & Hrun & Hs & _ & Hc).
  rewrite Hrun. simpl. split; [|reflexivity].
  specialize (Hc ltac:(intros url _ response; discriminate)).
  destruct st' as [c s]. simpl in *. rewrite Hs, Hc. reflexivity.
Defined.

(** ** The invariant, and the cleanup as a whole *)

Lemma snd_bind_ret {A B} (m : M A) (f : A -> B) st :
  snd ((let* r := m in ret (f r)) st) = snd (m st).
Proof. unfold bind, ret. destruct (m st) as [[a | e] s]; reflexivity. Qed.

Lemma cleanup_wf E st : wf st -> wf (snd (performPeriodicCleanup E st)).
Proof.
  intros Hwf.
  destruct (Cleanup.performPeriodicCleanup_run E st (fun n _ => Hwf n))
    as (st' & Hrun & _ & He).
  rewrite Hrun. simpl. intros n. rewrite He.
  destruct (bool_decide (n ∈ CACHE_NAMES.values)); [|apply Hwf].
  apply Invariant.filter_wf, CacheFacts.evict_oldest_wf, Hwf.
Qed.

(** X13. Every cache holds at most one entry per key, and the worker
    keeps it so: the empty storage has the property, and whatever the
    network does it is preserved by answering a request with any of the
    three strategies, by a prefetch, by an eviction pass and by the
    periodic cleanup. *)
Theorem worker_keeps_one_entry_per_key (E : Env) (st : State) :
  wf empty_state /\
  (wf st ->
   (forall s request, wf (snd (respondWith E s request st))) /\
   (forall urls, wf (snd (handlePrefetchResources E urls st))) /\
   (forall cache cacheName, wf (snd (manageCacheSize cache cacheName st))) /\
   wf (snd (performPeriodicCleanup E st))).
Proof.
  split; [apply Invariant.wf_empty|]. intros Hwf. split; [| split; [| split]].
  - intros [| cacheName | cacheName] request; unfold respondWith.
    + rewrite snd_bind_ret.
      eapply Invariant.wf_same; [|exact Hwf].
      apply (networkFirst_effects E request st).
    + rewrite snd_bind_ret. apply Invariant.cacheFirst_wf, Hwf.
    + apply Invariant.staleWhileRevalidate_wf, Hwf.
  - intros urls. rewrite Prefetch.run. simpl.
    apply Invariant.wf_posting, Prefetch.wf_fold, Hwf.
  - intros cache cacheName.
    destruct (Run.manageCacheSize_acts cache cacheName st (Hwf cache))
      as (st' & Hrun & _ & He & Ho).
    rewrite Hrun. simpl. apply (Invariant.wf_local cache st st' Hwf); [|exact Ho].
    rewrite He. apply CacheFacts.evict_oldest_wf, Hwf.
  - apply cleanup_wf, Hwf.
Qed.

Lemma worker_keeps_one_entry_per_key_witness :
  let E := Sample.answering (Sample.page "x") (fun _ => None) in
  cache_wf
    (entries CACHE_NAMES.DYNAMIC
       (snd (performPeriodicCleanup E
               (snd (handlePrefetchResources E (Sample.page_urls 3) empty_state))))).
Proof.
  intros E.
  destruct (worker_keeps_one_entry_per_key E empty_state) as [H0 H].
  destruct (H H0) as (_ & Hp & _).
  destruct (worker_keeps_one_entry_per_key E
              (snd (handlePrefetchResources E (Sample.page_urls 3) empty_state)))
    as [_ H'].
  destruct (H' (Hp _)) as (_ & _ & _ & Hc). apply Hc.
Defined.

Lemma filter_idem {A} (f : A -> bool) (l : list A) :
  List.filter f (List.filter f l) = List.filter f l.
Proof.
  induction l as [| x l IH]; simpl; [reflexivity|].
  destruct (f x) eqn:Hx; simpl; [rewrite Hx, IH|]; auto.
Qed.

Lemma cleanup_entries_bound E n c :
  (length (unexpired E (evict_oldest (cache_limit n) c)) <= cache_limit n)%nat.
Proof.
  unfold unexpired.
  etransitivity; [apply List.filter_length_le|].
  rewrite CacheFacts.evict_oldest_length. lia.
Qed.

(** X16. The periodic cleanup never rejects and posts nothing.  It
    leaves each of the worker's five caches within its limit and free
    of expired entries, and it does not touch a cache of any other
    name, such as one left by an earlier version. *)
Theorem cleanup_bounds_worker_caches (E : Env) (st : State) :
  (forall n, n ∈ CACHE_NAMES.values -> cache_wf (entries n st)) ->
  exists st',
    performPeriodicCleanup E st = (Resolved tt, st') /\
    sent st' = sent st /\
    (forall n, n ∈ CACHE_NAMES.values ->
       (length (entries n st') <= cache_limit n)%nat /\
       (forall e, e ∈ entries n st' ->
          e ∈ entries n st /\ expired E (now E - retention) (snd e) = false)) /\
    (forall n, n ∉ CACHE_NAMES.values -> entries n st' = entries n st).
Proof.
  intros Hwf.
  destruct (Cleanup.performPeriodicCleanup_run E st Hwf) as (st' & Hrun & Hs & He).
  exists st'. split; [exact Hrun|]. split; [exact Hs|]. split.
  - intros n Hn. rewrite He, (bool_decide_eq_true_2 _ Hn).
    split; [apply cleanup_entries_bound|].
    intros e Hin. apply Cleanup.elem_of_unexpired in Hin as [Hin Hexp].
    split; [|exact Hexp]. exact (subseteq_drop _ _ _ Hin).
  - intros n Hn. rewrite He, (bool_decide_eq_false_2 _ Hn). reflexivity.
Qed.

Lemma cleanup_bounds_worker_caches_witness :
  let E := Sample.answering (Sample.page "x") Sample.days_ago in
  let old := "meow-dynamic-0909240100" in
  let st := mkState {[ old := Sample.pages 60 (Sample.dated "8 days ago" "stale") ]} [] in
  exists st',
    performPeriodicCleanup E st = (Resolved tt, st') /\
    entries old st' = Sample.pages 60 (Sample.dated "8 days ago" "stale").
Proof.
  intros E old st.
  destruct (cleanup_bounds_worker_caches E st) as (st' & Hrun & _ & _ & Ho).
  - intros n Hn. unfold cache_wf.
    replace (entries n st) with (@nil (string * Response.t)); [apply NoDup_nil_2|].
    unfold entries, st. simpl. rewrite lookup_singleton_ne; [reflexivity|].
    intros <-. revert Hn. unfold CACHE_NAMES.values.
    rewrite !elem_of_cons, elem_of_nil. vm_compute. intuition discriminate.
  - exists st'. split; [exact Hrun|]. rewrite Ho; [vm_compute; reflexivity|].
    unfold CACHE_NAMES.values. rewrite !elem_of_cons, elem_of_nil.
    vm_compute. intuition discriminate.
Defined.

(** X17. Running the cleanup twice at the same time of day does what
    running it once does: the second run removes no entry and posts
    nothing. *)
Theorem cleanup_idempotent (E : Env) (st : State) :
  (forall n, n ∈ CACHE_NAMES.values -> cache_wf (entries n st)) ->
  let st1 := snd (performPeriodicCleanup E st) in
  let st2 := snd (performPeriodicCleanup E st1) in
  same_entries st1 st2 /\ sent st2 = sent st1.
Proof.
  intros Hwf st1 st2.
  destruct (Cleanup.performPeriodicCleanup_run E st Hwf) as (s1 & Hrun1 & Hs1 & He1).
  assert (Hst1 : st1 = s1) by (unfold st1; rewrite Hrun1; reflexivity).
  destruct (Cleanup.performPeriodicCleanup_run E s1) as (s2 & Hrun2 & Hs2 & He2).
  { intros n Hn. rewrite He1, (bool_decide_eq_true_2 _ Hn).
    apply Invariant.filter_wf, CacheFacts.evict_oldest_wf, Hwf, Hn. }
  assert (Hst2 : st2 = s2) by (unfold st2; rewrite Hst1, Hrun2; reflexivity).
  rewrite Hst1, Hst2. split; [|exact Hs2].
  intros n. rewrite He2.
  destruct (bool_decide (n ∈ CACHE_NAMES.values)) eqn:Hn; [|reflexivity].
  rewrite He1, Hn.
  rewrite CacheFacts.evict_oldest_within by apply cleanup_entries_bound.
  apply filter_idem.
Qed.

Lemma cleanup_idempotent_witness :
  let E := Sample.answering (Sample.dated "6 days ago" "x") Sample.days_ago in
  let st := snd (handlePrefetchResources E (Sample.page_urls 3) empty_state) in
  let st1 := snd (performPeriodicCleanup E st) in
  entries CACHE_NAMES.DYNAMIC (snd (performPeriodicCleanup E st1))
  = entries CACHE_NAMES.DYNAMIC st1.
Proof.
  intros E st st1.
  destruct (cleanup_idempotent E st) as [H _]; [|apply H].
  intros n _. unfold st. rewrite Prefetch.run.
  apply Invariant.wf_posting, Prefetch.wf_fold, Invariant.wf_empty.
Defined.

(** ** The lifecycle and the control messages *)

Module Lifecycle.

(** A loop that deletes the caches that [P] selects. *)
Lemma delete_loop (P : string -> bool) (l : list string) : forall st,
  for_each l (fun name => if P name then let* deleted := caches_delete name in ret tt
                          else ret tt) st
  = (Resolved tt,
     mkState (fold_left (fun m name => if P name then delete name m else m) l (caches st))
       (sent st)).
Proof.
  induction l as [| name l IH]; intros st; simpl.
  - destruct st; reflexivity.
  - unfold bind at 1. destruct (P name).
    + unfold bind at 1. unfold caches_delete at 1. unfold ret at 1.
      rewrite IH. reflexivity.
    + unfold ret at 1. apply IH.
Qed.

Lemma lookup_fold_delete {V} (P : string -> bool) (l : list string) n :
  forall m : gmap string V,
    fold_left (fun m name => if P name then delete name m else m) l m !! n
    = if P n && bool_decide (n ∈ l) then None else m !! n.
Proof.
  induction l as [| name l IH]; intros m; simpl.
  - rewrite andb_false_r. reflexivity.
  - rewrite IH. destruct (decide (n = name)) as [-> | Hne].
    + rewrite (bool_decide_eq_true_2 (name ∈ name :: l)) by left.
      destruct (P name); simpl.
      * rewrite lookup_delete_eq. destruct (bool_decide (name ∈ l)); reflexivity.
      * reflexivity.
    + assert (Hiff : bool_decide (n ∈ name :: l) = bool_decide (n ∈ l)).
      { apply bool_decide_ext. rewrite elem_of_cons. tauto. }
      rewrite Hiff.
      destruct (P n && bool_decide (n ∈ l)); [reflexivity|].
      destruct (P name); [apply lookup_delete_ne; congruence | reflexivity].
Qed.

(** Over the names of all caches, the loop removes exactly those that
    [P] selects. *)
Lemma lookup_delete_selected {V} (P : string -> bool) (m : gmap string V) n :
  fold_left (fun m name => if P name then delete name m else m) (elements (dom m)) m !! n
  = if P n then None else m !! n.
Proof.
  rewrite lookup_fold_delete. destruct (P n); [|reflexivity]. simpl.
  destruct (decide (n ∈ elements (dom m))) as [Hin | Hnin].
  - rewrite bool_decide_eq_true_2 by exact Hin. reflexivity.
  - rewrite bool_decide_eq_false_2 by exact Hnin.
    apply not_elem_of_dom. intros Hd. apply Hnin, elem_of_elements, Hd.
Qed.

Lemma for_each_filter {A} (P : A -> bool) (f : A -> M unit) (l : list A) : forall st,
  for_each (List.filter P l) f st = for_each l (fun x => if P x then f x else ret tt) st.
Proof.
  induction l as [| x l IH]; intros st; simpl; [reflexivity|].
  destruct (P x); simpl; unfold bind.
  - destruct (f x st) as [[[] | e] s]; [apply IH | reflexivity].
  - apply IH.
Qed.

Lemma delete_meow_caches_run st :
  exists m',
    delete_meow_caches st = (Resolved tt, mkState m' (sent st)) /\
    forall n, m' !! n = if Str.startsWith "meow-" n then None else caches st !! n.
Proof.
  eexists. split.
  - unfold delete_meow_caches, bind at 1, caches_keys.
    rewrite for_each_filter. apply delete_loop.
  - intros n. apply lookup_delete_selected.
Qed.

Lemma array_includes_spec name names : array_includes name names = true <-> name ∈ names.
Proof.
  unfold array_includes. rewrite existsb_exists. split.
  - intros (x & Hin & Heq). apply String.eqb_eq in Heq as ->.
    apply list_elem_of_In, Hin.
  - intros Hin. exists name. split; [apply list_elem_of_In, Hin | apply String.eqb_refl].
Qed.

End Lifecycle.

Lemma activate_run (E : Env) (st : State) :
  exists st',
    onactivate E st = (Resolved tt, st') /\
    sent st' = sent st ++
      [mkMessage "SW_ACTIVATED" "Service Worker is now controlling all pages" None None
         (now E)] /\
    (forall n, caches st' !! n = if outdated n then None else caches st !! n) /\
    (forall n, n ∈ CACHE_NAMES.values -> caches st' !! n = caches st !! n) /\
    (forall n, Str.startsWith "meow-" n = false -> caches st' !! n = caches st !! n).
Proof.
  assert (Hrun : onactivate E st =
                 (Resolved tt,
                  posting (mkMessage "SW_ACTIVATED"
                             "Service Worker is now controlling all pages" None None (now E))
                    (mkState (fold_left (fun m name => if outdated name then delete name m else m)
                                (elements (dom (caches st))) (caches st)) (sent st)))).
  { unfold onactivate, bind at 1. unfold bind at 1. unfold caches_keys at 1.
    fold outdated.
    change (fun cacheName : string =>
              if Str.startsWith "meow-" cacheName &&
                 negb (array_includes cacheName CACHE_NAMES.values)
              then let* deleted := caches_delete cacheName in ret tt else ret tt)
      with (fun cacheName : string =>
              if outdated cacheName
              then let* deleted := caches_delete cacheName in ret tt else ret tt).
    rewrite Lifecycle.delete_loop. reflexivity. }
  eexists. split; [exact Hrun|]. split; [reflexivity|].
  assert (Hlook : forall n,
             caches (posting (mkMessage "SW_ACTIVATED"
                                "Service Worker is now controlling all pages" None None (now E))
                       (mkState (fold_left
                                   (fun m name => if outdated name then delete name m else m)
                                   (elements (dom (caches st))) (caches st)) (sent st))) !! n
             = if outdated n then None else caches st !! n).
  { intros n. simpl. apply Lifecycle.lookup_delete_selected. }
  split; [exact Hlook|]. split.
  - intros n Hn. rewrite Hlook. unfold outdated.
    apply Lifecycle.array_includes_spec in Hn. rewrite Hn, andb_false_r. reflexivity.
  - intros n Hn. rewrite Hlook. unfold outdated. rewrite Hn. reflexivity.
Qed.

Lemma forceUpdate_run (E : Env) (st : State) :
  exists st',
    handleForceUpdate E st = (Resolved tt, st') /\
    sent st' = sent st ++
      [mkMessage "SW_UPDATED" "Service Worker updated, please reload" None None (now E)] /\
    (forall n, caches st' !! n = if Str.startsWith "meow-" n then None else caches st !! n) /\
    (forall n, n ∈ CACHE_NAMES.values -> entries n st' = []).
Proof.
  destruct (Lifecycle.delete_meow_caches_run st) as (m' & Hrun & Hm').
  exists (posting (mkMessage "SW_UPDATED" "Service Worker updated, please reload" None None
                     (now E)) (mkState m' (sent st))).
  split.
  - unfold handleForceUpdate, try_catch, bind at 1. rewrite Hrun.
    unfold bind, broadcastMessage, skipWaiting, ret. reflexivity.
  - split; [reflexivity|]. split; [exact Hm'|].
    intros n Hn. unfold entries. simpl. rewrite Hm'.
    replace (Str.startsWith "meow-" n) with true; [reflexivity|].
    revert Hn. unfold CACHE_NAMES.values. rewrite !elem_of_cons, elem_of_nil.
    intros [-> | [-> | [-> | [-> | [-> | []]]]]]; reflexivity.
Qed.

(** X18. Activation deletes exactly the caches whose name starts with
    [meow-] and is not one of the five names of the current version.
    Every other cache, of the current version or of another site
    prefix, is left as it was, and one [SW_ACTIVATED] message is posted. *)
Theorem activate_deletes_outdated_caches (E : Env) (st : State) :
  exists st',
    onactivate E st = (Resolved tt, st') /\
    sent st' = sent st ++
      [mkMessage "SW_ACTIVATED" "Service Worker is now controlling all pages" None None
         (now E)] /\
    (forall n, caches st' !! n = if outdated n then None else caches st !! n) /\
    (forall n, n ∈ CACHE_NAMES.values -> caches st' !! n = caches st !! n) /\
    (forall n, Str.startsWith "meow-" n = false -> caches st' !! n = caches st !! n).
Proof. apply activate_run. Qed.

(** X19. A forced update deletes every cache whose name starts with
    [meow-], those of the current version included, leaves every other
    cache as it was, posts one [SW_UPDATED] message and never rejects. *)
Theorem forceUpdate_deletes_all_site_caches (E : Env) (st : State) :
  exists st',
    handleForceUpdate E st = (Resolved tt, st') /\
    sent st' = sent st ++
      [mkMessage "SW_UPDATED" "Service Worker updated, please reload" None None (now E)] /\
    (forall n, caches st' !! n = if Str.startsWith "meow-" n then None else caches st !! n) /\
    (forall n, n ∈ CACHE_NAMES.values -> entries n st' = []).
Proof. apply forceUpdate_run. Qed.

(** X20. Clearing a named cache deletes that cache, whatever its name
    and whether or not it exists, and no other; clearing without a
    name, or with the empty name, deletes every cache whose name starts
    with [meow-].  Either way one [CACHE_UPDATED] message reports
    success, and the handler never rejects. *)
Theorem clearCache_effect (E : Env) (cacheName : option string) (st : State) :
  exists st',
    handleClearCache E cacheName st = (Resolved tt, st') /\
    sent st' = sent st ++
      [mkMessage "CACHE_UPDATED" "Cache cleared successfully" None None (now E)] /\
    (forall name, cacheName = Some name -> name <> "" ->
                  caches st' = delete name (caches st)) /\
    (cacheName = None \/ cacheName = Some "" ->
     forall n, caches st' !! n = if Str.startsWith "meow-" n then None else caches st !! n).
Proof.
  destruct (Lifecycle.delete_meow_caches_run st) as (m' & Hrun & Hm').
  assert (Hall : exists st',
             handleClearCache E None st = (Resolved tt, st') /\
             handleClearCache E (Some "") st = (Resolved tt, st') /\
             sent st' = sent st ++
               [mkMessage "CACHE_UPDATED" "Cache cleared successfully" None None (now E)] /\
             forall n, caches st' !! n
                       = if Str.startsWith "meow-" n then None else caches st !! n).
  { exists (posting (mkMessage "CACHE_UPDATED" "Cache cleared successfully" None None (now E))
              (mkState m' (sent st))).
    split; [| split; [| split; [| exact Hm']]].
    - unfold handleClearCache, try_catch, bind at 1. rewrite Hrun.
      unfold broadcastMessage. reflexivity.
    - unfold handleClearCache, try_catch, bind at 1. rewrite Hrun.
      unfold broadcastMessage. reflexivity.
    - reflexivity. }
  destruct Hall as (sa & Hnone & Hempty & Hsa & Hma).
  destruct cacheName as [name |].
  - destruct (String.eqb_spec name "") as [-> | Hne].
    + exists sa. split; [exact Hempty|]. split; [exact Hsa|]. split.
      * intros name [= <-] H. contradiction.
      * intros _. exact Hma.
    + eexists. split.
      * unfold handleClearCache, try_catch.
        destruct name as [| c name]; [contradiction|].
        unfold bind, caches_delete, broadcastMessage, ret. reflexivity.
      * split; [reflexivity|]. split.
        -- intros name' [= <-] _. reflexivity.
        -- intros [H | [= H]]; [discriminate | contradiction].
  - exists sa. split; [exact Hnone|]. split; [exact Hsa|]. split.
    + intros name H. discriminate.
    + intros _. exact Hma.
Qed.

Lemma clearCache_effect_witness :
  let st := mkState {[ CACHE_NAMES.IMAGES := Sample.pages 2 (Sample.page "x");
                       "other-site" := Sample.pages 1 (Sample.page "y") ]} [] in
  caches (snd (handleClearCache Sample.offline (Some "other-site") st))
  = {[ CACHE_NAMES.IMAGES := Sample.pages 2 (Sample.page "x") ]}.
Proof.
  intros st.
  destruct (clearCache_effect Sample.offline (Some "other-site") st)
    as (st' & Hrun & _ & Hnamed & _).
  rewrite Hrun. simpl. rewrite (Hnamed "other-site" eq_refl); [|discriminate].
  apply map_eq. intros n. unfold st. simpl.
  destruct (decide (n = "other-site")) as [-> | Hne].
  - rewrite lookup_delete_eq. symmetry. apply lookup_singleton_ne. discriminate.
  - rewrite lookup_delete_ne by congruence.
    destruct (decide (n = CACHE_NAMES.IMAGES)) as [-> | Hne'].
    + rewrite lookup_insert_eq, lookup_singleton_eq. reflexivity.
    + rewrite lookup_insert_ne by congruence.
      rewrite !lookup_singleton_ne by congruence. reflexivity.
Defined.

Lemma activate_deletes_outdated_caches_witness :
  let st := mkState {[ "meow-dynamic-0909240100" := Sample.pages 2 (Sample.page "old");
                       CACHE_NAMES.DYNAMIC := Sample.pages 1 (Sample.page "new") ]} [] in
  exists st',
    onactivate Sample.offline st = (Resolved tt, st') /\
    caches st' !! "meow-dynamic-0909240100" = None /\
    caches st' !! CACHE_NAMES.DYNAMIC = Some (Sample.pages 1 (Sample.page "new")).
Proof.
  intros st.
  destruct (activate_deletes_outdated_caches Sample.offline st) as (st' & Hrun & _ & Hl & _).
  exists st'. split; [exact Hrun|]. rewrite !Hl. split; vm_compute; reflexivity.
Defined.

Lemma forceUpdate_deletes_all_site_caches_witness :
  let st := mkState {[ CACHE_NAMES.DYNAMIC := Sample.pages 1 (Sample.page "new") ]} [] in
  exists st',
    handleForceUpdate Sample.offline st = (Resolved tt, st') /\
    caches st' !! CACHE_NAMES.DYNAMIC = None.
Proof.
  intros st.
  destruct (forceUpdate_deletes_all_site_caches Sample.offline st) as (st' & Hrun & _ & Hl & _).
  exists st'. split; [exact Hrun|]. rewrite Hl. reflexivity.
Defined.

(** X21. A control message of a type other than the four that the
    worker knows is ignored: nothing is deleted, stored, posted or
    replied.  A prefetch message that carries no list of URLs is
    treated as a prefetch of none: nothing is stored, and the summary
    for zero resources is still posted. *)
Theorem onmessage_edge_cases (E : Env) (st : State) :
  (forall type data,
     type <> "FORCE_UPDATE" -> type <> "CLEAR_CACHE" ->
     type <> "GET_CACHE_INFO" -> type <> "PREFETCH_RESOURCES" ->
     onmessage E type data st = (Resolved None, st)) /\
  (forall data,
     data ≫= data_urls = None ->
     onmessage E "PREFETCH_RESOURCES" data st
     = (Resolved None, posting (prefetch_summary E []) st)).
Proof.
  split.
  - intros type data H1 H2 H3 H4. unfold onmessage.
    rewrite (proj2 (String.eqb_neq _ _) H1), (proj2 (String.eqb_neq _ _) H2),
      (proj2 (String.eqb_neq _ _) H3), (proj2 (String.eqb_neq _ _) H4).
    reflexivity.
  - intros data Hnone. unfold onmessage. simpl. rewrite Hnone. simpl.
    unfold bind. rewrite Prefetch.run. reflexivity.
Qed.

Lemma onmessage_edge_cases_witness :
  onmessage Sample.offline "SKIP_WAITING" None empty_state = (Resolved None, empty_state) /\
  sent (snd (onmessage Sample.offline "PREFETCH_RESOURCES" None empty_state))
  = [prefetch_summary Sample.offline []].
Proof.
  destruct (onmessage_edge_cases Sample.offline empty_state) as [H1 H2]. split.
  - apply H1; discriminate.
  - rewrite (H2 None eq_refl). reflexivity.
Defined.


(** ** Installation *)

Module Install.
Import CacheOps CacheFacts.

Lemma cache_put_acts cache info response st :
  acts_on (cache_put cache info response) cache (put (key info) response) st.
Proof.
  exists (set_entries cache (put (key info) response (entries cache st)) st).
  split; [reflexivity|]. split; [reflexivity|]. split; [apply Run.entries_set_eq|].
  intros n Hn. apply Run.entries_set_ne, Hn.
Qed.

(** The fetches of [addAll] either all succeed, leaving the state as it
    was, or reject, leaving the state as it was. *)
Lemma fetch_all_cases E requests st :
  (exists fetched,
     fetch_all E requests st = (Resolved fetched, st) /\
     fetched.*1 = requests /\
     Forall (fun entry => addable E (fst entry) = Some (snd entry)) fetched) \/
  (exists error,
     fetch_all E requests st = (Rejected error, st) /\
     exists request, request ∈ requests /\ addable E request = None).
Proof.
  induction requests as [| request rest IH].
  - left. exists []. split; [reflexivity|]. split; [reflexivity | constructor].
  - assert (Hstep : fetch_all E (request :: rest) st =
                    match net E (OfRequest request) with
                    | Fulfilled response =>
                        if Response.ok response && storable response
                        then match fetch_all E rest st with
                             | (Resolved fetched, st') =>
                                 (Resolved ((request, response) :: fetched), st')
                             | (Rejected e, st') => (Rejected e, st')
                             end
                        else (Rejected (mkError "Request failed"), st)
                    | Failed e => (Rejected e, st)
                    end).
    { simpl. unfold bind at 1, fetch at 1.
      destruct (net E (OfRequest request)) as [response | e]; [|reflexivity].
      destruct (Response.ok response && storable response);
        reflexivity. }
    rewrite Hstep. clear Hstep.
    destruct (net E (OfRequest request)) as [response | e] eqn:Hnet.
    + destruct (Response.ok response && storable response) eqn:Hadd.
      * destruct IH as [(fetched & Hrun & Hfst & Hall) | (error & Hrun & r & Hin & Hnone)].
        -- left. exists ((request, response) :: fetched). rewrite Hrun.
           split; [reflexivity|]. split; [simpl; f_equal; exact Hfst|].
           constructor; [|exact Hall]. simpl. unfold addable. rewrite Hnet, Hadd. reflexivity.
        -- right. exists error. rewrite Hrun. split; [reflexivity|].
           exists r. split; [right; exact Hin | exact Hnone].
      * right. eexists. split; [reflexivity|]. exists request. split; [left|].
        unfold addable. rewrite Hnet, Hadd. reflexivity.
    + right. exists e. split; [reflexivity|]. exists request. split; [left|].
      unfold addable. rewrite Hnet. reflexivity.
Qed.

(** After a run of writes under distinct keys, each key gives what was
    written under it. *)
Lemma lookup_fold_put (kvs : Cache) : forall c k v,
  NoDup kvs.*1 -> (k, v) ∈ kvs ->
  lookup k (fold_left (fun a kv => put (fst kv) (snd kv) a) kvs c) = Some v.
Proof.
  induction kvs as [| [k' v'] kvs IH] using rev_ind; intros c k v Hnd Hin.
  - inversion Hin.
  - rewrite fold_left_app. simpl.
    rewrite fmap_app in Hnd. apply NoDup_app in Hnd as (Hnd & Hdis & _).
    apply elem_of_app in Hin as [Hin | Hin].
    + assert (Hne : k <> k').
      { intros ->. apply (Hdis k').
        - apply (list_elem_of_fmap_2 fst) in Hin. exact Hin.
        - simpl. left. }
      rewrite MoreCacheFacts.lookup_put_ne by exact Hne. apply IH; assumption.
    + apply list_elem_of_singleton in Hin. injection Hin as -> ->. apply lookup_put.
Qed.

Lemma append_inj_l (s a b : string) : s +:+ a = s +:+ b -> a = b.
Proof. induction s as [| c s IH]; simpl; [auto|]. intros [= H]. apply IH, H. Qed.

Lemma append_empty_r (s : string) : s +:+ "" = s.
Proof.
  induction s as [| c s IH]; [reflexivity|].
  change (String c (s +:+ "") = String c s). f_equal. exact IH.
Qed.

Lemma static_key_inj origin p p' :
  key (OfRequest (static_request origin p)) = key (OfRequest (static_request origin p')) ->
  p = p'.
Proof.
  unfold key, static_request, URL.href_no_fragment. simpl.
  intros H. repeat apply append_inj_l in H.
  rewrite !append_empty_r in H. exact H.
Qed.

Lemma static_urls_distinct : NoDup STATIC_CACHE_URLS.
Proof. decide_by_compute. Qed.

End Install.

Lemma install_run (E : Env) (origin : URL.t) (st : State) :
  exists st',
    oninstall E origin st = (Resolved tt, st') /\
    ((forall path, path ∈ STATIC_CACHE_URLS ->
        is_Some (addable E (static_request origin path))) ->
     sent st' = sent st ++
       [mkMessage "SW_ACTIVATED" "Service Worker activated" None None (now E)] /\
     forall path, path ∈ STATIC_CACHE_URLS ->
       CacheOps.lookup (CacheOps.key (OfRequest (static_request origin path)))
         (entries CACHE_NAMES.STATIC st')
       = addable E (static_request origin path)) /\
    (forall path, path ∈ STATIC_CACHE_URLS ->
       addable E (static_request origin path) = None ->
       sent st' = sent st /\ same_entries st st').
Proof.
  set (requests := List.map (static_request origin) STATIC_CACHE_URLS).
  destruct (Install.fetch_all_cases E requests (opened CACHE_NAMES.STATIC st))
    as [(fetched & Hrun & Hfst & Hall) | (error & Hrun & r & Hin & Hnone)].
  - destruct (Run.for_each_acts
                (fun entry : Request.t * Response.t =>
                   cache_put CACHE_NAMES.STATIC (OfRequest (fst entry)) (snd entry))
                CACHE_NAMES.STATIC
                (fun entry => CacheOps.put (CacheOps.key (OfRequest (fst entry))) (snd entry))
                fetched
                (fun entry st0 => Install.cache_put_acts _ _ _ st0)
                (opened CACHE_NAMES.STATIC st))
      as (st2 & Hputs & Hs2 & He2 & Ho2).
    exists (posting (mkMessage "SW_ACTIVATED" "Service Worker activated" None None (now E)) st2).
    split; [| split].
    + unfold oninstall, try_catch, bind at 1. unfold bind at 1.
      rewrite Run.caches_open_eq. unfold cache_addAll, bind at 1. fold requests.
      rewrite Hrun, Hputs. reflexivity.
    + intros _. split; [simpl; rewrite Hs2, Run.sent_opened; reflexivity|].
      intros path Hpath.
      assert (Hreq : static_request origin path ∈ fetched.*1).
      { rewrite Hfst. unfold requests. apply list_elem_of_In, List.in_map, list_elem_of_In, Hpath. }
      apply list_elem_of_fmap in Hreq as ([r resp] & Hr & Hin). simpl in Hr. subst r.
      rewrite Forall_forall in Hall. pose proof (Hall _ Hin) as Hresp. simpl in Hresp.
      rewrite Hresp.
      change (entries CACHE_NAMES.STATIC (posting _ st2)) with (entries CACHE_NAMES.STATIC st2).
      rewrite He2.
      set (kvs := (fun entry : Request.t * Response.t =>
                     (CacheOps.key (OfRequest (fst entry)), snd entry)) <$> fetched).
      assert (Hfold : forall l c,
                 fold_left (fun a (x : Request.t * Response.t) =>
                              CacheOps.put (CacheOps.key (OfRequest (fst x))) (snd x) a) l c
                 = fold_left (fun a kv => CacheOps.put (fst kv) (snd kv) a)
                     ((fun entry : Request.t * Response.t =>
                         (CacheOps.key (OfRequest (fst entry)), snd entry)) <$> l) c).
      { induction l as [| x l IHl]; intros c; [reflexivity|]. simpl. apply IHl. }
      rewrite Hfold. apply Install.lookup_fold_put.
      * assert (Hkeys : ((fun entry : Request.t * Response.t =>
                            (CacheOps.key (OfRequest (fst entry)), snd entry)) <$> fetched).*1
                        = (fun x => CacheOps.key (OfRequest x)) <$> fetched.*1)
          by (rewrite <- !list_fmap_compose; reflexivity).
        rewrite Hkeys, Hfst. unfold requests.
        change (List.map (static_request origin) STATIC_CACHE_URLS)
          with (static_request origin <$> STATIC_CACHE_URLS).
        rewrite <- list_fmap_compose.
        apply NoDup_fmap_2; [|apply Install.static_urls_distinct].
        intros p p' H. apply (Install.static_key_inj origin p p' H).
      * apply list_elem_of_fmap. exists (static_request origin path, resp). auto.
    + intros path Hpath Hnone. exfalso.
      assert (Hreq : static_request origin path ∈ fetched.*1).
      { rewrite Hfst. unfold requests. apply list_elem_of_In, List.in_map, list_elem_of_In, Hpath. }
      apply list_elem_of_fmap in Hreq as ([r resp] & Hr & Hin). simpl in Hr. subst r.
      rewrite Forall_forall in Hall. specialize (Hall _ Hin). simpl in Hall. congruence.
  - exists (opened CACHE_NAMES.STATIC st). split; [| split].
    + unfold oninstall, try_catch, bind at 1. unfold bind at 1.
      rewrite Run.caches_open_eq. unfold cache_addAll, bind at 1. fold requests.
      rewrite Hrun. reflexivity.
    + intros Hall. exfalso. unfold requests in Hin.
      apply list_elem_of_In, List.in_map_iff in Hin as (path & <- & Hpath).
      destruct (Hall path (proj2 (list_elem_of_In _ _) Hpath)) as [resp Hresp]. congruence.
    + intros _ _ _. split; [apply Run.sent_opened|]. intros n. apply Run.entries_opened.
Qed.

Lemma install_sent (E : Env) (origin : URL.t) (st : State) :
  sent (snd (oninstall E origin st)) = sent st ++
    [mkMessage "SW_ACTIVATED" "Service Worker activated" None None (now E)] \/
  sent (snd (oninstall E origin st)) = sent st.
Proof.
  destruct (install_run E origin st) as (st' & Hrun & Hall & Hsome).
  rewrite Hrun. simpl snd.
  destruct (decide (Forall (fun path => is_Some (addable E (static_request origin path)))
                      STATIC_CACHE_URLS)) as [Hf | Hf].
  - left. apply Hall. intros path Hin. rewrite Forall_forall in Hf. apply Hf, Hin.
  - right. apply not_Forall_Exists in Hf; [|intros x; apply _].
    apply Exists_exists in Hf as (path & Hin & Hnot).
    unfold compose in Hnot.
    destruct (addable E (static_request origin path)) as [r |] eqn:Ha.
    + exfalso. apply Hnot. eexists. reflexivity.
    + apply (Hsome path Hin Ha).
Qed.

(** X23. Installation never fails, and announces itself only when the
    whole list was stored.  When every static asset is fetched with an
    ok response that the Cache stores, each is in the static cache under
    its URL afterwards and [SW_ACTIVATED] is posted.  When one of them
    is not, no entry is stored and nothing is posted, and the install
    still resolves. *)
Theorem install_all_or_nothing (E : Env) (origin : URL.t) (st : State) :
  exists st',
    oninstall E origin st = (Resolved tt, st') /\
    ((forall path, path ∈ STATIC_CACHE_URLS ->
        is_Some (addable E (static_request origin path))) ->
     sent st' = sent st ++
       [mkMessage "SW_ACTIVATED" "Service Worker activated" None None (now E)] /\
     forall path, path ∈ STATIC_CACHE_URLS ->
       CacheOps.lookup (CacheOps.key (OfRequest (static_request origin path)))
         (entries CACHE_NAMES.STATIC st')
       = addable E (static_request origin path)) /\
    (forall path, path ∈ STATIC_CACHE_URLS ->
       addable E (static_request origin path) = None ->
       sent st' = sent st /\ same_entries st st').
Proof. apply install_run. Qed.


Lemma install_all_or_nothing_witness :
  let origin := URL.mk "https:" "meow.example" "" "/" None None in
  exists st',
    oninstall Sample.offline origin empty_state = (Resolved tt, st') /\
    sent st' = [] /\
    entries CACHE_NAMES.STATIC st' = [].
Proof.
  intros origin.
  destruct (install_all_or_nothing Sample.offline origin empty_state)
    as (st' & Hrun & _ & Hfail).
  exists st'. split; [exact Hrun|].
  destruct (Hfail "/" ltac:(left) eq_refl) as [Hs He].
  split; [exact Hs | apply He].
Defined.

(** ** The page *)

Module PageFacts.

Lemma string_of_chars s : String.string_of_list_ascii (Str.chars s) = s.
Proof. apply String.string_of_list_ascii_of_string. Qed.

(** Without a separator in it, a string is one piece. *)
Lemma split_go_nosep sep f : forall acc,
  Forall (fun c => c <> sep) (Str.chars f) ->
  Str.split_go sep acc f = [String.string_of_list_ascii (rev acc ++ Str.chars f)].
Proof.
  induction f as [| c f IH]; intros acc Hf; simpl.
  - rewrite app_nil_r. reflexivity.
  - change (Str.chars (String c f)) with (c :: Str.chars f) in Hf.
    apply Forall_cons in Hf as [Hc Hf].
    rewrite (proj2 (Ascii.eqb_neq c sep) Hc). rewrite (IH _ Hf). simpl.
    rewrite <- app_assoc. reflexivity.
Qed.

Lemma split_go_nonempty sep s : forall acc, Str.split_go sep acc s <> [].
Proof.
  induction s as [| c s IH]; intros acc; simpl; [discriminate|].
  destruct (Ascii.eqb c sep); [discriminate | apply IH].
Qed.

Lemma last_cons {A} (x : A) l d : l <> [] -> List.last (x :: l) d = List.last l d.
Proof. destruct l; [contradiction | reflexivity]. Qed.

(** The last piece of a path is what follows its last separator. *)
Lemma pop_split sep dir f : forall acc,
  Forall (fun c => c <> sep) (Str.chars f) ->
  pop (Str.split_go sep acc (dir +:+ String sep f)) = f.
Proof.
  unfold pop. induction dir as [| c dir IH]; intros acc Hf.
  - change ("" +:+ String sep f) with (String sep f). simpl.
    rewrite Ascii.eqb_refl, (split_go_nosep sep f [] Hf). simpl. apply string_of_chars.
  - change (String c dir +:+ String sep f) with (String c (dir +:+ String sep f)). simpl.
    destruct (Ascii.eqb c sep).
    + rewrite last_cons by apply split_go_nonempty. apply IH, Hf.
    + apply IH, Hf.
Qed.

Lemma prefix_head_ne c c' p s : c <> c' -> String.prefix (String c p) (String c' s) = false.
Proof. intros Hne. simpl. destruct (ascii_dec c c'); [contradiction | reflexivity]. Qed.

(** Taking [.html] off a name that has no dot in it. *)
Lemma replace_html name :
  Forall (fun c => c <> "."%char) (Str.chars name) ->
  replace_first ".html" "" (name +:+ ".html") = name.
Proof.
  induction name as [| c name IH]; intros Hname.
  - reflexivity.
  - change (Str.chars (String c name)) with (c :: Str.chars name) in Hname.
    apply Forall_cons in Hname as [Hc Hname].
    change (String c name +:+ ".html") with (String c (name +:+ ".html")).
    cbn [replace_first]. rewrite prefix_head_ne by congruence.
    f_equal. apply IH, Hname.
Qed.

Lemma append_inj_r (a b s : string) : a +:+ s = b +:+ s -> a = b.
Proof.
  intros H. apply (f_equal Str.chars) in H. rewrite !ReFacts.chars_app in H.
  apply app_inv_tail in H.
  rewrite <- (string_of_chars a), <- (string_of_chars b), H. reflexivity.
Qed.

End PageFacts.

(** X24. For a page at [<directory>/<name>.html], where the name is
    not empty and contains neither a slash nor a dot, the current
    language is the name, except that [index] gives [tamil]; a path that
    ends in a slash gives [tamil] as well. *)
Theorem getCurrentLanguage_of_page (dir name : string) :
  Forall (fun c => c <> "/"%char /\ c <> "."%char) (Str.chars name) ->
  getCurrentLanguage (dir +:+ "/" +:+ name +:+ ".html")
  = (if String.eqb name "index" then "tamil" else name) /\
  getCurrentLanguage (dir +:+ "/") = "tamil".
Proof.
  intros Hname.
  assert (Hslash : Forall (fun c => c <> "/"%char) (Str.chars (name +:+ ".html"))).
  { rewrite ReFacts.chars_app. apply Forall_app. split.
    - eapply Forall_impl; [exact Hname|]. intros c [H _]. exact H.
    - repeat constructor; discriminate. }
  assert (Hdot : Forall (fun c => c <> "."%char) (Str.chars name)).
  { eapply Forall_impl; [exact Hname|]. intros c [_ H]. exact H. }
  split.
  - unfold getCurrentLanguage, Str.split.
    change (dir +:+ "/" +:+ name +:+ ".html")
      with (dir +:+ String "/" (name +:+ ".html")).
    rewrite (PageFacts.pop_split "/" dir (name +:+ ".html") [] Hslash).
    assert (Hfile : name +:+ ".html" <> "") by (destruct name; discriminate).
    destruct (name +:+ ".html") as [| c f] eqn:Hf; [contradiction|].
    cbv iota. rewrite <- Hf.
    destruct (String.eqb_spec name "index") as [-> | Hne]; [reflexivity|].
    destruct (String.eqb_spec (name +:+ ".html") "index.html") as [Heq | _].
    + exfalso. apply Hne. apply (PageFacts.append_inj_r name "index" ".html" Heq).
    + apply PageFacts.replace_html, Hdot.
  - unfold getCurrentLanguage, Str.split.
    change (dir +:+ "/") with (dir +:+ String "/" "").
    rewrite (PageFacts.pop_split "/" dir "" []); [reflexivity | constructor].
Qed.

Lemma getCurrentLanguage_of_page_witness :
  getCurrentLanguage "/telugu.html" = "telugu" /\
  getCurrentLanguage "/site/index.html" = "tamil".
Proof.
  split.
  - apply (getCurrentLanguage_of_page "" "telugu").
    repeat constructor; discriminate.
  - apply (getCurrentLanguage_of_page "/site" "index").
    repeat constructor; discriminate.
Defined.

(** X25. When the page is told that content was updated, it removes
    from its local storage the two keys of the current language when
    the URL contains [.json], and no other key ever; a URL that
    contains neither [.json] nor [.html] changes nothing on the page. *)
Theorem refreshContent_clears_language_keys (url : string) (p : Page) :
  let language := getCurrentLanguage (pathname p) in
  let showsKey := "cached_kukufm_shows_" +:+ language in
  let masterKey := "cached_master_" +:+ language in
  let p' := refreshContent url p in
  (forall key, key <> showsKey -> key <> masterKey ->
     localStorage p' !! key = localStorage p !! key) /\
  (Str.includes ".json" url = true ->
   localStorage p' !! showsKey = None /\ localStorage p' !! masterKey = None) /\
  (Str.includes ".json" url = false -> localStorage p' = localStorage p) /\
  (Str.includes ".json" url = false -> Str.includes ".html" url = false -> p' = p).
Proof.
  intros language showsKey masterKey p'. subst p'. unfold refreshContent.
  fold language. fold showsKey. fold masterKey.
  assert (Fa : forall key, key <> showsKey -> key <> masterKey ->
               delete masterKey (delete showsKey (localStorage p)) !! key
               = localStorage p !! key).
  { intros key H1 H2. rewrite !lookup_delete_ne by congruence. reflexivity. }
  assert (Fb : delete masterKey (delete showsKey (localStorage p)) !! showsKey = None /\
               delete masterKey (delete showsKey (localStorage p)) !! masterKey = None).
  { split; [|apply lookup_delete_eq].
    destruct (decide (masterKey = showsKey)) as [-> | Hne]; [apply lookup_delete_eq|].
    rewrite lookup_delete_ne by exact Hne. apply lookup_delete_eq. }
  destruct (Str.includes ".json" url); destruct (Str.includes ".html" url); simpl.
  - split; [exact Fa|]. split; [intros _; exact Fb|]. split; discriminate.
  - split; [exact Fa|]. split; [intros _; exact Fb|]. split; discriminate.
  - split; [reflexivity|]. split; [discriminate|]. split; [reflexivity | discriminate].
  - split; [reflexivity|]. split; [discriminate|]. split; [reflexivity|].
    intros _ _. destruct p; reflexivity.
Qed.

Lemma new_messages {A} (old new : list A) : drop (length old) (old ++ new) = new.
Proof. apply drop_app_length. Qed.

(** X26. What the user sees of the worker's cache traffic.  The
    messages that a cache-first hit posts (its background refresh) and
    those that stale-while-revalidate posts when the fetch rejects (a
    cache error) change nothing on the page; the summary that a
    prefetch posts makes the page show one notice, whose text counts
    the URLs asked for. *)
Theorem page_notices_of_worker_messages (p : Page) :
  (forall E request cacheName cached st,
     CacheOps.lookup (CacheOps.key (OfRequest request)) (entries cacheName st) = Some cached ->
     deliver (drop (length (sent st))
                (sent (snd (cacheFirstStrategy E request cacheName st)))) p = p) /\
  (forall E request cacheName st error,
     net E (OfRequest request) = Failed error ->
     deliver (drop (length (sent st))
                (sent (snd (staleWhileRevalidateStrategy E request cacheName st)))) p = p) /\
  (forall E urls st,
     deliver (drop (length (sent st)) (sent (snd (handlePrefetchResources E urls st)))) p
     = show (CacheUpdateNotice (pretty (length urls) +:+ " resources cached for offline use"))
         p).
Proof.
  split; [| split].
  - intros E request cacheName cached st Hhit.
    rewrite (cacheFirst_hit_run E request cacheName cached st Hhit). simpl snd.
    destruct (net E (OfRequest request)) as [fresh | e].
    + destruct (Response.ok fresh).
      * unfold posting. simpl sent. rewrite new_messages. reflexivity.
      * rewrite drop_all. reflexivity.
    + rewrite drop_all. reflexivity.
  - intros E request cacheName st error Hnet.
    rewrite (Invariant.staleWhileRevalidate_failed_run E request cacheName st error Hnet).
    unfold posting. simpl sent. rewrite Run.sent_opened, new_messages. reflexivity.
  - intros E urls st. rewrite Prefetch.run. simpl snd. unfold posting. simpl sent.
    rewrite Prefetch.sent_fold, new_messages.
    unfold deliver, handleServiceWorkerMessage, prefetch_summary. simpl.
    destruct (pretty (length urls)); reflexivity.
Qed.

Lemma page_notices_of_worker_messages_witness :
  let p := mkPage "/telugu.html" ∅ false [] in
  let E := Sample.answering (Sample.page "x") (fun _ => None) in
  deliver (sent (snd (handlePrefetchResources E (Sample.page_urls 3) empty_state))) p
  = show (CacheUpdateNotice "3 resources cached for offline use") p.
Proof.
  intros p E.
  destruct (page_notices_of_worker_messages p) as (_ & _ & H).
  exact (H E (Sample.page_urls 3) empty_state).
Defined.

(** X27. [clearAllCache] of the page removes from the local storage
    exactly the keys that start with [cached_kukufm_] or
    [cached_master_], and deletes exactly the caches whose name contains
    [meow] anywhere, so possibly caches that the worker's own clearing,
    which looks at the prefix [meow-], would keep.  It shows one notice
    and posts nothing. *)
Theorem clearAllCache_effect (p : Page) (st : State) :
  let p' := fst (clearAllCache p st) in
  let st' := snd (clearAllCache p st) in
  (forall key,
     localStorage p' !! key =
     if Str.startsWith "cached_kukufm_" key || Str.startsWith "cached_master_" key
     then None else localStorage p !! key) /\
  (forall name,
     caches st' !! name = if Str.includes "meow" name then None else caches st !! name) /\
  sent st' = sent st /\
  shown p' = shown p ++ [CacheUpdateNotice "Cache cleared successfully!"] /\
  updateAvailable p' = updateAvailable p.
Proof.
  intros p' st'. subst p' st'. unfold clearAllCache. simpl fst. simpl snd.
  split; [| split; [| split; [| split]]].
  - intros key. simpl.
    apply (Lifecycle.lookup_delete_selected
             (fun key => Str.startsWith "cached_kukufm_" key
                         || Str.startsWith "cached_master_" key)).
  - intros name. unfold bind at 1, caches_keys.
    rewrite (Lifecycle.delete_loop (fun name => Str.includes "meow" name)). simpl.
    apply (Lifecycle.lookup_delete_selected (fun name => Str.includes "meow" name)).
  - unfold bind at 1, caches_keys.
    rewrite (Lifecycle.delete_loop (fun name => Str.includes "meow" name)). reflexivity.
  - reflexivity.
  - reflexivity.
Qed.

(** X28. What the user sees of the lifecycle.  The message that a
    forced update posts makes the page mark an update as available and
    show the update notice; the messages that activation and
    installation post change nothing on the page. *)
Theorem page_after_lifecycle_messages (p : Page) (E : Env) (st : State) :
  deliver (drop (length (sent st)) (sent (snd (handleForceUpdate E st)))) p
  = show UpdateNotice (mkPage (pathname p) (localStorage p) true (shown p)) /\
  deliver (drop (length (sent st)) (sent (snd (onactivate E st)))) p = p /\
  (forall origin,
     deliver (drop (length (sent st)) (sent (snd (oninstall E origin st)))) p = p).
Proof.
  split; [| split].
  - destruct (forceUpdate_run E st) as (st' & Hrun & Hs & _).
    rewrite Hrun. simpl snd. rewrite Hs, new_messages. reflexivity.
  - destruct (activate_run E st) as (st' & Hrun & Hs & _).
    rewrite Hrun. simpl snd. rewrite Hs, new_messages. reflexivity.
  - intros origin.
    destruct (install_sent E origin st) as [Hs | Hs]; rewrite Hs.
    + rewrite new_messages. reflexivity.
    + rewrite drop_all. reflexivity.
Qed.
